(** * The mutation core of react-query: MutationCache and MutationObserver

    A shallow embedding of [src/core/mutationCache.ts] and of the
    [MutationObserver] class, with the properties of their specification.

    JavaScript objects are shared by reference.  Every [Mutation] and every
    [MutationObserver] therefore lives in a store and is named by its
    address; the cache, the hash index and the observers hold addresses.
    Methods are computations in a state-and-exception monad over that
    store.  User code (listeners and call-scoped callbacks) is opaque: a
    call to it is recorded in a journal, with its arguments, and has no
    other effect.  The journal also records the updates of the two
    structures of the cache, so that the order of effects can be stated. *)

From stdpp Require Import base option list gmap strings.
From Stdlib Require Import ZArith Lia.

Local Open Scope Z_scope.
Local Open Scope string_scope.
Local Open Scope list_scope.

Set Primitive Projections.

(** ** Values *)

(** What TypeScript types as [unknown], [TData], [TError], [TVariables] and
    [TContext]. *)
Inductive Value : Type :=
| VUndefined
| VNull
| VBool (b : bool)
| VNum (n : Z)
| VStr (s : string)
| VError (message : string)
| VObj (address : nat).

(** [typeof v !== 'undefined'] *)
Definition is_defined (v : Value) : bool :=
  match v with VUndefined => false | _ => true end.

(** [MutationKey = string | readonly unknown[]] *)
Inductive MutationKey : Type :=
| KeyString (s : string)
| KeyArray (parts : list Value).

(** References into the store. *)
Abbreviation MRef := nat (only parsing).
Abbreviation ORef := nat (only parsing).

(** Listeners and callbacks are functions of the user; each is named by a
    number. *)
Abbreviation Fn := nat (only parsing).

(** ** Truthiness, as the conditions of the source use it *)

Definition truthy_bool (b : option bool) : bool :=
  match b with Some true => true | _ => false end.

Definition truthy_string (s : string) : bool :=
  match s with EmptyString => false | String _ _ => true end.

Definition truthy_key (k : option MutationKey) : bool :=
  match k with
  | None => false
  | Some (KeyString s) => truthy_string s
  | Some (KeyArray _) => true
  end.

(** The key, when [options.mutationKey] is truthy. *)
Definition truthy_key_of (k : option MutationKey) : option MutationKey :=
  if truthy_key k then k else None.

(** The hash, when [mutationHash] is truthy. *)
Definition truthy_hash_of (h : option string) : option string :=
  match h with
  | Some s => if truthy_string s then Some s else None
  | None => None
  end.

(** ** Object layouts *)

Module MutationOptions.
(** The fields of [MutationOptions] / [MutationObserverOptions] that the
    two classes read; [other] stands for the remaining ones. *)
Record t : Type := mk {
  shareable : option bool;
  mutationKey : option MutationKey;
  variables : Value;
  other : list (string * Value);
}.

(** [{}] *)
Definition empty : t :=
  {| shareable := None; mutationKey := None; variables := VUndefined; other := [] |}.
End MutationOptions.

Module MutateOptions.
(** [MutateOptions]: the call-scoped callback bundle. *)
Record t : Type := mk {
  onSuccess : option Fn;
  onError : option Fn;
  onSettled : option Fn;
}.
End MutateOptions.

Inductive MutationStatus : Type := Idle | Loading | Success | Error.

Module MutationState.
Record t : Type := mk {
  status : MutationStatus;
  isPaused : bool;
  data : Value;
  error : Value;
  variables : Value;
  context : Value;
}.

Definition set_isPaused (v : bool) (s : t) : t :=
  {| status := status s; isPaused := v; data := data s; error := error s;
     variables := variables s; context := context s |}.
End MutationState.

(** Modelled from the spec: [getDefaultState] of [./mutation], which is not
    part of the sources.  The spec calls it the default idle view: status
    idle, not paused, nothing else set. *)
Definition getDefaultState : MutationState.t :=
  {| MutationState.status := Idle;
     MutationState.isPaused := false;
     MutationState.data := VUndefined;
     MutationState.error := VUndefined;
     MutationState.variables := VUndefined;
     MutationState.context := VUndefined |}.

Module Mutation.
(** Modelled from the spec: the [Mutation] class of [./mutation] is not
    part of the sources.  The spec gives it an id assigned by the cache,
    an optional hash, its state and a set of observer back-references;
    [options] and [defaultOptions] are what [MutationCache.build] hands
    to its constructor. *)
Record t : Type := mk {
  mutationId : Z;
  mutationHash : option string;
  options : MutationOptions.t;
  defaultOptions : option MutationOptions.t;
  state : MutationState.t;
  observers : list ORef;
}.

Definition set_state (f : MutationState.t → MutationState.t) (m : t) : t :=
  {| mutationId := mutationId m; mutationHash := mutationHash m;
     options := options m; defaultOptions := defaultOptions m;
     state := f (state m); observers := observers m |}.

Definition set_observers (f : list ORef → list ORef) (m : t) : t :=
  {| mutationId := mutationId m; mutationHash := mutationHash m;
     options := options m; defaultOptions := defaultOptions m;
     state := state m; observers := f (observers m) |}.
End Mutation.

Module MutationObserverResult.
(** [{...state, isLoading, isSuccess, isError, isIdle, mutate, reset}].  The
    spread state is kept as one field.  The last two fields are the bound
    methods of the observer, the same two closures in every result of one
    observer; they are left out. *)
Record t : Type := mk {
  state : MutationState.t;
  isLoading : bool;
  isSuccess : bool;
  isError : bool;
  isIdle : bool;
}.

Definition status_is (s : MutationStatus) (st : MutationState.t) : bool :=
  match s, MutationState.status st with
  | Idle, Idle | Loading, Loading | Success, Success | Error, Error => true
  | _, _ => false
  end.

(** The view that [updateResult] derives from a state. *)
Definition of_state (st : MutationState.t) : t :=
  {| state := st;
     isLoading := status_is Loading st;
     isSuccess := status_is Success st;
     isError := status_is Error st;
     isIdle := status_is Idle st |}.
End MutationObserverResult.

Module NotifyOptions.
Record t : Type := mk {
  listeners : option bool;
  onError : option bool;
  onSuccess : option bool;
}.
End NotifyOptions.

Module MutationObserver.
Record t : Type := mk {
  options : option MutationOptions.t;
  currentResult : MutationObserverResult.t;
  currentMutation : option MRef;
  mutateOptions : option MutateOptions.t;
  listeners : list Fn;
}.

(** The object when its constructor starts: no options, no Mutation, no
    listener.  [currentResult] is declared definitely assigned: the
    constructor computes it before anything reads it, and it is the idle
    view until then. *)
Definition blank : t :=
  {| options := None;
     currentResult := MutationObserverResult.of_state getDefaultState;
     currentMutation := None;
     mutateOptions := None; listeners := [] |}.

Definition set_options (v : option MutationOptions.t) (o : t) : t :=
  {| options := v; currentResult := currentResult o;
     currentMutation := currentMutation o; mutateOptions := mutateOptions o;
     listeners := listeners o |}.

Definition set_currentResult (v : MutationObserverResult.t) (o : t) : t :=
  {| options := options o; currentResult := v;
     currentMutation := currentMutation o; mutateOptions := mutateOptions o;
     listeners := listeners o |}.

Definition set_currentMutation (v : option MRef) (o : t) : t :=
  {| options := options o; currentResult := currentResult o;
     currentMutation := v; mutateOptions := mutateOptions o;
     listeners := listeners o |}.

Definition set_mutateOptions (v : option MutateOptions.t) (o : t) : t :=
  {| options := options o; currentResult := currentResult o;
     currentMutation := currentMutation o; mutateOptions := v;
     listeners := listeners o |}.

Definition set_listeners (v : list Fn) (o : t) : t :=
  {| options := options o; currentResult := currentResult o;
     currentMutation := currentMutation o; mutateOptions := mutateOptions o;
     listeners := v |}.
End MutationObserver.

Module MutationCache.
(** [mutations], [mutationsMap], [mutationId] and the [listeners] of
    [Subscribable].  ([config] is stored by the constructor and read by
    neither class.)  [mutationsMap] is an object used as a map from hashes
    to Mutations: a finite map here, without the keys that an object
    inherits.  [mutationId] counts the builds: an integer here, as a
    number is while it stays below 2^53. *)
Record t : Type := mk {
  mutations : list MRef;
  mutationsMap : gmap string MRef;
  mutationId : Z;
  listeners : list Fn;
}.

(** [constructor] *)
Definition new : t :=
  {| mutations := []; mutationsMap := ∅; mutationId := 0; listeners := [] |}.
End MutationCache.

Module MutationFilters.
(** Modelled from the spec: [MutationFilters] of [./utils], which is not
    part of the sources.  The spec gives it an optional key, the [exact]
    flag, and predicates; [find] reads and writes [exact], and what the
    other fields mean is left to [matchMutation]. *)
Record t : Type := mk {
  exact : option bool;
  mutationKey : option MutationKey;
  other : list (string * Value);
}.

Definition set_exact (v : option bool) (f : t) : t :=
  {| exact := v; mutationKey := mutationKey f; other := other f |}.
End MutationFilters.

Module NotifyManager.
(** Modelled from the spec: the notification scheduler of
    [./notifyManager], which is not part of the sources.  The spec gives
    it a depth counter of the open batches. *)
Record t : Type := mk { transactions : nat }.
End NotifyManager.

(** Modelled from the spec: the [Action] type of [./mutation], which is not
    part of the sources.  The spec names the events of a Mutation: started,
    success, error, pause, continue. *)
Inductive Action : Type :=
| ActionStarted (variables : Value)
| ActionSuccess (data : Value)
| ActionError (error : Value)
| ActionPause
| ActionContinue.

(** ** The journal *)

Inductive Event : Type :=
(* calls into user code *)
| CacheListenerCalled (listener : Fn) (mutation : option MRef)
| OnSuccessCalled (callback : Fn) (data variables context : Value)
| OnErrorCalled (callback : Fn) (error variables context : Value)
| OnSettledCalled (callback : Fn) (data error variables context : Value)
| ListenerCalled (listener : Fn) (result : MutationObserverResult.t)
(* calls into the Mutation *)
| CancelCalled (mutation : MRef)
| ContinueCalled (mutation : MRef)
| ContinueSettled (mutation : MRef) (fulfilled : bool)
(* the scheduler drains its queue *)
| Flushed
(* updates of the two structures of the cache *)
| CollectionPushed (mutation : MRef)
| CollectionAssigned (mutations : list MRef)
| IndexAssigned (hash : string) (mutation : MRef)
| IndexDeleted (hash : string).

(** ** The store *)

Record World : Type := mkWorld {
  heap : list Mutation.t;
  observers : list MutationObserver.t;
  cache : MutationCache.t;
  notifyManager : NotifyManager.t;
  journal : list Event;
}.

Definition set_heap (f : list Mutation.t → list Mutation.t) (w : World) : World :=
  {| heap := f (heap w); observers := observers w; cache := cache w;
     notifyManager := notifyManager w; journal := journal w |}.

Definition set_observers (f : list MutationObserver.t → list MutationObserver.t)
    (w : World) : World :=
  {| heap := heap w; observers := f (observers w); cache := cache w;
     notifyManager := notifyManager w; journal := journal w |}.

Definition set_cache (f : MutationCache.t → MutationCache.t) (w : World) : World :=
  {| heap := heap w; observers := observers w; cache := f (cache w);
     notifyManager := notifyManager w; journal := journal w |}.

Definition set_transactions (f : nat → nat) (w : World) : World :=
  {| heap := heap w; observers := observers w; cache := cache w;
     notifyManager :=
       {| NotifyManager.transactions := f (NotifyManager.transactions (notifyManager w)) |};
     journal := journal w |}.

Definition record_all (es : list Event) (w : World) : World :=
  {| heap := heap w; observers := observers w; cache := cache w;
     notifyManager := notifyManager w; journal := journal w ++ es |}.

Definition record (e : Event) (w : World) : World := record_all [e] w.

(** A fresh process: nothing allocated, an empty cache, no open batch. *)
Definition initial : World :=
  {| heap := []; observers := []; cache := MutationCache.new;
     notifyManager := {| NotifyManager.transactions := 0 |}; journal := [] |}.

(** ** The monad of methods *)

Inductive Completion (A : Type) : Type :=
| Returned (a : A)
| Thrown (e : Value).
Arguments Returned {A} a.
Arguments Thrown {A} e.

Definition M (A : Type) : Type := World → Completion A * World.

#[global] Instance M_ret : MRet M := λ A a w, (Returned a, w).

#[global] Instance M_bind : MBind M := λ A B f m w,
  match m w with
  | (Returned a, w') => f a w'
  | (Thrown e, w') => (Thrown e, w')
  end.

(** [throw e] *)
Definition throw {A} (e : Value) : M A := λ w, (Thrown e, w).

(** Read the store. *)
Definition gets {A} (f : World → A) : M A := λ w, (Returned (f w), w).

(** Update the store. *)
Definition modify (f : World → World) : M unit := λ w, (Returned tt, f w).

(** The store a computation leaves. *)
Definition exec {A} (m : M A) (w : World) : World := (m w).2.

(** How a computation completes. *)
Definition completion {A} (m : M A) (w : World) : Completion A := (m w).1.

(** [xs.forEach(f)] *)
Fixpoint forEach {A} (xs : list A) (f : A → M unit) : M unit :=
  match xs with
  | [] => mret tt
  | x :: xs' => f x ;; forEach xs' f
  end.

(** [xs.find(p)]: the first element that satisfies [p]. *)
Fixpoint Array_find {A} (p : A → bool) (xs : list A) : option A :=
  match xs with
  | [] => None
  | x :: xs' => if p x then Some x else Array_find p xs'
  end.

(** A promise is the computation that settles it: [Returned] fulfils,
    [Thrown] rejects.  Running it is what the event loop does once the
    synchronous code that created it has returned. *)
Definition Promise (A : Type) : Type := M A.

(** [Promise.resolve()] *)
Definition Promise_resolve : Promise unit := mret tt.

(** [promise.then(onFulfilled)], for an [onFulfilled] that returns a promise:
    a rejection skips [onFulfilled]; otherwise [onFulfilled] is called, and
    the promise that it returns is awaited. *)
Definition Promise_then {A B} (promise : Promise A) (onFulfilled : A → M (Promise B))
    : Promise B :=
  a ← promise ;
  returned ← onFulfilled a ;
  returned.

(** [promise.catch(noop)] *)
Definition Promise_catch_noop {A} (promise : Promise A) : Promise unit := λ w,
  match promise w with
  | (Returned _, w') => (Returned tt, w')
  | (Thrown _, w') => (Returned tt, w')
  end.

(** The names that every plain object answers through [Object.prototype]:
    on the object [{}], a read of one of them does not yield [undefined]. *)
Definition Object_prototype : list string :=
  ["constructor"; "__defineGetter__"; "__defineSetter__"; "hasOwnProperty";
   "__lookupGetter__"; "__lookupSetter__"; "isPrototypeOf"; "propertyIsEnumerable";
   "toString"; "valueOf"; "__proto__"; "toLocaleString"].

(** ** The methods *)

Section Model.

(** What the two classes call in modules that are not part of the
    sources: the option defaults of the [QueryClient], the identity hash
    of [./utils], and the asynchronous operation that a [Mutation] runs.
    [operation] tells how an attempt of a Mutation settles: [inl data] when
    it succeeds, [inr error] when it fails. *)
Variable defaultMutationOptions : option MutationOptions.t → MutationOptions.t.
Variable getMutationDefaults : MutationKey → option MutationOptions.t.
Variable hashMutationKeyByOptions : MutationKey → MutationOptions.t → string.
Variable operation : Mutation.t → Value + Value.

(** [matchMutation] of [./utils], which is not part of the sources either:
    whether a Mutation passes the filters. *)
Variable matchMutation : MutationFilters.t → Mutation.t → bool.

(** *** notifyManager *)

(** Modelled from the spec: [notifyManager.batch] of [./notifyManager], which
    is not part of the sources.  Entering a batch increments the depth
    counter; leaving the outermost batch flushes the queued listener
    invocations, once. *)
Definition batch {A} (callback : M A) : M A :=
  modify (set_transactions S) ;;
  result ← callback ;
  modify (set_transactions pred) ;;
  depth ← gets (λ w, NotifyManager.transactions (notifyManager w)) ;
  (if depth is O then modify (record Flushed) else mret tt) ;;
  mret result.

(** *** Mutation *)

(** Modelled from the spec: the constructor of [Mutation].  It allocates
    the object; the state is the one handed in, or the default one. *)
Definition Mutation_new (mutationId : Z) (mutationHash : option string)
    (options : MutationOptions.t) (state : option MutationState.t)
    (defaultOptions : option MutationOptions.t) : M MRef := λ w,
  (Returned (length (heap w)),
   set_heap (λ h, h ++ [ {| Mutation.mutationId := mutationId;
                            Mutation.mutationHash := mutationHash;
                            Mutation.options := options;
                            Mutation.defaultOptions := defaultOptions;
                            Mutation.state := default getDefaultState state;
                            Mutation.observers := [] |} ]) w).

(** Field reads through a reference.  A reference that the store does not
    hold cannot arise (allocation only extends the store); a read through
    one yields undefined and a write is dropped. *)
Definition Mutation_mutationHash (mutation : MRef) (w : World) : option string :=
  heap w !! mutation ≫= Mutation.mutationHash.

Definition Mutation_state (mutation : MRef) (w : World) : MutationState.t :=
  default getDefaultState (Mutation.state <$> heap w !! mutation).

Definition Mutation_observers (mutation : MRef) (w : World) : list ORef :=
  default [] (Mutation.observers <$> heap w !! mutation).

(** Modelled from the spec: [addObserver] and [removeObserver] manage the
    set of back-references. *)
Definition Mutation_addObserver (mutation : MRef) (observer : ORef) : M unit :=
  modify (set_heap (alter (Mutation.set_observers
    (λ os, if bool_decide (observer ∈ os) then os else os ++ [observer])) mutation)).

Definition Mutation_removeObserver (mutation : MRef) (observer : ORef) : M unit :=
  modify (set_heap (alter (Mutation.set_observers
    (filter (λ x, x ≠ observer))) mutation)).

(** Modelled from the spec: [cancel] aborts and leaves a pending retry. *)
Definition Mutation_cancel (mutation : MRef) : M unit :=
  modify (record (CancelCalled mutation)) ;;
  modify (set_heap (alter
    (Mutation.set_state (MutationState.set_isPaused false)) mutation)).

(** *** MutationObserver: the derived result and its notification *)

(** [this], read through its reference. *)
Definition this_ (this : ORef) (w : World) : MutationObserver.t :=
  default MutationObserver.blank (observers w !! this).

(** [updateResult()] *)
Definition MutationObserver_updateResult (this : ORef) : M unit :=
  state ← gets (λ w,
    match MutationObserver.currentMutation (this_ this w) with
    | Some mutation => Mutation_state mutation w
    | None => getDefaultState
    end) ;
  modify (set_observers (alter
    (MutationObserver.set_currentResult (MutationObserverResult.of_state state)) this)).

(** [callback?.(...)] *)
Definition call_optional (callback : option Fn) (call : Fn → Event) : M unit :=
  match callback with
  | Some f => modify (record (call f))
  | None => mret tt
  end.

(** [notify(options)] *)
Definition MutationObserver_notify (this : ORef) (options : NotifyOptions.t) : M unit :=
  batch (
    (* First trigger the mutate callbacks *)
    mutateOptions ← gets (λ w, MutationObserver.mutateOptions (this_ this w)) ;
    currentResult ← gets (λ w,
      MutationObserverResult.state (MutationObserver.currentResult (this_ this w))) ;
    match mutateOptions with
    | Some mutateOptions =>
        if truthy_bool (NotifyOptions.onSuccess options) then
          call_optional (MutateOptions.onSuccess mutateOptions) (λ f,
            OnSuccessCalled f (MutationState.data currentResult)
              (MutationState.variables currentResult)
              (MutationState.context currentResult)) ;;
          call_optional (MutateOptions.onSettled mutateOptions) (λ f,
            OnSettledCalled f (MutationState.data currentResult) VNull
              (MutationState.variables currentResult)
              (MutationState.context currentResult))
        else if truthy_bool (NotifyOptions.onError options) then
          call_optional (MutateOptions.onError mutateOptions) (λ f,
            OnErrorCalled f (MutationState.error currentResult)
              (MutationState.variables currentResult)
              (MutationState.context currentResult)) ;;
          call_optional (MutateOptions.onSettled mutateOptions) (λ f,
            OnSettledCalled f VUndefined (MutationState.error currentResult)
              (MutationState.variables currentResult)
              (MutationState.context currentResult))
        else mret tt
    | None => mret tt
    end ;;
    (* Then trigger the listeners *)
    if truthy_bool (NotifyOptions.listeners options) then
      listeners ← gets (λ w, MutationObserver.listeners (this_ this w)) ;
      result ← gets (λ w, MutationObserver.currentResult (this_ this w)) ;
      forEach listeners (λ listener, modify (record (ListenerCalled listener result)))
    else mret tt).

(** [onMutationUpdate(action)] *)
Definition MutationObserver_onMutationUpdate (this : ORef) (action : Action) : M unit :=
  MutationObserver_updateResult this ;;
  (* Determine which callbacks to trigger *)
  MutationObserver_notify this
    {| NotifyOptions.listeners := Some true;
       NotifyOptions.onSuccess :=
         match action with ActionSuccess _ => Some true | _ => None end;
       NotifyOptions.onError :=
         match action with ActionError _ => Some true | _ => None end |}.

(** *** MutationObserver: the notification, with the user's functions run *)

(** What a function of the user does when it is called: [user e] is the
    run of the call that [e] names.  It may do anything, also call the
    methods of the observer that notifies.  [notify] and [onMutationUpdate]
    above are the two methods at functions that do nothing. *)
Variable user : Event → M unit.

(** A call into user code: it is entered in the journal, and the function
    runs. *)
Definition call (e : Event) : M unit :=
  modify (record e) ;;
  user e.

(** [this.mutateOptions.callback?.(...)].  [this.mutateOptions] is read at
    this statement, and reading a property of [undefined] throws; the
    arguments are read from [this.currentResult] when the callback is
    there. *)
Definition call_scoped (this : ORef) (callback : MutateOptions.t → option Fn)
    (e : Fn → MutationState.t → Event) : M unit :=
  mutateOptions ← gets (λ w, MutationObserver.mutateOptions (this_ this w)) ;
  match mutateOptions with
  | Some mutateOptions =>
      match callback mutateOptions with
      | Some f =>
          currentResult ← gets (λ w,
            MutationObserverResult.state (MutationObserver.currentResult (this_ this w))) ;
          call (e f currentResult)
      | None => mret tt
      end
  | None => throw (VError "TypeError")
  end.

(** [notify(options)] *)
Definition MutationObserver_notify_calling (this : ORef) (options : NotifyOptions.t)
    : M unit :=
  batch (
    (* First trigger the mutate callbacks *)
    mutateOptions ← gets (λ w, MutationObserver.mutateOptions (this_ this w)) ;
    match mutateOptions with
    | Some _ =>
        if truthy_bool (NotifyOptions.onSuccess options) then
          call_scoped this MutateOptions.onSuccess (λ f currentResult,
            OnSuccessCalled f (MutationState.data currentResult)
              (MutationState.variables currentResult)
              (MutationState.context currentResult)) ;;
          call_scoped this MutateOptions.onSettled (λ f currentResult,
            OnSettledCalled f (MutationState.data currentResult) VNull
              (MutationState.variables currentResult)
              (MutationState.context currentResult))
        else if truthy_bool (NotifyOptions.onError options) then
          call_scoped this MutateOptions.onError (λ f currentResult,
            OnErrorCalled f (MutationState.error currentResult)
              (MutationState.variables currentResult)
              (MutationState.context currentResult)) ;;
          call_scoped this MutateOptions.onSettled (λ f currentResult,
            OnSettledCalled f VUndefined (MutationState.error currentResult)
              (MutationState.variables currentResult)
              (MutationState.context currentResult))
        else mret tt
    | None => mret tt
    end ;;
    (* Then trigger the listeners *)
    if truthy_bool (NotifyOptions.listeners options) then
      listeners ← gets (λ w, MutationObserver.listeners (this_ this w)) ;
      forEach listeners (λ listener,
        currentResult ← gets (λ w, MutationObserver.currentResult (this_ this w)) ;
        call (ListenerCalled listener currentResult))
    else mret tt).

(** [onMutationUpdate(action)] *)
Definition MutationObserver_onMutationUpdate_calling (this : ORef) (action : Action)
    : M unit :=
  MutationObserver_updateResult this ;;
  (* Determine which callbacks to trigger *)
  MutationObserver_notify_calling this
    {| NotifyOptions.listeners := Some true;
       NotifyOptions.onSuccess :=
         match action with ActionSuccess _ => Some true | _ => None end;
       NotifyOptions.onError :=
         match action with ActionError _ => Some true | _ => None end |}.

(** *** Mutation: its events *)

(** Modelled from the spec: the transitions of the state machine,
    [idle → loading → success | error], with [isPaused] set by pause and
    cleared by every other event. *)
Definition reducer (s : MutationState.t) (action : Action) : MutationState.t :=
  match action with
  | ActionStarted variables =>
      {| MutationState.status := Loading; MutationState.isPaused := false;
         MutationState.data := MutationState.data s;
         MutationState.error := MutationState.error s;
         MutationState.variables := variables;
         MutationState.context := MutationState.context s |}
  | ActionSuccess data =>
      {| MutationState.status := Success; MutationState.isPaused := false;
         MutationState.data := data;
         MutationState.error := MutationState.error s;
         MutationState.variables := MutationState.variables s;
         MutationState.context := MutationState.context s |}
  | ActionError error =>
      {| MutationState.status := Error; MutationState.isPaused := false;
         MutationState.data := MutationState.data s;
         MutationState.error := error;
         MutationState.variables := MutationState.variables s;
         MutationState.context := MutationState.context s |}
  | ActionPause => MutationState.set_isPaused true s
  | ActionContinue => MutationState.set_isPaused false s
  end.

(** Modelled from the spec: every transition is broadcast synchronously
    to all current observers, with no batching at this layer. *)
Definition Mutation_dispatch (mutation : MRef) (action : Action) : M unit :=
  modify (set_heap (alter (Mutation.set_state (λ s, reducer s action)) mutation)) ;;
  observers ← gets (Mutation_observers mutation) ;
  forEach observers (λ observer, MutationObserver_onMutationUpdate observer action).

(** Modelled from the spec: the same broadcast, with the user's functions
    run. *)
Definition Mutation_dispatch_calling (mutation : MRef) (action : Action) : M unit :=
  modify (set_heap (alter (Mutation.set_state (λ s, reducer s action)) mutation)) ;;
  observers ← gets (Mutation_observers mutation) ;
  forEach observers (λ observer, MutationObserver_onMutationUpdate_calling observer action).

(** Modelled from the spec: how the attempt that is running settles.  The
    outcome is the one of [operation]; it is captured in the state,
    broadcast, and fulfils or rejects the awaitable. *)
Definition Mutation_settle (mutation : MRef) : Promise Value :=
  object ← gets (λ w, heap w !! mutation) ;
  match operation <$> object with
  | Some (inl data) => Mutation_dispatch mutation (ActionSuccess data) ;; mret data
  | Some (inr error) => Mutation_dispatch mutation (ActionError error) ;; throw error
  | None => throw (VError "TypeError")
  end.

(** Modelled from the spec: [execute] starts the operation, on the
    variables of the options, and returns the awaitable outcome. *)
Definition Mutation_execute (mutation : MRef) : M (Promise Value) :=
  variables ← gets (λ w,
    default VUndefined
      ((MutationOptions.variables ∘ Mutation.options) <$> heap w !! mutation)) ;
  Mutation_dispatch mutation (ActionStarted variables) ;;
  mret (Mutation_settle mutation).

(** Modelled from the spec: [continue()] resumes a paused mutation at the
    call and returns the awaitable of the resumed attempt, as [execute]
    starts the operation at the call.  The journal keeps when the call is
    made and when its awaitable settles. *)
Definition Mutation_continue (mutation : MRef) : M (Promise Value) :=
  modify (record (ContinueCalled mutation)) ;;
  Mutation_dispatch mutation ActionContinue ;;
  mret (λ w,
    match Mutation_settle mutation w with
    | (Returned data, w') => (Returned data, record (ContinueSettled mutation true) w')
    | (Thrown error, w') => (Thrown error, record (ContinueSettled mutation false) w')
    end).

(** *** MutationCache *)

(** Modelled from the spec: [subscribe] of [./subscribable], which is not
    part of the sources, adds a listener. *)
Definition MutationCache_subscribe (listener : Fn) : M unit :=
  modify (set_cache (λ c,
    {| MutationCache.mutations := MutationCache.mutations c;
       MutationCache.mutationsMap := MutationCache.mutationsMap c;
       MutationCache.mutationId := MutationCache.mutationId c;
       MutationCache.listeners := MutationCache.listeners c ++ [listener] |})).

(** [notify(mutation?)] *)
Definition MutationCache_notify (mutation : option MRef) : M unit :=
  batch (
    listeners ← gets (λ w, MutationCache.listeners (cache w)) ;
    forEach listeners (λ listener,
      modify (record (CacheListenerCalled listener mutation)))).

(** [add(mutation)] *)
Definition MutationCache_add (mutation : MRef) : M unit :=
  modify (λ w, record (CollectionPushed mutation) (set_cache (λ c,
    {| MutationCache.mutations := MutationCache.mutations c ++ [mutation];
       MutationCache.mutationsMap := MutationCache.mutationsMap c;
       MutationCache.mutationId := MutationCache.mutationId c;
       MutationCache.listeners := MutationCache.listeners c |}) w)) ;;
  MutationCache_notify (Some mutation).

(** [++this.mutationId] *)
Definition MutationCache_nextId : M Z := λ w,
  (Returned (MutationCache.mutationId (cache w) + 1),
   set_cache (λ c,
     {| MutationCache.mutations := MutationCache.mutations c;
        MutationCache.mutationsMap := MutationCache.mutationsMap c;
        MutationCache.mutationId := MutationCache.mutationId c + 1;
        MutationCache.listeners := MutationCache.listeners c |}) w).

(** [this.mutationsMap[hash] = mutation] *)
Definition MutationCache_index (hash : string) (mutation : MRef) : M unit :=
  modify (λ w, record (IndexAssigned hash mutation) (set_cache (λ c,
    {| MutationCache.mutations := MutationCache.mutations c;
       MutationCache.mutationsMap := <[hash := mutation]> (MutationCache.mutationsMap c);
       MutationCache.mutationId := MutationCache.mutationId c;
       MutationCache.listeners := MutationCache.listeners c |}) w)).

(** [delete this.mutationsMap[hash]] *)
Definition MutationCache_unindex (hash : string) : M unit :=
  modify (λ w, record (IndexDeleted hash) (set_cache (λ c,
    {| MutationCache.mutations := MutationCache.mutations c;
       MutationCache.mutationsMap := delete hash (MutationCache.mutationsMap c);
       MutationCache.mutationId := MutationCache.mutationId c;
       MutationCache.listeners := MutationCache.listeners c |}) w)).

(** The [mutationHash] of [build]:
    [options.shareable && options.mutationKey ? hashMutationKeyByOptions(...) : null] *)
Definition build_mutationHash (options : MutationOptions.t) : option string :=
  if truthy_bool (MutationOptions.shareable options)
  then key ← truthy_key_of (MutationOptions.mutationKey options) ;
       Some (hashMutationKeyByOptions key options)
  else None.

(** [build(client, options, state?)].  There is one client; its two
    methods are the parameters above. *)
Definition MutationCache_build (options : MutationOptions.t)
    (state : option MutationState.t) : M MRef :=
  let mutationHash := build_mutationHash options in
  mutationId ← MutationCache_nextId ;
  mutation ← Mutation_new mutationId mutationHash
    (defaultMutationOptions (Some options)) state
    (key ← truthy_key_of (MutationOptions.mutationKey options) ;
     getMutationDefaults key) ;
  MutationCache_add mutation ;;
  match truthy_hash_of mutationHash with
  | Some hash => MutationCache_index hash mutation
  | None => mret tt
  end ;;
  mret mutation.

(** [remove(mutation)] *)
Definition MutationCache_remove (mutation : MRef) : M unit :=
  modify (λ w, record
    (CollectionAssigned (filter (λ x, x ≠ mutation) (MutationCache.mutations (cache w))))
    (set_cache (λ c,
      {| MutationCache.mutations := filter (λ x, x ≠ mutation) (MutationCache.mutations c);
         MutationCache.mutationsMap := MutationCache.mutationsMap c;
         MutationCache.mutationId := MutationCache.mutationId c;
         MutationCache.listeners := MutationCache.listeners c |}) w)) ;;
  mutationHash ← gets (Mutation_mutationHash mutation) ;
  match truthy_hash_of mutationHash with
  | Some hash => MutationCache_unindex hash
  | None => mret tt
  end ;;
  Mutation_cancel mutation ;;
  MutationCache_notify (Some mutation).

(** [clear()].  [forEach] walks the array that [this.mutations] names when
    the loop starts; [remove] assigns new arrays and leaves it as it is. *)
Definition MutationCache_clear : M unit :=
  batch (
    mutations ← gets (λ w, MutationCache.mutations (cache w)) ;
    forEach mutations (λ mutation, MutationCache_remove mutation)).

(** [resumePausedMutations()].  The callback of [batch] only builds the
    chain of promises; the chain runs after the method has returned. *)
Definition MutationCache_resumePausedMutations : M (Promise unit) :=
  pausedMutations ← gets (λ w,
    filter (λ x, MutationState.isPaused (Mutation_state x w) = true)
           (MutationCache.mutations (cache w))) ;
  batch (mret (
    foldl (λ promise mutation,
             Promise_then promise (λ _,
               continued ← Mutation_continue mutation ;
               mret (Promise_catch_noop continued)))
          Promise_resolve pausedMutations)).

(** [onFocus()] and [onOnline()] return nothing; the promise that they
    leave running is kept here, so that what it does can be stated. *)
Definition MutationCache_onFocus : M (Promise unit) :=
  MutationCache_resumePausedMutations.

Definition MutationCache_onOnline : M (Promise unit) :=
  MutationCache_resumePausedMutations.

(** [getAll()] *)
Definition MutationCache_getAll (w : World) : list MRef :=
  MutationCache.mutations (cache w).

(** [get(hash)]: the entry that the index object has of its own.  What the
    object answers for a name of [Object_prototype] without an entry is
    left out. *)
Definition MutationCache_get (hash : string) (w : World) : option MRef :=
  MutationCache.mutationsMap (cache w) !! hash.

(** [matchMutation(filters, mutation)], through the reference. *)
Definition matches (filters : MutationFilters.t) (w : World) (mutation : MRef) : bool :=
  match heap w !! mutation with
  | Some object => matchMutation filters object
  | None => false
  end.

(** [find(filters)].  The filters are an object of the caller, and [find]
    assigns its [exact]; the object as [find] leaves it is returned beside
    the result. *)
Definition MutationCache_find (filters : MutationFilters.t) (w : World)
    : MutationFilters.t * option MRef :=
  let filters :=
    match MutationFilters.exact filters with
    | None => MutationFilters.set_exact (Some true) filters
    | Some _ => filters
    end in
  (filters, Array_find (matches filters w) (MutationCache.mutations (cache w))).

(** [findAll(filters)] *)
Definition MutationCache_findAll (filters : MutationFilters.t) (w : World) : list MRef :=
  filter (λ mutation, matches filters w mutation = true) (MutationCache.mutations (cache w)).

(** *** MutationObserver *)

(** [getCurrentResult()] *)
Definition MutationObserver_getCurrentResult (this : ORef) (w : World)
    : MutationObserverResult.t :=
  MutationObserver.currentResult (this_ this w).

(** The two configuration errors.  The first message is
    ["shareable" can't be changed], with the quotation marks. *)
Definition quote : string := String (Ascii.ascii_of_nat 34) EmptyString.

Definition shareable_changed : Value :=
  VError (quote +:+ "shareable" +:+ quote +:+ " can't be changed").

Definition shareable_needs_key : Value :=
  VError "Shareable mutation requires mutationKey to be set".

(** [updateSharedMutation()] *)
Definition MutationObserver_updateSharedMutation (this : ORef) : M unit :=
  options ← gets (λ w,
    default MutationOptions.empty (MutationObserver.options (this_ this w))) ;
  if negb (truthy_bool (MutationOptions.shareable options)) then mret tt
  else
    match truthy_key_of (MutationOptions.mutationKey options) with
    | None => throw shareable_needs_key
    | Some key =>
        let hash := hashMutationKeyByOptions key options in
        mutation ← gets (MutationCache_get hash) ;
        currentMutation ← gets (λ w, MutationObserver.currentMutation (this_ this w)) ;
        if bool_decide (currentMutation = mutation) then mret tt
        else
          match currentMutation with
          | Some current => Mutation_removeObserver current this
          | None => mret tt
          end ;;
          modify (set_observers (alter
            (MutationObserver.set_currentMutation mutation) this)) ;;
          match mutation with
          | Some shared => Mutation_addObserver shared this
          | None => mret tt
          end ;;
          MutationObserver_updateResult this
    end.

(** [setOptions(options?)] *)
Definition MutationObserver_setOptions (this : ORef)
    (options : option MutationOptions.t) : M unit :=
  prevOptions ← gets (λ w, MutationObserver.options (this_ this w)) ;
  modify (set_observers (alter
    (MutationObserver.set_options (Some (defaultMutationOptions options))) this)) ;;
  match prevOptions with
  | Some prev =>
      if bool_decide (MutationOptions.shareable prev ≠ options ≫= MutationOptions.shareable)
      then throw shareable_changed
      else MutationObserver_updateSharedMutation this
  | None => MutationObserver_updateSharedMutation this
  end.

(** [onUnsubscribe()] *)
Definition MutationObserver_onUnsubscribe (this : ORef) : M unit :=
  listeners ← gets (λ w, MutationObserver.listeners (this_ this w)) ;
  if bool_decide (length listeners = 0%nat) then
    currentMutation ← gets (λ w, MutationObserver.currentMutation (this_ this w)) ;
    match currentMutation with
    | Some current => Mutation_removeObserver current this
    | None => mret tt
    end
  else mret tt.

(** Modelled from the spec: [subscribe] of [./subscribable], which is not
    part of the sources, adds a generic listener and returns the function
    that detaches it; that function runs the unsubscribe hook. *)
Definition MutationObserver_subscribe (this : ORef) (listener : Fn) : M unit :=
  modify (set_observers (alter (λ o,
    MutationObserver.set_listeners (MutationObserver.listeners o ++ [listener]) o) this)).

Definition MutationObserver_unsubscribe (this : ORef) (listener : Fn) : M unit :=
  modify (set_observers (alter (λ o,
    MutationObserver.set_listeners
      (filter (λ x, x ≠ listener) (MutationObserver.listeners o)) o) this)) ;;
  MutationObserver_onUnsubscribe this.

(** [reset()] *)
Definition MutationObserver_reset (this : ORef) : M unit :=
  modify (set_observers (alter (MutationObserver.set_currentMutation None) this)) ;;
  MutationObserver_updateResult this ;;
  MutationObserver_notify this
    {| NotifyOptions.listeners := Some true;
       NotifyOptions.onSuccess := None;
       NotifyOptions.onError := None |}.

(** [mutate(variables?, options?)] *)
Definition MutationObserver_mutate (this : ORef) (variables : Value)
    (options : option MutateOptions.t) : M (Promise Value) :=
  modify (set_observers (alter (MutationObserver.set_mutateOptions options) this)) ;;
  currentMutation ← gets (λ w, MutationObserver.currentMutation (this_ this w)) ;
  match currentMutation with
  | Some current => Mutation_removeObserver current this
  | None => mret tt
  end ;;
  thisOptions ← gets (λ w,
    default MutationOptions.empty (MutationObserver.options (this_ this w))) ;
  mutation ← MutationCache_build
    {| MutationOptions.shareable := MutationOptions.shareable thisOptions;
       MutationOptions.mutationKey := MutationOptions.mutationKey thisOptions;
       MutationOptions.variables :=
         if is_defined variables then variables
         else MutationOptions.variables thisOptions;
       MutationOptions.other := MutationOptions.other thisOptions |}
    None ;
  modify (set_observers (alter (MutationObserver.set_currentMutation (Some mutation)) this)) ;;
  Mutation_addObserver mutation this ;;
  Mutation_execute mutation.

(** [constructor(client, options)].  [bindMethods] only fixes the receiver
    of [mutate] and [reset]. *)
Definition MutationObserver_new (options : MutationOptions.t) : M ORef :=
  this ← (λ w, (Returned (length (observers w)),
                set_observers (λ os, os ++ [MutationObserver.blank]) w)) ;
  MutationObserver_setOptions this (Some options) ;;
  MutationObserver_updateResult this ;;
  mret this.

End Model.

(** ** Reading a journal *)

Definition is_flush (e : Event) : bool :=
  match e with Flushed => true | _ => false end.

Definition is_cancel (e : Event) : bool :=
  match e with CancelCalled _ => true | _ => false end.

Definition is_collection_assigned (e : Event) : bool :=
  match e with CollectionAssigned _ => true | _ => false end.

Definition is_index_deleted (e : Event) : bool :=
  match e with IndexDeleted _ => true | _ => false end.

Definition is_continue (e : Event) : bool :=
  match e with ContinueCalled _ | ContinueSettled _ _ => true | _ => false end.

Definition is_success_or_error (e : Event) : bool :=
  match e with
  | OnSuccessCalled _ _ _ _ | OnErrorCalled _ _ _ _ => true
  | _ => false
  end.

(** How many flushes a journal holds. *)
Definition count_flushes (es : list Event) : nat :=
  length (filter (λ e, is_flush e = true) es).

(** How many times the scheduler has flushed. *)
Definition flushes (w : World) : nat := count_flushes (journal w).

(** What a computation adds to the journal. *)
Definition added {A} (m : M A) (w : World) : list Event :=
  drop (length (journal w)) (journal (exec m w)).

(** Where the first event of a kind stands in a journal. *)
Definition position (kind : Event → bool) (es : list Event) : option nat :=
  fst <$> list_find (λ e, kind e = true) es.

(** The first event of one kind stands before the first event of another. *)
Definition precedes (first second : Event → bool) (es : list Event) : Prop :=
  match position first es, position second es with
  | Some i, Some j => (i < j)%nat
  | _, _ => False
  end.

(** The depth of the open batches. *)
Definition depth (w : World) : nat := NotifyManager.transactions (notifyManager w).

(** What leaving a batch does at the outermost level. *)
Definition flush_outermost (w : World) : World :=
  if depth w is O then record Flushed w else w.

(** Calls into user code, and flushes: what a notification adds to the
    journal. *)
Definition is_notification (e : Event) : bool :=
  match e with
  | CacheListenerCalled _ _ | OnSuccessCalled _ _ _ _ | OnErrorCalled _ _ _ _
  | OnSettledCalled _ _ _ _ _ | ListenerCalled _ _ | Flushed => true
  | _ => false
  end.

(** The calls of [continue()] and their settlements, in the order of the
    journal. *)
Definition continues (es : list Event) : list Event :=
  filter (λ e, is_continue e = true) es.

(** The journal of a sequential resumption: each Mutation of the list, in
    its order, is continued and its awaitable settles, fulfilled or
    rejected, before the next one is continued. *)
Inductive resumed : list MRef → list Event → Prop :=
| resumed_nil : resumed [] []
| resumed_cons mutation fulfilled mutations es :
    resumed mutations es →
    resumed (mutation :: mutations)
      (ContinueCalled mutation :: ContinueSettled mutation fulfilled :: es).

(** ** Reading the store *)

(** The Mutation that an observer holds a reference to. *)
Definition bound (this : ORef) (w : World) : option MRef :=
  MutationObserver.currentMutation (this_ this w).

(** The id of a Mutation. *)
Definition mutationId_of (mutation : MRef) (w : World) : option Z :=
  Mutation.mutationId <$> heap w !! mutation.

(** The invariant of the spec: an observer that holds a reference to a
    Mutation is in the observer set of that Mutation. *)
Definition bound_is_registered (w : World) : Prop :=
  ∀ this mutation, bound this w = Some mutation → this ∈ Mutation_observers mutation w.

(** No Mutation has an id above the counter of the cache. *)
Definition ids_issued (w : World) : Prop :=
  ∀ mutation id, mutationId_of mutation w = Some id → (id ≤ MutationCache.mutationId (cache w))%Z.

(** The store without what notifications write: the derived results and
    the journal. *)
Definition skeleton (w : World) : World :=
  {| heap := heap w;
     observers :=
       MutationObserver.set_currentResult (MutationObserverResult.of_state getDefaultState)
         <$> observers w;
     cache := cache w;
     notifyManager := notifyManager w;
     journal := [] |}.

(** The hash index and the collection agree: the index names only
    Mutations of the collection, each under its own hash, and no key of
    the index is the empty string. *)
Definition index_tracks_collection (w : World) : Prop :=
  ∀ hash mutation,
    MutationCache_get hash w = Some mutation →
    mutation ∈ MutationCache_getAll w
    ∧ Mutation_mutationHash mutation w = Some hash
    ∧ truthy_string hash = true.



(** Exactly one of the four status flags of a result is set. *)
Definition one_status (result : MutationObserverResult.t) : Prop :=
  (if MutationObserverResult.isLoading result then 1 else 0)
  + (if MutationObserverResult.isSuccess result then 1 else 0)
  + (if MutationObserverResult.isError result then 1 else 0)
  + (if MutationObserverResult.isIdle result then 1 else 0) = 1.

(** One store comes from another by a move of the binding of one observer
    alone: nothing is called, the cache and the scheduler are as they
    were, no Mutation has changed but for its observer set, and the other
    observers are as they were. *)
Definition rebinds (this : ORef) (w w' : World) : Prop :=
  journal w' = journal w
  ∧ cache w' = cache w
  ∧ notifyManager w' = notifyManager w
  ∧ (∀ mutation, Mutation.set_observers (λ _, []) <$> heap w' !! mutation
                 = Mutation.set_observers (λ _, []) <$> heap w !! mutation)
  ∧ (∀ other, other ≠ this → observers w' !! other = observers w !! other)
  ∧ MutationObserver.options <$> observers w' !! this
    = MutationObserver.options <$> observers w !! this.

(** Every result that an observer exposes is a view derived from a state:
    its four flags are the ones of the status of its state. *)
Definition derived (w : World) : Prop :=
  ∀ this, ∃ state,
    MutationObserver_getCurrentResult this w = MutationObserverResult.of_state state.

(** The options that [mutate] hands to [build]:
    [{...this.options, variables: ...}] *)
Definition mutate_options (this : ORef) (variables : Value) (w : World) : MutationOptions.t :=
  let thisOptions := default MutationOptions.empty (MutationObserver.options (this_ this w)) in
  {| MutationOptions.shareable := MutationOptions.shareable thisOptions;
     MutationOptions.mutationKey := MutationOptions.mutationKey thisOptions;
     MutationOptions.variables :=
       if is_defined variables then variables else MutationOptions.variables thisOptions;
     MutationOptions.other := MutationOptions.other thisOptions |}.

(** Every Mutation that the hash index names is an allocated object. *)
Definition index_allocated (w : World) : Prop :=
  ∀ hash mutation, MutationCache_get hash w = Some mutation → is_Some (heap w !! mutation).

(** The store after an observer has moved its binding to [target]: it has
    left the observer set of the Mutation it was bound to, holds [target],
    and has joined the observer set of [target]. *)
Definition rebound (this : ORef) (target : option MRef) (w : World) : World :=
  let w1 :=
    match bound this w with
    | Some current =>
        set_heap (alter (Mutation.set_observers (filter (λ x, x ≠ this))) current) w
    | None => w
    end in
  let w2 := set_observers (alter (MutationObserver.set_currentMutation target) this) w1 in
  match target with
  | Some shared =>
      set_heap (alter (Mutation.set_observers
        (λ os, if bool_decide (this ∈ os) then os else os ++ [this])) shared) w2
  | None => w2
  end.

(** The calls that [notify] makes for the call-scoped callbacks. *)
Definition callbacks (mutateOptions : option MutateOptions.t) (options : NotifyOptions.t)
    (result : MutationState.t) : list Event :=
  match mutateOptions with
  | Some mutateOptions =>
      if truthy_bool (NotifyOptions.onSuccess options) then
        option_list ((λ f, OnSuccessCalled f (MutationState.data result)
                             (MutationState.variables result)
                             (MutationState.context result))
                       <$> MutateOptions.onSuccess mutateOptions)
        ++ option_list ((λ f, OnSettledCalled f (MutationState.data result) VNull
                                (MutationState.variables result)
                                (MutationState.context result))
                          <$> MutateOptions.onSettled mutateOptions)
      else if truthy_bool (NotifyOptions.onError options) then
        option_list ((λ f, OnErrorCalled f (MutationState.error result)
                             (MutationState.variables result)
                             (MutationState.context result))
                       <$> MutateOptions.onError mutateOptions)
        ++ option_list ((λ f, OnSettledCalled f VUndefined (MutationState.error result)
                                (MutationState.variables result)
                                (MutationState.context result))
                          <$> MutateOptions.onSettled mutateOptions)
      else []
  | None => []
  end.

(** The state that [updateResult] reads. *)
Definition observed_state (this : ORef) (w : World) : MutationState.t :=
  match bound this w with
  | Some mutation => Mutation_state mutation w
  | None => getDefaultState
  end.

(** The calls that [notify] makes, in their order. *)
Definition notified (this : ORef) (options : NotifyOptions.t) (w : World) : list Event :=
  callbacks (MutationObserver.mutateOptions (this_ this w)) options
    (MutationObserverResult.state (MutationObserver.currentResult (this_ this w)))
  ++ (if truthy_bool (NotifyOptions.listeners options)
      then (λ listener, ListenerCalled listener (MutationObserver.currentResult (this_ this w)))
             <$> MutationObserver.listeners (this_ this w)
      else []).

(** The notification categories that [onMutationUpdate] derives from an
    action. *)
Definition categories (action : Action) : NotifyOptions.t :=
  {| NotifyOptions.listeners := Some true;
     NotifyOptions.onSuccess := match action with ActionSuccess _ => Some true | _ => None end;
     NotifyOptions.onError := match action with ActionError _ => Some true | _ => None end |}.

(** One store comes from another by notifications only: they agree but for
    the derived results, and the journal has grown by calls into user code
    and flushes. *)
Definition notifies (w w' : World) : Prop :=
  skeleton w' = skeleton w
  ∧ ∃ es, journal w' = journal w ++ es ∧ Forall (λ e, is_notification e = true) es.

(** The reference that an observer holds, if it holds one, names an object
    of the store, as every reference of the code does: a reference comes
    from [build] or from the index. *)
Definition allocated_reference (this : ORef) (w : World) : Prop :=
  ∀ mutation, bound this w = Some mutation → is_Some (heap w !! mutation).

(** The entries of the index and the references of the observers name
    objects of the store. *)
Definition allocated (w : World) : Prop :=
  index_allocated w ∧ ∀ this, allocated_reference this w.

(** The functions of the user return, and leave one observer as it is. *)
Definition leaves (user : Event → M unit) (this : ORef) : Prop :=
  ∀ e w, completion (user e) w = Returned tt
         ∧ this_ this (exec (user e) w) = this_ this w.

(** ** A client without defaults, for the examples *)

Module Example.
Definition defaultMutationOptions (options : option MutationOptions.t) : MutationOptions.t :=
  default MutationOptions.empty options.

Definition getMutationDefaults (key : MutationKey) : option MutationOptions.t := None.

(** A hash that depends on the key alone. *)
Definition hashMutationKeyByOptions (key : MutationKey) (options : MutationOptions.t)
    : string :=
  match key with
  | KeyString s => s
  | KeyArray parts => "array"
  end.

(** An operation that echoes its variables, and fails on an error value. *)
Definition operation (mutation : Mutation.t) : Value + Value :=
  match MutationOptions.variables (Mutation.options mutation) with
  | VError message => inr (VError message)
  | v => inl v
  end.

Definition build := MutationCache_build defaultMutationOptions getMutationDefaults
  hashMutationKeyByOptions.

Definition mutate := MutationObserver_mutate defaultMutationOptions getMutationDefaults
  hashMutationKeyByOptions operation.

Definition setOptions := MutationObserver_setOptions defaultMutationOptions
  hashMutationKeyByOptions.

Definition new := MutationObserver_new defaultMutationOptions hashMutationKeyByOptions.

Definition resumePausedMutations := MutationCache_resumePausedMutations operation.

(** Not the code of the cache: a resume that calls [continue()] on every
    Mutation at once and awaits the awaitables afterwards.  It is here to
    be told apart from [resumePausedMutations]. *)
Fixpoint continue_all (mutations : list MRef) : M (list (Promise Value)) :=
  match mutations with
  | [] => mret []
  | mutation :: mutations' =>
      continued ← Mutation_continue operation mutation ;
      others ← continue_all mutations' ;
      mret (continued :: others)
  end.

Definition resume_at_once (mutations : list MRef) : M (Promise unit) :=
  awaitables ← continue_all mutations ;
  mret (foldl (λ promise awaitable,
                 Promise_then promise (λ _, mret (Promise_catch_noop awaitable)))
              Promise_resolve awaitables).

(** [{shareable: true}], without a key. *)
Definition shareable_without_key : MutationOptions.t :=
  {| MutationOptions.shareable := Some true; MutationOptions.mutationKey := None;
     MutationOptions.variables := VUndefined; MutationOptions.other := [] |}.

(** [{shareable: true, mutationKey: 'k'}] *)
Definition shared_k : MutationOptions.t :=
  {| MutationOptions.shareable := Some true;
     MutationOptions.mutationKey := Some (KeyString "k");
     MutationOptions.variables := VUndefined; MutationOptions.other := [] |}.

(** [{shareable: false}] *)
Definition unshared : MutationOptions.t :=
  {| MutationOptions.shareable := Some false; MutationOptions.mutationKey := None;
     MutationOptions.variables := VUndefined; MutationOptions.other := [] |}.

(** [{variables}] *)
Definition plain (variables : Value) : MutationOptions.t :=
  {| MutationOptions.shareable := None; MutationOptions.mutationKey := None;
     MutationOptions.variables := variables; MutationOptions.other := [] |}.

(** [{onSuccess: f1, onError: f2, onSettled: f3}] *)
Definition bundle : MutateOptions.t :=
  {| MutateOptions.onSuccess := Some 1%nat; MutateOptions.onError := Some 2%nat;
     MutateOptions.onSettled := Some 3%nat |}.

(** A cache with one listener and one shared Mutation. *)
Definition one_shared : World :=
  exec (MutationCache_subscribe 9%nat ;; build shared_k None) initial.

(** A cache that holds three Mutations, outside any batch. *)
Definition three_mutations : World :=
  exec (build shared_k None ;; build shareable_without_key None ;; build shared_k None)
    initial.

(** A shareable observer, just constructed. *)
Definition constructed : World := exec (new shared_k) initial.

(** The same observer, with one generic listener, after
    [mutate(5, {onSuccess, onError, onSettled})]: it is bound to the
    Mutation that this call built, which is loading. *)
Definition observed : World :=
  exec (MutationObserver_subscribe 0%nat 7%nat ;; mutate 0%nat (VNum 5) (Some bundle))
    constructed.

(** Two shareable observers of one key, just constructed. *)
Definition two_observers : World := exec (new shared_k ;; new shared_k) initial.

(** [onSuccess: () => observer.mutate()]: the [onSuccess] of [bundle] calls
    [mutate], without arguments, on the observer of [observed]; every other
    function of the user does nothing. *)
Definition onSuccess_mutates (e : Event) : M unit :=
  match e with
  | OnSuccessCalled 1%nat _ _ _ => mutate 0%nat VUndefined None ;; mret tt
  | _ => mret tt
  end.

(** [onSuccess: () => observer.reset()] *)
Definition onSuccess_resets (e : Event) : M unit :=
  match e with
  | OnSuccessCalled 1%nat _ _ _ => MutationObserver_reset 0%nat
  | _ => mret tt
  end.

(** Functions that do nothing. *)
Definition inert (e : Event) : M unit := mret tt.

(** The two observers after the first has triggered and the second has
    followed and then lost its only listener: the second holds its
    reference and is no longer in the observer set. *)
Definition unsubscribed : World :=
  exec (MutationObserver_subscribe 1%nat 7%nat ;;
        mutate 0%nat (VNum 5) None ;;
        MutationObserver_updateSharedMutation hashMutationKeyByOptions 1%nat ;;
        MutationObserver_unsubscribe 1%nat 7%nat)
    two_observers.

(** Two paused Mutations; the operation of the first one fails. *)
Definition two_paused : World :=
  exec (a ← build (plain (VError "boom")) None ;
        b ← build (plain (VNum 1)) None ;
        Mutation_dispatch a ActionPause ;;
        Mutation_dispatch b ActionPause)
    initial.
End Example.

(** * Properties *)

Section Properties.
Variable defaultMutationOptions : option MutationOptions.t → MutationOptions.t.
Variable getMutationDefaults : MutationKey → option MutationOptions.t.
Variable hashMutationKeyByOptions : MutationKey → MutationOptions.t → string.
Variable operation : Mutation.t → Value + Value.
Variable matchMutation : MutationFilters.t → Mutation.t → bool.
Variable user : Event → M unit.

Local Abbreviation build :=
  (MutationCache_build defaultMutationOptions getMutationDefaults hashMutationKeyByOptions).
Local Abbreviation build_hash := (build_mutationHash hashMutationKeyByOptions).
Local Abbreviation mutate :=
  (MutationObserver_mutate defaultMutationOptions getMutationDefaults
     hashMutationKeyByOptions operation).
Local Abbreviation setOptions :=
  (MutationObserver_setOptions defaultMutationOptions hashMutationKeyByOptions).
Local Abbreviation updateSharedMutation :=
  (MutationObserver_updateSharedMutation hashMutationKeyByOptions).
Local Abbreviation find := (MutationCache_find matchMutation).
Local Abbreviation findAll := (MutationCache_findAll matchMutation).
Local Abbreviation new_observer :=
  (MutationObserver_new defaultMutationOptions hashMutationKeyByOptions).

(** ** Running a method *)

Lemma bind_returned {A B} (m : M A) (f : A → M B) w a w' :
  m w = (Returned a, w') → (m ≫= f) w = f a w'.
Proof. intros H. unfold mbind, M_bind. by rewrite H. Qed.

(** One statement of a method has run: [step] when it computes, [step_by]
    when a lemma tells what it leaves. *)
Ltac step := erewrite bind_returned by reflexivity.
Ltac step_by lemma := erewrite bind_returned by apply lemma.

Lemma record_all_app es1 es2 w :
  record_all es2 (record_all es1 w) = record_all (es1 ++ es2) w.
Proof. unfold record_all. simpl. by rewrite app_assoc. Qed.

Lemma record_all_nil w : record_all [] w = w.
Proof. unfold record_all. by rewrite app_nil_r. Qed.

Lemma forEach_record {A} (xs : list A) (e : A → Event) w :
  forEach xs (λ x, modify (record (e x))) w = (Returned tt, record_all (e <$> xs) w).
Proof.
  revert w. induction xs as [|x xs IH]; intros w; simpl.
  - by rewrite record_all_nil.
  - unfold mbind, M_bind, modify. rewrite IH. unfold record.
    by rewrite record_all_app.
Qed.

Lemma batch_run {A} (callback : M A) w :
  batch callback w =
    match callback (set_transactions S w) with
    | (Returned a, w') => (Returned a, flush_outermost (set_transactions pred w'))
    | (Thrown e, w') => (Thrown e, w')
    end.
Proof.
  unfold batch, mbind, M_bind, modify, gets, mret, M_ret, flush_outermost, depth.
  destruct (callback (set_transactions S w)) as [[a|e] w']; [|done].
  simpl. by destruct (Init.Nat.pred _).
Qed.

(** ** The cache *)

Lemma MutationCache_notify_run mutation w :
  MutationCache_notify mutation w =
    (Returned tt,
     flush_outermost (record_all
       ((λ listener, CacheListenerCalled listener mutation)
          <$> MutationCache.listeners (cache w)) w)).
Proof.
  unfold MutationCache_notify. rewrite batch_run.
  unfold mbind, M_bind, gets. rewrite forEach_record. done.
Qed.

Lemma filter_all {A} (P : A → Prop) `{∀ x, Decision (P x)} (l : list A) :
  (∀ x, x ∈ l → P x) → filter P l = l.
Proof.
  induction l as [|x l IH]; intros HP; [done|].
  rewrite filter_cons_True by (apply HP; left).
  f_equal. apply IH. intros y Hy. apply HP. by right.
Qed.

Lemma filter_none {A} (P : A → Prop) `{∀ x, Decision (P x)} (l : list A) :
  (∀ x, x ∈ l → ¬ P x) → filter P l = [].
Proof.
  induction l as [|x l IH]; intros HP; [done|].
  rewrite filter_cons_False by (apply HP; left).
  apply IH. intros y Hy. apply HP. by right.
Qed.

Lemma count_flushes_app es1 es2 :
  count_flushes (es1 ++ es2) = (count_flushes es1 + count_flushes es2)%nat.
Proof. unfold count_flushes. by rewrite filter_app, length_app. Qed.

Lemma count_flushes_cons e es :
  count_flushes (e :: es) = ((if is_flush e then 1 else 0) + count_flushes es)%nat.
Proof.
  unfold count_flushes. rewrite filter_cons.
  destruct (is_flush e); by case_decide.
Qed.

Lemma count_flushes_fmap {A} (f : A → Event) (xs : list A) :
  (∀ x, is_flush (f x) = false) → count_flushes (f <$> xs) = 0%nat.
Proof.
  intros Hf. unfold count_flushes. rewrite filter_none; [done|].
  intros e [x [-> _]]%list_elem_of_fmap. by rewrite Hf.
Qed.

Lemma flushes_record_all es w :
  flushes (record_all es w) = (flushes w + count_flushes es)%nat.
Proof. unfold flushes. simpl. apply count_flushes_app. Qed.

Lemma MutationCache_build_run options state w :
  build options state w =
    (Returned (length (heap w)),
     let new := length (heap w) in
     let hash := truthy_hash_of (build_hash options) in
     record_all
       ([CollectionPushed new]
          ++ ((λ listener, CacheListenerCalled listener (Some new))
                <$> MutationCache.listeners (cache w))
          ++ (if depth w is O then [Flushed] else [])
          ++ match hash with Some h => [IndexAssigned h new] | None => [] end)
       (set_cache (λ c,
          {| MutationCache.mutations := MutationCache.mutations c ++ [new];
             MutationCache.mutationsMap :=
               match hash with
               | Some h => <[h := new]> (MutationCache.mutationsMap c)
               | None => MutationCache.mutationsMap c
               end;
             MutationCache.mutationId := MutationCache.mutationId c + 1;
             MutationCache.listeners := MutationCache.listeners c |})
          (set_heap (λ h, h ++ [
             {| Mutation.mutationId := MutationCache.mutationId (cache w) + 1;
                Mutation.mutationHash := build_hash options;
                Mutation.options := defaultMutationOptions (Some options);
                Mutation.defaultOptions :=
                  truthy_key_of (MutationOptions.mutationKey options)
                    ≫= getMutationDefaults;
                Mutation.state := default getDefaultState state;
                Mutation.observers := [] |} ]) w))).
Proof.
  unfold MutationCache_build, MutationCache_nextId, Mutation_new, MutationCache_add,
    MutationCache_index, mbind, M_bind, modify, gets, mret, M_ret.
  rewrite MutationCache_notify_run.
  unfold flush_outermost, depth, record, record_all, set_cache, set_heap. simpl.
  destruct (truthy_hash_of (build_hash options)) as [hash|];
    destruct (NotifyManager.transactions (notifyManager w));
    simpl; rewrite <- ?app_assoc; simpl; rewrite ?app_nil_r; reflexivity.
Qed.

Lemma MutationCache_remove_run mutation w :
  MutationCache_remove mutation w =
    (Returned tt,
     let kept := filter (λ x, x ≠ mutation) (MutationCache.mutations (cache w)) in
     let hash := truthy_hash_of (Mutation_mutationHash mutation w) in
     record_all
       ([CollectionAssigned kept]
          ++ match hash with Some h => [IndexDeleted h] | None => [] end
          ++ [CancelCalled mutation]
          ++ ((λ listener, CacheListenerCalled listener (Some mutation))
                <$> MutationCache.listeners (cache w))
          ++ (if depth w is O then [Flushed] else []))
       (set_cache (λ c,
          {| MutationCache.mutations := kept;
             MutationCache.mutationsMap :=
               match hash with
               | Some h => delete h (MutationCache.mutationsMap c)
               | None => MutationCache.mutationsMap c
               end;
             MutationCache.mutationId := MutationCache.mutationId c;
             MutationCache.listeners := MutationCache.listeners c |})
          (set_heap (alter (Mutation.set_state (MutationState.set_isPaused false)) mutation)
             w))).
Proof.
  unfold MutationCache_remove, Mutation_cancel, MutationCache_unindex,
    mbind, M_bind, modify, gets, mret, M_ret.
  change (Mutation_mutationHash mutation (record _ (set_cache _ w)))
    with (Mutation_mutationHash mutation w).
  destruct (truthy_hash_of (Mutation_mutationHash mutation w)) as [hash|];
    rewrite MutationCache_notify_run;
    unfold flush_outermost, depth, record, record_all, set_cache, set_heap; simpl;
    destruct (NotifyManager.transactions (notifyManager w));
    simpl; rewrite <- ?app_assoc; simpl; rewrite ?app_nil_r; reflexivity.
Qed.

(** [remove] as the loop of [clear] sees it: inside a batch nothing is
    flushed, and the collection loses the Mutation. *)
Lemma forEach_remove ms w :
  depth w ≠ 0%nat →
  ∃ w', forEach ms (λ mutation, MutationCache_remove mutation) w = (Returned tt, w')
    ∧ MutationCache.mutations (cache w')
        = filter (λ x, x ∉ ms) (MutationCache.mutations (cache w))
    ∧ depth w' = depth w
    ∧ flushes w' = flushes w.
Proof.
  revert w. induction ms as [|m ms IH]; intros w Hd.
  - exists w. split_and!; try done.
    symmetry. apply filter_all. intros x _. apply not_elem_of_nil.
  - simpl. unfold mbind, M_bind. rewrite MutationCache_remove_run.
    match goal with |- context [forEach ms _ ?w1] =>
      assert (depth w1 ≠ 0%nat) as Hd1 by done;
      destruct (IH w1 Hd1) as (w' & Hrun & Hms & Hdepth & Hfl) end.
    exists w'. rewrite Hrun. split_and!; try done.
    + rewrite Hms. simpl. rewrite list_filter_filter.
      apply list_filter_iff. intros x. rewrite not_elem_of_cons. tauto.
    + rewrite Hfl. cbv zeta. rewrite flushes_record_all.
      unfold depth in *.
      destruct (NotifyManager.transactions (notifyManager w)); [done|].
      rewrite !count_flushes_app, count_flushes_fmap by done.
      destruct (truthy_hash_of _); rewrite !count_flushes_cons; simpl;
        unfold flushes, count_flushes; simpl; lia.
Qed.

(** C9.  [clear()] empties the collection, and the whole of it is one batch:
    called outside any batch it flushes the scheduler once, whatever the
    number of Mutations; called inside a batch it flushes nothing. *)
Theorem clear_flushes_once w :
  completion MutationCache_clear w = Returned tt
  ∧ MutationCache_getAll (exec MutationCache_clear w) = []
  ∧ flushes (exec MutationCache_clear w)
      = (flushes w + if depth w is O then 1 else 0)%nat.
Proof.
  unfold completion, exec, MutationCache_clear. rewrite batch_run.
  unfold mbind, M_bind, gets.
  assert (depth (set_transactions S w) ≠ 0%nat) as Hd by (unfold depth; simpl; lia).
  destruct (forEach_remove (MutationCache.mutations (cache (set_transactions S w)))
              (set_transactions S w) Hd) as (w' & Hrun & Hms & Hdepth & Hfl).
  rewrite Hrun.
  simpl. split_and!; [done| |].
  - unfold MutationCache_getAll, flush_outermost.
    assert (MutationCache.mutations (cache w') = []) as Hnil.
    { rewrite Hms. apply filter_none. intros x Hx. simpl in Hx. tauto. }
    clear Hd. destruct (depth (set_transactions pred w')); exact Hnil.
  - unfold flush_outermost.
    change (depth (set_transactions pred w')) with (pred (depth w')).
    rewrite Hdepth.
    change (Init.Nat.pred (depth (set_transactions S w))) with (depth w).
    destruct (depth w).
    + unfold record. rewrite flushes_record_all.
      unfold flushes in *. simpl in *. rewrite Hfl. done.
    + unfold flushes in *. simpl in *. rewrite Hfl. lia.
Qed.

(** C1 (as it holds).  [build] has no failing path: with [shareable] true
    and no key it returns a new Mutation that has the next id and no hash,
    appends it to the collection and leaves the hash index as it is. *)
Theorem build_shareable_without_key options state w :
  MutationOptions.shareable options = Some true →
  MutationOptions.mutationKey options = None →
  let new := length (heap w) in
  let w' := exec (build options state) w in
  completion (build options state) w = Returned new
  ∧ MutationCache_getAll w' = MutationCache_getAll w ++ [new]
  ∧ Mutation.mutationId <$> heap w' !! new = Some (MutationCache.mutationId (cache w) + 1)
  ∧ Mutation_mutationHash new w' = None
  ∧ MutationCache.mutationsMap (cache w') = MutationCache.mutationsMap (cache w).
Proof.
  intros Hs Hk new w'. subst new w'.
  assert (build_hash options = None) as Hnone.
  { unfold build_mutationHash. by rewrite Hs, Hk. }
  unfold completion, exec. rewrite MutationCache_build_run.
  unfold Mutation_mutationHash, MutationCache_getAll. rewrite Hnone. simpl.
  by rewrite !list_lookup_middle.
Qed.

(** C4 (as it holds).  [remove] first detaches the Mutation from the
    collection and, when its hash is truthy, from the hash index; then it
    calls [cancel()] on it; then it notifies the listeners of the cache. *)
Theorem remove_detaches_then_cancels mutation w :
  let w' := exec (MutationCache_remove mutation) w in
  let kept := filter (λ x, x ≠ mutation) (MutationCache_getAll w) in
  let hash := truthy_hash_of (Mutation_mutationHash mutation w) in
  completion (MutationCache_remove mutation) w = Returned tt
  ∧ journal w' =
      journal w ++ [CollectionAssigned kept]
        ++ match hash with Some h => [IndexDeleted h] | None => [] end
        ++ [CancelCalled mutation]
        ++ ((λ listener, CacheListenerCalled listener (Some mutation))
              <$> MutationCache.listeners (cache w))
        ++ (if depth w is O then [Flushed] else [])
  ∧ MutationCache_getAll w' = kept
  ∧ MutationCache.mutationsMap (cache w') =
      match hash with
      | Some h => delete h (MutationCache.mutationsMap (cache w))
      | None => MutationCache.mutationsMap (cache w)
      end.
Proof.
  unfold completion, exec. rewrite MutationCache_remove_run. done.
Qed.

(** C10.  [remove] deletes the index entry of the removed Mutation's hash
    whichever Mutation the entry names: after two shareable builds with
    one hash and the removal of the first, the index has no entry for the
    hash, and the second Mutation is still in the collection. *)
Theorem remove_unindexes_the_hash options1 state1 options2 state2 hash w :
  build_hash options1 = Some hash →
  build_hash options2 = Some hash →
  truthy_string hash = true →
  let m1 := length (heap w) in
  let w1 := exec (build options1 state1) w in
  let m2 := length (heap w1) in
  let w2 := exec (build options2 state2) w1 in
  let w3 := exec (MutationCache_remove m1) w2 in
  completion (build options1 state1) w = Returned m1
  ∧ completion (build options2 state2) w1 = Returned m2
  ∧ m1 ≠ m2
  ∧ MutationCache_get hash w2 = Some m2
  ∧ MutationCache_get hash w3 = None
  ∧ m2 ∈ MutationCache_getAll w3.
Proof.
  intros H1 H2 Hh m1 w1 m2 w2 w3. subst m1 w1 m2 w2 w3.
  unfold completion, exec. rewrite !MutationCache_build_run. cbv zeta.
  rewrite MutationCache_remove_run. cbv zeta.
  rewrite H1, H2. unfold truthy_hash_of. rewrite Hh.
  unfold MutationCache_get, MutationCache_getAll, Mutation_mutationHash.
  simpl. rewrite length_app. simpl.
  split_and!; [done|done|lia| | |].
  - by rewrite lookup_insert_eq.
  - rewrite lookup_app_l by (rewrite length_app; simpl; lia).
    rewrite list_lookup_middle by done. simpl.
    rewrite ?H1, ?Hh. simpl. by rewrite lookup_delete_eq.
  - rewrite !filter_app. apply elem_of_app. right.
    rewrite filter_cons_True by lia. left.
Qed.
(** ** The notifications of an observer *)

Lemma MutationObserver_updateResult_run this w :
  MutationObserver_updateResult this w =
    (Returned tt,
     set_observers (alter (MutationObserver.set_currentResult
       (MutationObserverResult.of_state (observed_state this w))) this) w).
Proof. reflexivity. Qed.

Lemma call_optional_run callback call w :
  call_optional callback call w = (Returned tt, record_all (option_list (call <$> callback)) w).
Proof. destruct callback; simpl; [done|]. by rewrite record_all_nil. Qed.

Lemma MutationObserver_notify_run this options w :
  MutationObserver_notify this options w =
    (Returned tt, flush_outermost (record_all (notified this options w) w)).
Proof.
  unfold MutationObserver_notify. rewrite batch_run.
  unfold notified, callbacks, mbind, M_bind, gets.
  change (this_ this (set_transactions S w)) with (this_ this w).
  destruct (MutationObserver.mutateOptions (this_ this w)) as [mo|];
    destruct (truthy_bool (NotifyOptions.onSuccess options));
    destruct (truthy_bool (NotifyOptions.onError options));
    rewrite ?call_optional_run; simpl; rewrite ?call_optional_run; simpl;
    destruct (truthy_bool (NotifyOptions.listeners options));
    simpl; rewrite ?forEach_record; unfold mret, M_ret; simpl;
    rewrite ?record_all_app, ?app_nil_r, <- ?app_assoc, ?record_all_nil; reflexivity.
Qed.

Lemma MutationObserver_onMutationUpdate_run this action w :
  MutationObserver_onMutationUpdate this action w =
    (Returned tt,
     let w1 := set_observers (alter (MutationObserver.set_currentResult
       (MutationObserverResult.of_state (observed_state this w))) this) w in
     flush_outermost (record_all (notified this (categories action) w1) w1)).
Proof.
  unfold MutationObserver_onMutationUpdate, mbind, M_bind.
  rewrite MutationObserver_updateResult_run.
  fold (categories action). by rewrite MutationObserver_notify_run.
Qed.

(** ** What notifications leave alone *)

Lemma skeleton_record_all es w : skeleton (record_all es w) = skeleton w.
Proof. done. Qed.

Lemma skeleton_flush_outermost w : skeleton (flush_outermost w) = skeleton w.
Proof. unfold flush_outermost. by destruct (depth w). Qed.

Lemma skeleton_set_currentResult result this w :
  skeleton (set_observers (alter (MutationObserver.set_currentResult result) this) w)
    = skeleton w.
Proof.
  unfold skeleton. simpl. f_equal.
  apply list_eq. intros i. rewrite !list_lookup_fmap, list_lookup_alter.
  case_decide; [|done]. subst. by destruct (observers w !! i).
Qed.

Lemma notifies_refl w : notifies w w.
Proof. split; [done|]. exists []. by rewrite app_nil_r. Qed.

Lemma notifies_trans w1 w2 w3 : notifies w1 w2 → notifies w2 w3 → notifies w1 w3.
Proof.
  intros [Hs1 (es1 & Hj1 & Hn1)] [Hs2 (es2 & Hj2 & Hn2)]. split; [congruence|].
  exists (es1 ++ es2). rewrite Hj2, Hj1, app_assoc. split; [done|].
  by apply Forall_app.
Qed.

Lemma notified_are_notifications this options w :
  Forall (λ e, is_notification e = true) (notified this options w).
Proof.
  unfold notified, callbacks. apply Forall_app. split.
  - destruct (MutationObserver.mutateOptions _) as [mo|]; [|done].
    destruct (truthy_bool _); [|destruct (truthy_bool _); [|done]];
      apply Forall_app; split;
      match goal with |- context [option_list (_ <$> ?o)] => by destruct o; repeat constructor end.
  - destruct (truthy_bool _); [|done].
    apply Forall_fmap, Forall_forall. done.
Qed.

Lemma MutationObserver_onMutationUpdate_notifies this action w :
  notifies w (exec (MutationObserver_onMutationUpdate this action) w).
Proof.
  unfold exec. rewrite MutationObserver_onMutationUpdate_run. cbv zeta. cbn [snd].
  split.
  - by rewrite skeleton_flush_outermost, skeleton_record_all, skeleton_set_currentResult.
  - unfold flush_outermost. destruct (depth _); simpl.
    + eexists. rewrite <- app_assoc. split; [done|].
      apply Forall_app. split; [apply notified_are_notifications|by repeat constructor].
    + eexists. split; [done|]. apply notified_are_notifications.
Qed.

Lemma forEach_onMutationUpdate_notifies observers action w :
  ∃ w', forEach observers (λ observer, MutationObserver_onMutationUpdate observer action) w
          = (Returned tt, w')
        ∧ notifies w w'.
Proof.
  revert w. induction observers as [|o os IH]; intros w.
  - exists w. split; [done|apply notifies_refl].
  - simpl. unfold mbind, M_bind.
    pose proof (MutationObserver_onMutationUpdate_notifies o action w) as Hn.
    unfold exec in Hn. rewrite MutationObserver_onMutationUpdate_run in *. cbn [snd] in Hn.
    match goal with |- context [forEach os _ ?w1] =>
      destruct (IH w1) as (w' & Hrun & Hn') end.
    exists w'. split; [done|]. eapply notifies_trans; [exact Hn|exact Hn'].
Qed.

Lemma Mutation_dispatch_run mutation action w :
  ∃ w', Mutation_dispatch mutation action w = (Returned tt, w')
    ∧ notifies
        (set_heap (alter (Mutation.set_state (λ s, reducer s action)) mutation) w) w'.
Proof.
  unfold Mutation_dispatch, mbind, M_bind, modify, gets.
  apply forEach_onMutationUpdate_notifies.
Qed.

Lemma added_app {A} (m : M A) w es :
  journal (exec m w) = journal w ++ es → added m w = es.
Proof. intros H. unfold added. rewrite H. apply drop_app_length. Qed.

Lemma this_set_currentResult result this w :
  MutationObserver.mutateOptions (this_ this w) ≠ None →
  this_ this (set_observers (alter (MutationObserver.set_currentResult result) this) w)
    = MutationObserver.set_currentResult result (this_ this w).
Proof.
  intros Hthis. unfold this_ in *.
  change (observers (set_observers ?f w)) with (f (observers w)).
  rewrite list_lookup_alter_eq.
  destruct (observers w !! this); [reflexivity|]. by destruct Hthis.
Qed.

(** ** The chain of [resumePausedMutations] *)

Lemma notifies_journal f w w' :
  notifies (set_heap f w) w' →
  ∃ es, journal w' = journal w ++ es ∧ Forall (λ e, is_notification e = true) es.
Proof. by intros [_ H]. Qed.

Lemma Mutation_settle_run mutation w :
  ∃ c w' f, Mutation_settle operation mutation w = (c, w')
    ∧ notifies (set_heap f w) w'.
Proof.
  unfold Mutation_settle, mbind, M_bind, gets.
  destruct (operation <$> heap w !! mutation) as [[data|error]|].
  - destruct (Mutation_dispatch_run mutation (ActionSuccess data) w) as (w' & -> & Hn).
    by eexists _, w', _.
  - destruct (Mutation_dispatch_run mutation (ActionError error) w) as (w' & -> & Hn).
    by eexists _, w', _.
  - eexists _, w, id. split; [done|]. apply notifies_refl.
Qed.

Lemma continues_notifications es :
  Forall (λ e, is_notification e = true) es → continues es = [].
Proof.
  intros H. apply filter_none. intros e He.
  rewrite Forall_forall in H. specialize (H e He). by destruct e.
Qed.

Lemma Mutation_continue_run mutation w :
  ∃ continued w1 es1,
    Mutation_continue operation mutation w = (Returned continued, w1)
    ∧ journal w1 = journal w ++ ContinueCalled mutation :: es1
    ∧ Forall (λ e, is_notification e = true) es1
    ∧ ∀ w2, ∃ c w3 es2 fulfilled,
        continued w2 = (c, w3)
        ∧ journal w3 = journal w2 ++ es2 ++ [ContinueSettled mutation fulfilled]
        ∧ Forall (λ e, is_notification e = true) es2.
Proof.
  unfold Mutation_continue.
  step.
  destruct (Mutation_dispatch_run mutation ActionContinue (record (ContinueCalled mutation) w))
    as (w1 & Hrun1 & Hn1).
  erewrite bind_returned by exact Hrun1.
  apply notifies_journal in Hn1 as (es1 & Hj1 & Hes1).
  eexists _, w1, es1. split_and!; [done| |done|].
  - rewrite Hj1. simpl. by rewrite <- app_assoc.
  - intros w2.
    destruct (Mutation_settle_run mutation w2) as (c & w3 & f & -> & Hn2).
    apply notifies_journal in Hn2 as (es2 & Hj2 & Hes2).
    destruct c as [data|error].
    + eexists _, _, es2, true. split_and!; [done| |done].
      simpl. by rewrite Hj2, <- app_assoc.
    + eexists _, _, es2, false. split_and!; [done| |done].
      simpl. by rewrite Hj2, <- app_assoc.
Qed.

Lemma resumed_snoc mutations es mutation fulfilled :
  resumed mutations es →
  resumed (mutations ++ [mutation])
    (es ++ [ContinueCalled mutation; ContinueSettled mutation fulfilled]).
Proof.
  induction 1; simpl; repeat constructor. done.
Qed.

Lemma chain_run mutations : ∀ promise before,
  (∀ w, ∃ w' es, promise w = (Returned tt, w')
      ∧ journal w' = journal w ++ es ∧ resumed before (continues es)) →
  ∀ w, ∃ w' es,
    foldl (λ (promise : Promise unit) mutation,
             Promise_then promise (λ _,
               continued ← Mutation_continue operation mutation ;
               mret (Promise_catch_noop continued)))
          promise mutations w = (Returned tt, w')
    ∧ journal w' = journal w ++ es
    ∧ resumed (before ++ mutations) (continues es).
Proof.
  induction mutations as [|mutation mutations IH]; intros promise before Hp w.
  - simpl. by rewrite app_nil_r.
  - simpl. replace (before ++ mutation :: mutations)
      with ((before ++ [mutation]) ++ mutations) by by rewrite <- app_assoc.
    apply IH. clear w. intros w.
    destruct (Hp w) as (w1 & es1 & Hrun1 & Hj1 & Hr1).
    destruct (Mutation_continue_run mutation w1)
      as (continued & w2 & es2 & Hrun2 & Hj2 & Hes2 & Hsettles).
    destruct (Hsettles w2) as (c & w3 & es3 & fulfilled & Hrun3 & Hj3 & Hes3).
    exists w3, (es1 ++ (ContinueCalled mutation :: es2)
                    ++ es3 ++ [ContinueSettled mutation fulfilled]).
    split_and!.
    + unfold Promise_then.
      erewrite bind_returned by exact Hrun1.
      erewrite bind_returned
        by (erewrite bind_returned by exact Hrun2; reflexivity).
      unfold Promise_catch_noop. rewrite Hrun3. by destruct c.
    + by rewrite Hj3, Hj2, Hj1, <- !app_assoc.
    + unfold continues in *. rewrite !filter_app. rewrite filter_cons_True by done.
      fold (continues es2) (continues es3).
      rewrite (continues_notifications es2), (continues_notifications es3) by done.
      simpl. by apply resumed_snoc.
Qed.

(** C8.  [resumePausedMutations] takes the Mutations that are paused when
    it is called, in the order of the collection.  The promise that it
    returns continues each of them and lets its awaitable settle before
    it continues the next, whether that awaitable fulfils or rejects, and
    is itself always fulfilled.  [onFocus] and [onOnline] are
    [resumePausedMutations]. *)
Theorem resumePausedMutations_sequential w :
  let paused :=
    filter (λ x, MutationState.isPaused (Mutation_state x w) = true)
      (MutationCache_getAll w) in
  ∃ chain,
    MutationCache_resumePausedMutations operation w = (Returned chain, flush_outermost w)
    ∧ (∀ w', completion chain w' = Returned tt
           ∧ journal (exec chain w') = journal w' ++ added chain w'
           ∧ resumed paused (continues (added chain w')))
    ∧ MutationCache_onFocus operation w = MutationCache_resumePausedMutations operation w
    ∧ MutationCache_onOnline operation w = MutationCache_resumePausedMutations operation w.
Proof.
  intros paused.
  exists (foldl (λ (promise : Promise unit) mutation,
            Promise_then promise (λ _,
              continued ← Mutation_continue operation mutation ;
              mret (Promise_catch_noop continued)))
          Promise_resolve paused).
  split_and!; [| |done|done].
  - unfold MutationCache_resumePausedMutations.
    step.
    by rewrite batch_run.
  - intros w'.
    destruct (chain_run paused Promise_resolve [] ) with (w := w')
      as (w2 & es & Hrun & Hj & Hr).
    { intros w0. exists w0, []. split_and!; [done|by rewrite app_nil_r|constructor]. }
    unfold completion, exec. rewrite Hrun. cbn [fst snd].
    assert (added (foldl (λ (promise : Promise unit) mutation,
             Promise_then promise (λ _,
               continued ← Mutation_continue operation mutation ;
               mret (Promise_catch_noop continued)))
          Promise_resolve paused) w' = es) as Hadded.
    { apply added_app. unfold exec. by rewrite Hrun. }
    rewrite Hadded. done.
Qed.
(** ** Reading a store that notifications have touched *)

Lemma notifies_heap w w' : notifies w w' → heap w' = heap w.
Proof. intros [Hs _]. exact (f_equal heap Hs). Qed.

Lemma notifies_cache w w' : notifies w w' → cache w' = cache w.
Proof. intros [Hs _]. exact (f_equal cache Hs). Qed.

Lemma notifies_observers w w' this :
  notifies w w' →
  ∃ result, this_ this w' = MutationObserver.set_currentResult result (this_ this w).
Proof.
  intros [Hs _]. pose proof (f_equal (λ x, observers x !! this) Hs) as H.
  simpl in H. rewrite !list_lookup_fmap in H. unfold this_.
  destruct (observers w' !! this) as [o'|], (observers w !! this) as [o|];
    simplify_eq/=.
  - exists (MutationObserver.currentResult o').
    destruct o, o'. unfold MutationObserver.set_currentResult in *. simpl in *.
    by simplify_eq.
  - by exists (MutationObserver.currentResult MutationObserver.blank).
Qed.

Lemma notifies_bound w w' this : notifies w w' → bound this w' = bound this w.
Proof.
  intros H. destruct (notifies_observers _ _ this H) as [r Hr].
  unfold bound. by rewrite Hr.
Qed.

Lemma notifies_length w w' : notifies w w' → length (observers w') = length (observers w).
Proof.
  intros [Hs _]. pose proof (f_equal (λ x, length (observers x)) Hs) as H.
  simpl in H. by rewrite !length_fmap in H.
Qed.

(** ** Reading through updates *)

Lemma this_alter f this other w :
  this_ other (set_observers (alter f this) w) =
    if decide (this = other)
    then default MutationObserver.blank (f <$> observers w !! other)
    else this_ other w.
Proof.
  unfold this_.
  change (observers (set_observers ?g w)) with (g (observers w)).
  rewrite list_lookup_alter. by case_decide; subst.
Qed.

Lemma Mutation_observers_alter f changed mutation w :
  Mutation_observers mutation (set_heap (alter (Mutation.set_observers f) changed) w) =
    if decide (changed = mutation)
    then default [] ((f ∘ Mutation.observers) <$> heap w !! mutation)
    else Mutation_observers mutation w.
Proof.
  unfold Mutation_observers.
  change (heap (set_heap ?g w)) with (g (heap w)).
  rewrite list_lookup_alter. case_decide; subst; [|done].
  by destruct (heap w !! mutation).
Qed.

Lemma remove_current_run current this w :
  match current with
  | Some current => Mutation_removeObserver current this
  | None => mret tt
  end w =
  (Returned tt,
   match current with
   | Some current =>
       set_heap (alter (Mutation.set_observers (filter (λ x, x ≠ this))) current) w
   | None => w
   end).
Proof. by destruct current. Qed.

Lemma MutationObserver_mutate_effect this variables options w :
  (this < length (observers w))%nat →
  let new := length (heap w) in
  let built := mutate_options this variables w in
  ∃ w',
    mutate this variables options w = (Returned (Mutation_settle operation new), w')
    ∧ bound this w' = Some new
    ∧ (∀ other, other ≠ this → bound other w' = bound other w)
    ∧ MutationObserver.options (this_ this w') = MutationObserver.options (this_ this w)
    ∧ length (observers w') = length (observers w)
    ∧ length (heap w') = S (length (heap w))
    ∧ mutationId_of new w' = Some (MutationCache.mutationId (cache w) + 1)
    ∧ (∀ mutation, (mutation < new)%nat →
         mutationId_of mutation w' = mutationId_of mutation w)
    ∧ MutationCache.mutationId (cache w') = MutationCache.mutationId (cache w) + 1
    ∧ MutationCache_getAll w' = MutationCache_getAll w ++ [new]
    ∧ MutationCache.mutationsMap (cache w') =
        match truthy_hash_of (build_hash built) with
        | Some hash => <[hash := new]> (MutationCache.mutationsMap (cache w))
        | None => MutationCache.mutationsMap (cache w)
        end
    ∧ Mutation_observers new w' = [this]
    ∧ (∀ mutation, (mutation < new)%nat →
         Mutation_observers mutation w' =
           if decide (bound this w = Some mutation)
           then filter (λ x, x ≠ this) (Mutation_observers mutation w)
           else Mutation_observers mutation w).
Proof.
  intros Hthis new built.
  destruct (lookup_lt_is_Some_2 _ _ Hthis) as [me Hme].
  unfold MutationObserver_mutate.
  step.
  step.
  set (w0 := set_observers (alter (MutationObserver.set_mutateOptions options) this) w).
  assert (this_ this w0 = MutationObserver.set_mutateOptions options (this_ this w)) as Hme0.
  { subst w0. rewrite this_alter, decide_True by done. unfold this_. by rewrite Hme. }
  rewrite Hme0.
  change (MutationObserver.currentMutation (MutationObserver.set_mutateOptions options
            (this_ this w))) with (bound this w).
  step_by remove_current_run.
  set (w1 := match bound this w with Some _ => _ | None => _ end).
  assert (this_ this w1 = MutationObserver.set_mutateOptions options (this_ this w)) as Hme1.
  { subst w1. by destruct (bound this w). }
  assert (length (heap w1) = new) as Hlen1.
  { subst w1 new. destruct (bound this w); [|done].
    change (heap (set_heap ?g ?x)) with (g (heap x)). by rewrite length_alter. }
  assert (cache w1 = cache w) as Hcache1 by (subst w1; by destruct (bound this w)).
  assert (depth w1 = depth w) as Hdepth1 by (subst w1; by destruct (bound this w)).
  assert (observers w1 = observers w0) as Hobs1 by (subst w1; by destruct (bound this w)).
  step.
  rewrite Hme1.
  change (default MutationOptions.empty
            (MutationObserver.options
               (MutationObserver.set_mutateOptions options (this_ this w))))
    with (default MutationOptions.empty (MutationObserver.options (this_ this w))).
  fold (mutate_options this variables w). fold built.
  step_by MutationCache_build_run.
  cbv zeta. rewrite Hlen1, Hcache1, Hdepth1.
  step.
  step.
  unfold Mutation_execute.
  step.
  match goal with |- context [mbind _ (Mutation_dispatch ?m ?a) ?W] =>
    destruct (Mutation_dispatch_run m a W) as (w' & Hrun & Hn) end.
  erewrite bind_returned by exact Hrun.
  exists w'.
  match type of Hn with notifies ?W _ => set (W0 := W) in * end.
  assert (observers W0 =
            alter (MutationObserver.set_currentMutation (Some new)) this
              (alter (MutationObserver.set_mutateOptions options) this (observers w)))
    as Hobs by (subst W0; simpl; by rewrite Hobs1).
  assert (∃ object add start,
            heap W0 = alter (Mutation.set_state start) new
                        (alter (Mutation.set_observers add) new (heap w1 ++ [object]))
            ∧ Mutation.mutationId object = MutationCache.mutationId (cache w) + 1
            ∧ add (Mutation.observers object) = [this])
    as (object & add & start & Hheap & Hid & Hadd).
  { eexists _, _, _. split_and!; reflexivity. }
  assert (∀ mutation, heap w1 !! mutation =
            if decide (bound this w = Some mutation)
            then Mutation.set_observers (filter (λ x, x ≠ this)) <$> heap w !! mutation
            else heap w !! mutation) as Hheap1.
  { intros mutation. subst w1. destruct (bound this w) as [current|].
    - change (heap (set_heap ?g ?x)) with (g (heap x)).
      rewrite list_lookup_alter. repeat case_decide; by simplify_eq.
    - by rewrite decide_False. }
  assert (cache W0 =
            {| MutationCache.mutations := MutationCache.mutations (cache w) ++ [new];
               MutationCache.mutationsMap :=
                 match truthy_hash_of (build_hash built) with
                 | Some hash => <[hash := new]> (MutationCache.mutationsMap (cache w))
                 | None => MutationCache.mutationsMap (cache w)
                 end;
               MutationCache.mutationId := MutationCache.mutationId (cache w) + 1;
               MutationCache.listeners := MutationCache.listeners (cache w) |}) as Hcache.
  { subst W0. simpl. by rewrite Hcache1. }
  clearbody W0 w1.
  assert (∀ other, this_ other w' =
            MutationObserver.set_currentResult (MutationObserver.currentResult (this_ other w'))
              (this_ other W0)) as Hthis'.
  { intros other. destruct (notifies_observers _ _ other Hn) as [r ->]. done. }
  assert (∀ mutation, (mutation < new)%nat →
            heap w' !! mutation = heap w1 !! mutation) as Hold.
  { intros mutation Hlt. rewrite (notifies_heap _ _ Hn), Hheap.
    rewrite !list_lookup_alter_ne by lia. apply lookup_app_l. lia. }
  assert (heap w' !! new
            = Some (Mutation.set_state start (Mutation.set_observers add object))) as Hnew.
  { rewrite (notifies_heap _ _ Hn), Hheap, !list_lookup_alter_eq.
    by rewrite list_lookup_middle. }
  split_and!.
  - done.
  - unfold bound. rewrite Hthis'. unfold this_. rewrite Hobs.
    rewrite !list_lookup_alter_eq, Hme. done.
  - intros other Hne. unfold bound. rewrite Hthis'. unfold this_. rewrite Hobs.
    by rewrite !list_lookup_alter_ne.
  - rewrite Hthis'. unfold this_. rewrite Hobs.
    rewrite !list_lookup_alter_eq, Hme. done.
  - by rewrite (notifies_length _ _ Hn), Hobs, !length_alter.
  - rewrite (notifies_heap _ _ Hn), Hheap, !length_alter, length_app. simpl. lia.
  - unfold mutationId_of. rewrite Hnew. simpl. by rewrite Hid.
  - intros mutation Hlt. unfold mutationId_of. rewrite Hold, Hheap1 by done.
    case_decide; [|done]. by destruct (heap w !! mutation).
  - by rewrite (notifies_cache _ _ Hn), Hcache.
  - unfold MutationCache_getAll. by rewrite (notifies_cache _ _ Hn), Hcache.
  - by rewrite (notifies_cache _ _ Hn), Hcache.
  - unfold Mutation_observers. rewrite Hnew. simpl. done.
  - intros mutation Hlt. unfold Mutation_observers. rewrite Hold, Hheap1 by done.
    case_decide; [|done]. by destruct (heap w !! mutation).
Qed.

Lemma Mutation_settle_cache mutation w :
  cache (exec (Mutation_settle operation mutation) w) = cache w.
Proof.
  destruct (Mutation_settle_run mutation w) as (c & w' & f & Hrun & Hn).
  unfold exec. rewrite Hrun. cbn [snd]. by rewrite (notifies_cache _ _ Hn).
Qed.

(** C2.  Every [mutate] detaches the observer from the Mutation it is bound
    to and has the cache build a new Mutation, whatever the hash index
    holds: the Mutation is a new object, its id is above every id issued
    before, the observer is bound to it and registered with it.  Two
    calls in a row yield two Mutations with distinct ids, and after them,
    also once both have settled, [get] of the hash of the second build
    returns the second Mutation. *)
Theorem mutate_builds_a_new_Mutation this variables1 options1 variables2 options2 w :
  (this < length (observers w))%nat →
  ids_issued w →
  ∃ promise1 w1 promise2 w2 m1 m2 id1 id2,
    mutate this variables1 options1 w = (Returned promise1, w1)
    ∧ mutate this variables2 options2 w1 = (Returned promise2, w2)
    ∧ heap w !! m1 = None ∧ heap w1 !! m2 = None
    ∧ bound this w1 = Some m1 ∧ bound this w2 = Some m2
    ∧ m1 ≠ m2
    ∧ mutationId_of m1 w2 = Some id1 ∧ mutationId_of m2 w2 = Some id2
    ∧ id1 < id2
    ∧ (∀ mutation id, mutationId_of mutation w = Some id → id < id1)
    ∧ (∀ current, bound this w = Some current → is_Some (heap w !! current) →
         this ∉ Mutation_observers current w1)
    ∧ this ∈ Mutation_observers m1 w1
    ∧ (this ∉ Mutation_observers m1 w2)
    ∧ this ∈ Mutation_observers m2 w2
    ∧ MutationCache_getAll w2 = MutationCache_getAll w ++ [m1; m2]
    ∧ (∀ hash,
         build_hash (mutate_options this variables2 w) = Some hash →
         truthy_string hash = true →
         MutationCache_get hash w2 = Some m2
         ∧ MutationCache_get hash (exec promise2 (exec promise1 w2)) = Some m2).
Proof.
  intros Hthis Hids.
  destruct (MutationObserver_mutate_effect this variables1 options1 w Hthis)
    as (w1 & Hrun1 & Hb1 & Hother1 & Hopt1 & Hlen1 & Hheap1 & Hid1 & Hold1 & Hcid1
        & Hall1 & Hmap1 & Hobs1 & Hrest1).
  assert (this < length (observers w1))%nat as Hthis1 by lia.
  destruct (MutationObserver_mutate_effect this variables2 options2 w1 Hthis1)
    as (w2 & Hrun2 & Hb2 & Hother2 & Hopt2 & Hlen2 & Hheap2 & Hid2 & Hold2 & Hcid2
        & Hall2 & Hmap2 & Hobs2 & Hrest2).
  eexists _, w1, _, w2, (length (heap w)), (length (heap w1)), _, _.
  split_and!; try done.
  - by apply lookup_ge_None_2.
  - by apply lookup_ge_None_2.
  - lia.
  - rewrite Hold2 by lia. exact Hid1.
  - lia.
  - intros mutation id Hm. specialize (Hids mutation id Hm). lia.
  - intros current Hc [object Hobject].
    assert (current < length (heap w))%nat as Hlt by (by eapply lookup_lt_Some).
    rewrite Hrest1, decide_True by done.
    rewrite list_elem_of_filter. tauto.
  - rewrite Hobs1. by left.
  - rewrite Hrest2, decide_True by (done || lia).
    rewrite list_elem_of_filter. tauto.
  - rewrite Hobs2. by left.
  - by rewrite Hall2, Hall1, <- app_assoc.
  - intros hash Hhash Htruthy.
    assert (mutate_options this variables2 w1 = mutate_options this variables2 w) as Hsame.
    { unfold mutate_options. by rewrite Hopt1. }
    assert (MutationCache_get hash w2 = Some (length (heap w1))) as Hget.
    { unfold MutationCache_get. rewrite Hmap2, Hsame, Hhash. unfold truthy_hash_of.
      rewrite Htruthy. by rewrite lookup_insert_eq. }
    split; [done|].
    unfold MutationCache_get in *. by rewrite !Mutation_settle_cache.
Qed.
(** ** [reset] *)

Lemma MutationObserver_reset_run this w :
  MutationObserver_reset this w =
    (Returned tt,
     let w0 := set_observers (alter (MutationObserver.set_currentMutation None) this) w in
     let w1 := set_observers (alter (MutationObserver.set_currentResult
       (MutationObserverResult.of_state (observed_state this w0))) this) w0 in
     flush_outermost (record_all
       (notified this {| NotifyOptions.listeners := Some true;
                         NotifyOptions.onSuccess := None;
                         NotifyOptions.onError := None |} w1) w1)).
Proof.
  unfold MutationObserver_reset.
  step.
  step_by MutationObserver_updateResult_run.
  by rewrite MutationObserver_notify_run.
Qed.

Lemma MutationObserver_reset_notifies this w :
  notifies (set_observers (alter (MutationObserver.set_currentMutation None) this) w)
    (exec (MutationObserver_reset this) w).
Proof.
  unfold exec. rewrite MutationObserver_reset_run. cbv zeta. cbn [snd]. split.
  - by rewrite skeleton_flush_outermost, skeleton_record_all, skeleton_set_currentResult.
  - unfold flush_outermost. destruct (depth _); simpl.
    + eexists. rewrite <- app_assoc. split; [done|].
      apply Forall_app. split; [apply notified_are_notifications|by repeat constructor].
    + eexists. split; [done|]. apply notified_are_notifications.
Qed.

(** What [reset] does, whatever the state of the Mutation: the observer
    drops its reference, its result is the idle view, only the generic
    listeners are called, and no Mutation changes: the observer set of
    the Mutation that was bound is as it was. *)
Lemma MutationObserver_reset_effect this w :
  (this < length (observers w))%nat →
  let w' := exec (MutationObserver_reset this) w in
  completion (MutationObserver_reset this) w = Returned tt
  ∧ bound this w' = None
  ∧ MutationObserver.currentResult (this_ this w')
      = MutationObserverResult.of_state getDefaultState
  ∧ journal w' =
      journal w
      ++ ((λ listener, ListenerCalled listener (MutationObserverResult.of_state getDefaultState))
            <$> MutationObserver.listeners (this_ this w))
      ++ (if depth w is O then [Flushed] else [])
  ∧ heap w' = heap w.
Proof.
  intros Hthis w'. subst w'.
  destruct (lookup_lt_is_Some_2 _ _ Hthis) as [me Hme].
  unfold completion, exec. rewrite MutationObserver_reset_run. cbv zeta. cbn [fst snd].
  set (w0 := set_observers (alter (MutationObserver.set_currentMutation None) this) w).
  assert (this_ this w0 = MutationObserver.set_currentMutation None (this_ this w)) as Hme0.
  { subst w0. rewrite this_alter, decide_True by done. unfold this_. by rewrite Hme. }
  assert (observed_state this w0 = getDefaultState) as ->.
  { unfold observed_state, bound. by rewrite Hme0. }
  set (w1 := set_observers _ w0).
  assert (this_ this w1 = MutationObserver.set_currentResult
            (MutationObserverResult.of_state getDefaultState)
            (MutationObserver.set_currentMutation None (this_ this w))) as Hme1.
  { subst w1. rewrite this_alter, decide_True by done.
    unfold this_ in *. subst w0.
    change (observers (set_observers ?g w)) with (g (observers w)) in *.
    rewrite list_lookup_alter_eq, Hme. done. }
  assert (this_ this (flush_outermost (record_all
            (notified this {| NotifyOptions.listeners := Some true;
                              NotifyOptions.onSuccess := None;
                              NotifyOptions.onError := None |} w1) w1)) = this_ this w1) as Hfl.
  { unfold flush_outermost. by destruct (depth _). }
  split_and!.
  - done.
  - unfold bound. by rewrite Hfl, Hme1.
  - by rewrite Hfl, Hme1.
  - unfold flush_outermost, notified, callbacks. rewrite Hme1. simpl.
    change (depth (record_all _ w1)) with (depth w).
    destruct (MutationObserver.mutateOptions (this_ this w)), (depth w);
      simpl; rewrite <- ?app_assoc, ?app_nil_r; reflexivity.
  - unfold flush_outermost. by destruct (depth _).
Qed.

(** ** [updateSharedMutation] and [setOptions] *)

Lemma add_shared_run (target : option nat) this w :
  match target with
  | Some shared => Mutation_addObserver shared this
  | None => mret tt
  end w =
  (Returned tt,
   match target with
   | Some shared =>
       set_heap (alter (Mutation.set_observers
         (λ os, if bool_decide (this ∈ os) then os else os ++ [this])) shared) w
   | None => w
   end).
Proof. by destruct target. Qed.

(** [updateSharedMutation] either leaves the store as it is, or moves the
    binding of the observer to what the index holds for its hash. *)
Lemma MutationObserver_updateSharedMutation_effect this w :
  ∃ c w', updateSharedMutation this w = (c, w')
    ∧ (w' = w
       ∨ ∃ hash, bound this w ≠ MutationCache_get hash w
           ∧ c = Returned tt
           ∧ notifies (rebound this (MutationCache_get hash w) w) w').
Proof.
  unfold MutationObserver_updateSharedMutation.
  step.
  destruct (negb _); [by eexists _, w; split; [|left]|].
  destruct (truthy_key_of _) as [key|]; [|by eexists _, w; split; [|left]].
  step.
  step.
  fold (bound this w).
  set (hash := hashMutationKeyByOptions key _).
  case_bool_decide as Hsame; [by eexists _, w; split; [|left]|].
  step_by remove_current_run.
  step.
  step_by add_shared_run.
  rewrite MutationObserver_updateResult_run.
  eexists _, _. split; [done|]. right. exists hash. split_and!; [done|done|].
  split; [|exists []; by rewrite app_nil_r].
  rewrite skeleton_set_currentResult. unfold rebound. by destruct (bound this w).
Qed.

Lemma MutationObserver_setOptions_effect this options w :
  let w0 := set_observers (alter (MutationObserver.set_options
              (Some (defaultMutationOptions options))) this) w in
  ∃ c w', setOptions this options w = (c, w')
    ∧ ((c = Thrown shareable_changed ∧ w' = w0)
       ∨ updateSharedMutation this w0 = (c, w')).
Proof.
  intros w0. unfold MutationObserver_setOptions.
  step.
  step.
  destruct (MutationObserver.options (this_ this w)) as [prev|].
  - case_bool_decide.
    + eexists _, _. split; [done|]. by left.
    + eexists _, _. split; [apply surjective_pairing|]. right. apply surjective_pairing.
  - eexists _, _. split; [apply surjective_pairing|]. right. apply surjective_pairing.
Qed.

(** ** The invariant of the binding *)

Lemma bound_set_options options this other w :
  bound other (set_observers (alter (MutationObserver.set_options options) this) w)
    = bound other w.
Proof.
  unfold bound. rewrite this_alter. case_decide; [|done]. subst.
  unfold this_. by destruct (observers w !! other).
Qed.

Lemma bound_is_registered_notifies w w' :
  notifies w w' → bound_is_registered w → bound_is_registered w'.
Proof.
  intros Hn Hinv this mutation. rewrite (notifies_bound _ _ _ Hn).
  unfold Mutation_observers. rewrite (notifies_heap _ _ Hn). apply Hinv.
Qed.

Lemma index_allocated_notifies w w' :
  notifies w w' → index_allocated w → index_allocated w'.
Proof.
  intros Hn Hinv hash mutation. unfold MutationCache_get.
  rewrite (notifies_cache _ _ Hn), (notifies_heap _ _ Hn). apply Hinv.
Qed.

Lemma Mutation_observers_allocated observer mutation w :
  observer ∈ Mutation_observers mutation w → is_Some (heap w !! mutation).
Proof.
  unfold Mutation_observers. destruct (heap w !! mutation); [by eexists|].
  simpl. by intros ?%elem_of_nil.
Qed.

Lemma Mutation_observers_rebound this target mutation w :
  is_Some (heap w !! mutation) →
  Mutation_observers mutation (rebound this target w) =
    (if decide (target = Some mutation)
     then λ os, if bool_decide (this ∈ os) then os else os ++ [this]
     else id)
      ((if decide (bound this w = Some mutation)
        then filter (λ x, x ≠ this) else id)
         (Mutation_observers mutation w)).
Proof.
  intros [object Hobject].
  unfold rebound, Mutation_observers.
  set (add := λ os : list nat, if bool_decide (this ∈ os) then os else os ++ [this]).
  destruct (bound this w) as [current|], target as [shared|];
    cbn [heap set_heap set_observers];
    rewrite ?list_lookup_alter;
    repeat case_decide; simplify_eq; rewrite ?Hobject; reflexivity.
Qed.

Lemma bound_is_registered_rebound this target w :
  (∀ shared, target = Some shared → is_Some (heap w !! shared)) →
  bound_is_registered w → bound_is_registered (rebound this target w).
Proof.
  intros Hshared Hinv other mutation.
  assert (bound other (rebound this target w) =
            bound other (set_observers
              (alter (MutationObserver.set_currentMutation target) this) w)) as ->.
  { unfold rebound. by destruct (bound this w), target. }
  unfold bound. rewrite this_alter. destruct (decide (this = other)) as [<-|Hother].
  - unfold this_. destruct (observers w !! this) as [me|]; [|done].
    simpl. intros ->.
    rewrite Mutation_observers_rebound by by apply Hshared.
    rewrite decide_True by done. case_bool_decide; [done|].
    apply elem_of_app. right. by left.
  - intros Hbound. specialize (Hinv other mutation Hbound).
    rewrite Mutation_observers_rebound by by eapply Mutation_observers_allocated.
    assert (other ∈ (if decide (bound this w = Some mutation)
                     then filter (λ x, x ≠ this) else id)
                      (Mutation_observers mutation w)) as Hin.
    { destruct (decide (bound this w = Some mutation)); [|exact Hinv].
      apply list_elem_of_filter. split; [congruence|done]. }
    destruct (decide (target = Some mutation)); [|exact Hin].
    case_bool_decide; [exact Hin|].
    apply elem_of_app. left. exact Hin.
Qed.

Lemma index_allocated_rebound this target w :
  index_allocated w → index_allocated (rebound this target w).
Proof.
  intros Hinv hash mutation Hget.
  assert (MutationCache_get hash w = Some mutation) as Hget'.
  { revert Hget. unfold rebound. by destruct (bound this w), target. }
  specialize (Hinv hash mutation Hget').
  apply lookup_lt_is_Some in Hinv. apply lookup_lt_is_Some.
  unfold rebound.
  destruct (bound this w), target; cbn [heap set_heap set_observers];
    rewrite ?length_alter; done.
Qed.

Lemma consistent_updateSharedMutation this w :
  index_allocated w → bound_is_registered w →
  let w' := exec (updateSharedMutation this) w in
  index_allocated w' ∧ bound_is_registered w'
  ∧ ∀ current, bound this w = Some current → bound this w' ≠ Some current →
      this ∉ Mutation_observers current w'.
Proof.
  intros Hindex Hinv w'. subst w'.
  destruct (MutationObserver_updateSharedMutation_effect this w)
    as (c & w' & Hrun & [->|(hash & Hne & -> & Hn)]);
    unfold exec; rewrite Hrun; cbn [snd].
  - split_and!; [done|done|]. intros current Hc Hc'. congruence.
  - assert (∀ shared, MutationCache_get hash w = Some shared → is_Some (heap w !! shared))
      as Hshared by (intros shared; apply Hindex).
    split_and!.
    + eapply index_allocated_notifies; [exact Hn|]. by apply index_allocated_rebound.
    + eapply bound_is_registered_notifies; [exact Hn|].
      by apply bound_is_registered_rebound.
    + intros current Hc _. unfold Mutation_observers.
      rewrite (notifies_heap _ _ Hn). fold (Mutation_observers current (rebound this
        (MutationCache_get hash w) w)).
      rewrite Mutation_observers_rebound
        by (eapply Mutation_observers_allocated, Hinv, Hc).
      rewrite decide_False by congruence. rewrite decide_True by done.
      simpl. rewrite list_elem_of_filter. tauto.
Qed.

Lemma consistent_set_options options this w :
  index_allocated w → bound_is_registered w →
  let w0 := set_observers (alter (MutationObserver.set_options options) this) w in
  index_allocated w0 ∧ bound_is_registered w0.
Proof.
  intros Hindex Hinv w0. split; [done|].
  intros other mutation. subst w0. rewrite bound_set_options. apply Hinv.
Qed.

Lemma consistent_mutate this variables options w :
  (this < length (observers w))%nat →
  index_allocated w → bound_is_registered w →
  let w' := exec (mutate this variables options) w in
  index_allocated w' ∧ bound_is_registered w'
  ∧ ∀ current, bound this w = Some current → this ∉ Mutation_observers current w'.
Proof.
  intros Hthis Hindex Hinv w'. subst w'.
  destruct (MutationObserver_mutate_effect this variables options w Hthis)
    as (w' & Hrun & Hb & Hother & Hopt & Hlen & Hheap & Hid & Hold & Hcid
        & Hall & Hmap & Hobs & Hrest).
  unfold exec. rewrite Hrun. cbn [snd]. split_and!.
  - intros hash mutation. unfold MutationCache_get. rewrite Hmap.
    intros Hget. apply lookup_lt_is_Some. rewrite Hheap.
    assert (mutation = length (heap w) ∨ MutationCache_get hash w = Some mutation)
      as [->|Hget']; [|lia|].
    { destruct (truthy_hash_of _) as [built|]; [|by right].
      destruct (decide (built = hash)) as [->|].
      - rewrite lookup_insert_eq in Hget. left. congruence.
      - rewrite lookup_insert_ne in Hget by done. by right. }
    apply Hindex, lookup_lt_is_Some in Hget'. lia.
  - intros other mutation Hbound.
    destruct (decide (other = this)) as [->|Hne].
    + rewrite Hb in Hbound. simplify_eq. rewrite Hobs. by left.
    + rewrite Hother in Hbound by done. specialize (Hinv other mutation Hbound).
      pose proof (Mutation_observers_allocated _ _ _ Hinv) as Halloc.
      apply lookup_lt_is_Some in Halloc.
      rewrite Hrest by done. case_decide; [|done].
      apply list_elem_of_filter. done.
  - intros current Hc.
    pose proof (Mutation_observers_allocated _ _ _ (Hinv this current Hc)) as Halloc.
    apply lookup_lt_is_Some in Halloc.
    rewrite Hrest by done. rewrite decide_True by done.
    rewrite list_elem_of_filter. tauto.
Qed.

(** C6 (as it holds).  The invariant, that an observer holding a reference
    to a Mutation is in the observer set of that Mutation, is kept by
    [setOptions], [updateSharedMutation], [mutate] and [reset]; when
    [updateSharedMutation] or [mutate] moves the observer to another
    Mutation, the observer leaves the observer set of the Mutation it was
    bound to.  [onUnsubscribe], when no listener is left, removes the
    observer from the observer set of its Mutation and keeps the
    reference of the observer. *)
Theorem binding_invariant this w :
  (this < length (observers w))%nat →
  index_allocated w →
  bound_is_registered w →
  (∀ options,
     let w' := exec (setOptions this options) w in
     index_allocated w' ∧ bound_is_registered w')
  ∧ (let w' := exec (updateSharedMutation this) w in
     index_allocated w' ∧ bound_is_registered w'
     ∧ ∀ current, bound this w = Some current → bound this w' ≠ Some current →
         this ∉ Mutation_observers current w')
  ∧ (∀ variables options,
       let w' := exec (mutate this variables options) w in
       index_allocated w' ∧ bound_is_registered w'
       ∧ ∀ current, bound this w = Some current → this ∉ Mutation_observers current w')
  ∧ (let w' := exec (MutationObserver_reset this) w in
     index_allocated w' ∧ bound_is_registered w')
  ∧ (let w' := exec (MutationObserver_onUnsubscribe this) w in
     ∀ current,
       MutationObserver.listeners (this_ this w) = [] →
       bound this w = Some current →
       bound this w' = Some current ∧ this ∉ Mutation_observers current w').
Proof.
  intros Hthis Hindex Hinv. split_and!.
  - intros options w'. subst w'.
    destruct (MutationObserver_setOptions_effect this options w)
      as (c & w' & Hrun & [[-> ->]|Hshared]);
      unfold exec; rewrite Hrun; cbn [snd].
    + by apply consistent_set_options.
    + destruct (consistent_set_options (Some (defaultMutationOptions options)) this w)
        as [Hindex0 Hinv0]; [done|done|].
      destruct (consistent_updateSharedMutation this _ Hindex0 Hinv0) as (H1 & H2 & _).
      unfold exec in H1, H2. rewrite Hshared in H1, H2. done.
  - by apply consistent_updateSharedMutation.
  - intros variables options. by apply consistent_mutate.
  - intros w'. subst w'.
    pose proof (MutationObserver_reset_notifies this w) as Hn. split.
    + eapply index_allocated_notifies; [exact Hn|]. done.
    + eapply bound_is_registered_notifies; [exact Hn|].
      intros other mutation. unfold bound. rewrite this_alter.
      case_decide; [|apply Hinv]. subst. unfold this_.
      by destruct (observers w !! other).
  - intros w' current Hlisteners Hbound. subst w'.
    unfold exec, MutationObserver_onUnsubscribe.
    step.
    rewrite Hlisteners. simpl.
    step.
    fold (bound this w). rewrite Hbound. cbn [snd].
    unfold Mutation_removeObserver, modify. cbn [snd]. split; [done|].
    rewrite Mutation_observers_alter, decide_True by done.
    destruct (heap w !! current); simpl; [|apply not_elem_of_nil].
    rewrite list_elem_of_filter. tauto.
Qed.
(** What [setOptions] does when the observer has options and the new
    [shareable] is not the one it has: it throws at once, after it has
    stored the new options; nothing else in the store changes. *)
Lemma MutationObserver_setOptions_rejects_change this options prev w :
  MutationObserver.options (this_ this w) = Some prev →
  MutationOptions.shareable prev ≠ options ≫= MutationOptions.shareable →
  setOptions this options w =
    (Thrown shareable_changed,
     set_observers (alter (MutationObserver.set_options
       (Some (defaultMutationOptions options))) this) w).
Proof.
  intros Hprev Hne. unfold MutationObserver_setOptions.
  step.
  step.
  rewrite Hprev. by rewrite bool_decide_true.
Qed.
(** ** More on the cache *)

(** X1.  [build] and [get]: after a build whose hash is truthy, [get] of
    that hash returns the Mutation just built, whatever the index held for
    it before; [get] of every other hash is as before, and a build without
    a truthy hash leaves every [get] as before. *)
Theorem get_after_build options state hash w :
  let new := length (heap w) in
  MutationCache_get hash (exec (build options state) w) =
    match truthy_hash_of (build_hash options) with
    | Some built => if decide (built = hash) then Some new else MutationCache_get hash w
    | None => MutationCache_get hash w
    end.
Proof.
  intros new. unfold exec. rewrite MutationCache_build_run. cbv zeta. cbn [snd].
  unfold MutationCache_get. simpl.
  destruct (truthy_hash_of (build_hash options)) as [built|]; [|done].
  apply lookup_insert.
Qed.

Lemma truthy_hash_of_Some h hash :
  truthy_hash_of h = Some hash → h = Some hash ∧ truthy_string hash = true.
Proof.
  destruct h as [s|]; [|done]. simpl.
  destruct (truthy_string s) eqn:Hs; [|done]. by intros [= <-].
Qed.

Lemma Mutation_mutationHash_allocated mutation hash w :
  Mutation_mutationHash mutation w = Some hash → (mutation < length (heap w))%nat.
Proof.
  unfold Mutation_mutationHash. intros H. apply lookup_lt_is_Some.
  destruct (heap w !! mutation); [by eexists|done].
Qed.

Lemma index_tracks_collection_build options state w :
  index_tracks_collection w → index_tracks_collection (exec (build options state) w).
Proof.
  intros Hinv hash mutation. unfold exec. rewrite MutationCache_build_run.
  cbv zeta. cbn [snd]. unfold MutationCache_get, MutationCache_getAll, Mutation_mutationHash.
  simpl. intros Hget.
  assert ((mutation = length (heap w)
           ∧ truthy_hash_of (build_hash options) = Some hash)
          ∨ MutationCache_get hash w = Some mutation) as [[-> Hbuilt]|Hold].
  { destruct (truthy_hash_of (build_hash options)) as [built|]; [|by right].
    destruct (decide (built = hash)) as [->|Hne].
    - rewrite lookup_insert_eq in Hget. left. by simplify_eq.
    - rewrite lookup_insert_ne in Hget by done. by right. }
  - apply truthy_hash_of_Some in Hbuilt as [Hbuilt Htruthy].
    split_and!; [apply elem_of_app; right; left| |done].
    by rewrite list_lookup_middle.
  - destruct (Hinv hash mutation Hold) as (Hin & Hhash & Htruthy).
    split_and!; [apply elem_of_app; by left| |done].
    rewrite lookup_app_l by by eapply Mutation_mutationHash_allocated. exact Hhash.
Qed.

Lemma index_tracks_collection_remove mutation w :
  index_tracks_collection w → index_tracks_collection (exec (MutationCache_remove mutation) w).
Proof.
  intros Hinv hash other. unfold exec. rewrite MutationCache_remove_run.
  cbv zeta. cbn [snd]. unfold MutationCache_get, MutationCache_getAll. simpl.
  intros Hget.
  assert (MutationCache_get hash w = Some other
          ∧ truthy_hash_of (Mutation_mutationHash mutation w) ≠ Some hash) as [Hold Hne].
  { destruct (truthy_hash_of (Mutation_mutationHash mutation w)) as [removed|]; [|done].
    destruct (decide (removed = hash)) as [->|Hne].
    - by rewrite lookup_delete_eq in Hget.
    - rewrite lookup_delete_ne in Hget by done. split; [done|congruence]. }
  destruct (Hinv hash other Hold) as (Hin & Hhash & Htruthy).
  split_and!; [| |done].
  - apply list_elem_of_filter. split; [|done]. intros ->.
    apply Hne. rewrite Hhash. simpl. by rewrite Htruthy.
  - unfold Mutation_mutationHash in *. simpl. rewrite list_lookup_alter.
    case_decide; [|done]. subst. by destruct (heap w !! other).
Qed.

Lemma index_tracks_collection_add mutation w :
  index_tracks_collection w → index_tracks_collection (exec (MutationCache_add mutation) w).
Proof.
  intros Hinv hash other. unfold exec, MutationCache_add.
  step. rewrite MutationCache_notify_run. cbn [snd].
  unfold flush_outermost.
  assert (∀ w0, MutationCache_get hash (if depth w0 is O then record Flushed w0 else w0)
                = MutationCache_get hash w0) as -> by (intros w0; by destruct (depth w0)).
  intros Hget. destruct (Hinv hash other Hget) as (Hin & Hhash & Htruthy).
  split_and!; [|by destruct (depth _)|done].
  unfold MutationCache_getAll. destruct (depth _); simpl; apply elem_of_app; by left.
Qed.

Lemma index_tracks_collection_frame w w' :
  cache w' = cache w → heap w' = heap w →
  index_tracks_collection w → index_tracks_collection w'.
Proof.
  intros Hc Hh Hinv hash mutation.
  unfold MutationCache_get, MutationCache_getAll, Mutation_mutationHash.
  rewrite Hc, Hh. apply Hinv.
Qed.

Lemma forEach_remove_index ms w :
  index_tracks_collection w →
  index_tracks_collection (exec (forEach ms (λ mutation, MutationCache_remove mutation)) w).
Proof.
  revert w. induction ms as [|m ms IH]; intros w Hinv; [done|].
  unfold exec. simpl. unfold mbind, M_bind.
  rewrite MutationCache_remove_run.
  pose proof (index_tracks_collection_remove m w Hinv) as Hstep.
  unfold exec in Hstep. rewrite MutationCache_remove_run in Hstep.
  apply (IH _ Hstep).
Qed.

Lemma exec_clear w :
  exec MutationCache_clear w =
    flush_outermost (set_transactions pred
      (exec (forEach (MutationCache_getAll w) (λ mutation, MutationCache_remove mutation))
         (set_transactions S w))).
Proof.
  unfold exec, MutationCache_clear. rewrite batch_run.
  unfold mbind, M_bind, gets.
  assert (depth (set_transactions S w) ≠ 0%nat) as Hd by (unfold depth; simpl; lia).
  destruct (forEach_remove (MutationCache.mutations (cache (set_transactions S w)))
              (set_transactions S w) Hd) as (w' & Hrun & _).
  unfold MutationCache_getAll.
  change (MutationCache.mutations (cache w))
    with (MutationCache.mutations (cache (set_transactions S w))).
  by rewrite !Hrun.
Qed.

Lemma flush_outermost_frame w :
  cache (flush_outermost w) = cache w ∧ heap (flush_outermost w) = heap w.
Proof. unfold flush_outermost. by destruct (depth w). Qed.

Lemma index_tracks_collection_clear w :
  index_tracks_collection w → index_tracks_collection (exec MutationCache_clear w).
Proof.
  intros Hinv. rewrite exec_clear.
  eapply index_tracks_collection_frame; [apply flush_outermost_frame..|].
  eapply (index_tracks_collection_frame (exec _ (set_transactions S w))); [done..|].
  by apply forEach_remove_index.
Qed.

(** X2.  The cache keeps its two structures in step: if the hash index
    names only Mutations of the collection, each under its own hash, then
    it still does after [build], [add], [remove] and [clear]. *)
Theorem index_tracks_collection_kept w :
  index_tracks_collection w →
  (∀ options state, index_tracks_collection (exec (build options state) w))
  ∧ (∀ mutation, index_tracks_collection (exec (MutationCache_add mutation) w))
  ∧ (∀ mutation, index_tracks_collection (exec (MutationCache_remove mutation) w))
  ∧ index_tracks_collection (exec MutationCache_clear w).
Proof.
  intros Hinv. split_and!.
  - intros options state. by apply index_tracks_collection_build.
  - intros mutation. by apply index_tracks_collection_add.
  - intros mutation. by apply index_tracks_collection_remove.
  - by apply index_tracks_collection_clear.
Qed.

(** X3.  After [clear], on a cache whose index names only Mutations of the
    collection, both structures are empty: [getAll] is empty and the index
    has no entry of its own, so that [get] finds nothing for any hash but
    the names that [Object.prototype] answers. *)
Theorem clear_empties_both w :
  index_tracks_collection w →
  let w' := exec MutationCache_clear w in
  MutationCache_getAll w' = []
  ∧ MutationCache.mutationsMap (cache w') = ∅
  ∧ ∀ hash, hash ∉ Object_prototype → MutationCache_get hash w' = None.
Proof.
  intros Hinv w'. subst w'.
  assert (MutationCache_getAll (exec MutationCache_clear w) = []) as Hempty.
  { rewrite exec_clear.
    assert (depth (set_transactions S w) ≠ 0%nat) as Hd by (unfold depth; simpl; lia).
    destruct (forEach_remove (MutationCache_getAll w) (set_transactions S w) Hd)
      as (w' & Hrun & Hms & _).
    unfold exec. rewrite Hrun. cbn [snd]. unfold MutationCache_getAll.
    rewrite (proj1 (flush_outermost_frame _)). simpl. rewrite Hms.
    apply filter_none. intros x Hx. simpl in Hx. tauto. }
  assert (∀ hash, MutationCache_get hash (exec MutationCache_clear w) = None) as Hnone.
  { intros hash.
    destruct (MutationCache_get hash (exec MutationCache_clear w)) as [mutation|] eqn:Hget;
      [|done].
    destruct (index_tracks_collection_clear w Hinv hash mutation Hget) as (Hin & _).
    rewrite Hempty in Hin. by apply elem_of_nil in Hin. }
  split_and!; [done| |by intros hash _].
  apply map_empty. exact Hnone.
Qed.




Lemma MutationCache_add_run mutation w :
  MutationCache_add mutation w =
    (Returned tt,
     record_all
       ([CollectionPushed mutation]
          ++ ((λ listener, CacheListenerCalled listener (Some mutation))
                <$> MutationCache.listeners (cache w))
          ++ (if depth w is O then [Flushed] else []))
       (set_cache (λ c,
          {| MutationCache.mutations := MutationCache.mutations c ++ [mutation];
             MutationCache.mutationsMap := MutationCache.mutationsMap c;
             MutationCache.mutationId := MutationCache.mutationId c;
             MutationCache.listeners := MutationCache.listeners c |}) w)).
Proof.
  unfold MutationCache_add. step. rewrite MutationCache_notify_run.
  unfold flush_outermost, record, record_all, set_cache, depth. simpl.
  destruct (NotifyManager.transactions (notifyManager w)); simpl;
    rewrite <- ?app_assoc, ?app_nil_r; reflexivity.
Qed.

(** X5.  [add] and then [remove] of one Mutation leave the collection as
    it was without that Mutation: unchanged if the Mutation was not in it,
    and without the earlier occurrences as well if it was; [cancel()] is
    called on the Mutation in either case. *)
Theorem remove_after_add mutation w :
  let w' := exec (MutationCache_add mutation ;; MutationCache_remove mutation) w in
  MutationCache_getAll w' = filter (λ x, x ≠ mutation) (MutationCache_getAll w)
  ∧ (mutation ∉ MutationCache_getAll w → MutationCache_getAll w' = MutationCache_getAll w)
  ∧ CancelCalled mutation
      ∈ added (MutationCache_add mutation ;; MutationCache_remove mutation) w.
Proof.
  intros w'.
  assert (MutationCache_getAll w' = filter (λ x, x ≠ mutation) (MutationCache_getAll w))
    as Hall.
  { subst w'. unfold exec. step_by MutationCache_add_run.
    rewrite MutationCache_remove_run. cbv zeta. cbn [snd].
    unfold MutationCache_getAll. simpl.
    rewrite filter_app, filter_cons_False, filter_nil, app_nil_r; [done|]. by intros []. }
  split; [done|]. split.
  - intros Hnot. rewrite Hall. apply filter_all. by intros x Hx ->.
  - subst w'. unfold added, exec. step_by MutationCache_add_run.
    rewrite MutationCache_remove_run. cbv zeta. cbn [snd].
    match goal with
    | |- _ ∈ drop _ (journal (record_all ?e2 (set_cache _ (set_heap _
                       (record_all ?e1 (set_cache _ w)))))) =>
        change (journal (record_all e2 (set_cache _ (set_heap _
                  (record_all e1 (set_cache _ w))))))
          with ((journal w ++ e1) ++ e2)
    end.
    rewrite <- app_assoc, drop_app_length.
    apply elem_of_app. right. apply elem_of_app. right.
    apply elem_of_app. right. apply elem_of_app. left. by left.
Qed.

(** ** [find] and [findAll] *)

Lemma Array_find_Some {A} (p : A → bool) xs x :
  Array_find p xs = Some x →
  ∃ before after, xs = before ++ x :: after ∧ p x = true
    ∧ Forall (λ y, p y = false) before.
Proof.
  induction xs as [|y xs IH]; [done|]. simpl.
  destruct (p y) eqn:Hy.
  - intros [= ->]. by exists [], xs.
  - intros (before & after & -> & Hx & Hb)%IH.
    exists (y :: before), after. split_and!; [done|done|by constructor].
Qed.

Lemma Array_find_None {A} (p : A → bool) xs :
  Array_find p xs = None → Forall (λ y, p y = false) xs.
Proof.
  induction xs as [|y xs IH]; [by constructor|]. simpl.
  destruct (p y) eqn:Hy; [done|]. intros ?%IH. by constructor.
Qed.

Lemma Array_find_head {A} (p : A → bool) xs :
  Array_find p xs = head (filter (λ y, p y = true) xs).
Proof.
  induction xs as [|y xs IH]; [done|]. simpl. rewrite filter_cons.
  destruct (p y) eqn:Hy; case_decide; try done.
Qed.

(** X6.  [find] returns the first Mutation of the collection, in insertion
    order, that passes the filters with [exact] set to true when the caller
    left it undefined: every Mutation before it fails them; and it returns
    nothing only if every Mutation of the collection fails them. *)
Theorem find_first_match filters w :
  let used :=
    match MutationFilters.exact filters with
    | None => MutationFilters.set_exact (Some true) filters
    | Some _ => filters
    end in
  match (find filters w).2 with
  | Some found =>
      ∃ before after,
        MutationCache_getAll w = before ++ found :: after
        ∧ matches matchMutation used w found = true
        ∧ Forall (λ mutation, matches matchMutation used w mutation = false) before
  | None =>
      Forall (λ mutation, matches matchMutation used w mutation = false)
        (MutationCache_getAll w)
  end.
Proof.
  intros used. unfold MutationCache_find. cbn [snd]. fold used.
  destruct (Array_find _ _) as [found|] eqn:Hfind.
  - by apply Array_find_Some.
  - by apply Array_find_None.
Qed.

(** X7.  [find] assigns [exact] in the filters of the caller when it is
    undefined, and only then, and leaves the other filters as they are.
    On the filters as [find] leaves them, [find] returns the first
    Mutation that [findAll] returns, and a second [find] changes nothing.
    [findAll] returns Mutations of the collection that pass the filters,
    in the order of the collection. *)
Theorem find_and_findAll filters w :
  let left := (find filters w).1 in
  MutationFilters.exact left = Some (default true (MutationFilters.exact filters))
  ∧ MutationFilters.mutationKey left = MutationFilters.mutationKey filters
  ∧ MutationFilters.other left = MutationFilters.other filters
  ∧ (find filters w).2 = head (findAll left w)
  ∧ find left w = find filters w
  ∧ findAll filters w `sublist_of` MutationCache_getAll w
  ∧ Forall (λ mutation, matches matchMutation filters w mutation = true) (findAll filters w).
Proof.
  intros left. subst left. unfold MutationCache_find, MutationCache_findAll.
  cbn [fst snd]. split_and!.
  - destruct (MutationFilters.exact filters) eqn:Hexact; simpl; by rewrite ?Hexact.
  - by destruct (MutationFilters.exact filters).
  - by destruct (MutationFilters.exact filters).
  - apply Array_find_head.
  - destruct (MutationFilters.exact filters) eqn:Hexact; simpl; by rewrite ?Hexact.
  - apply sublist_filter.
  - apply Forall_forall. by intros x [? ?]%list_elem_of_filter.
Qed.

(** ** The binding of an observer *)

Lemma MutationObserver_updateSharedMutation_run this w :
  let options := default MutationOptions.empty (MutationObserver.options (this_ this w)) in
  updateSharedMutation this w =
    if negb (truthy_bool (MutationOptions.shareable options)) then (Returned tt, w)
    else
      match truthy_key_of (MutationOptions.mutationKey options) with
      | None => (Thrown shareable_needs_key, w)
      | Some key =>
          let target := MutationCache_get (hashMutationKeyByOptions key options) w in
          if bool_decide (bound this w = target) then (Returned tt, w)
          else
            let w1 := rebound this target w in
            (Returned tt,
             set_observers (alter (MutationObserver.set_currentResult
               (MutationObserverResult.of_state (observed_state this w1))) this) w1)
      end.
Proof.
  intros options. unfold MutationObserver_updateSharedMutation.
  step.
  fold options.
  destruct (negb _); [done|].
  destruct (truthy_key_of _) as [key|]; [|done].
  step.
  step.
  fold (bound this w).
  case_bool_decide as Hsame; [done|].
  step_by remove_current_run.
  step.
  step_by add_shared_run.
  rewrite MutationObserver_updateResult_run. cbv zeta.
  unfold rebound. by destruct (bound this w).
Qed.

Lemma observers_rebound this target w :
  observers (rebound this target w)
    = alter (MutationObserver.set_currentMutation target) this (observers w).
Proof. unfold rebound. by destruct (bound this w), target. Qed.

Lemma heap_rebound this target w mutation :
  Mutation.set_observers (λ _, []) <$> heap (rebound this target w) !! mutation
    = Mutation.set_observers (λ _, []) <$> heap w !! mutation.
Proof.
  unfold rebound.
  destruct (bound this w), target; cbn [heap set_heap set_observers];
    rewrite ?list_lookup_alter; repeat case_decide; subst;
    by destruct (heap w !! mutation).
Qed.

Lemma rebinds_refl this w : rebinds this w w.
Proof. by repeat split. Qed.

Lemma rebinds_set_currentResult result this target w :
  rebinds this w
    (set_observers (alter (MutationObserver.set_currentResult result) this)
       (rebound this target w)).
Proof.
  assert (∀ w0, heap (set_observers (alter (MutationObserver.set_currentResult result) this)
                        w0) = heap w0) as Hheap by done.
  split_and!.
  - unfold rebound. by destruct (bound this w), target.
  - unfold rebound. by destruct (bound this w), target.
  - unfold rebound. by destruct (bound this w), target.
  - intros mutation. rewrite Hheap. apply heap_rebound.
  - intros other Hne.
    change (observers (set_observers ?f ?x)) with (f (observers x)).
    rewrite observers_rebound. by rewrite !list_lookup_alter_ne.
  - change (observers (set_observers ?f ?x)) with (f (observers x)).
    rewrite observers_rebound, !list_lookup_alter_eq.
    by destruct (observers w !! this).
Qed.

Lemma updateSharedMutation_rebinds this w :
  rebinds this w (exec (updateSharedMutation this) w).
Proof.
  unfold exec. rewrite MutationObserver_updateSharedMutation_run. cbv zeta.
  destruct (negb _); [apply rebinds_refl|].
  destruct (truthy_key_of _); [|apply rebinds_refl].
  case_bool_decide; [apply rebinds_refl|]. apply rebinds_set_currentResult.
Qed.

Lemma truthy_key_of_None key : truthy_key_of key = None ↔ truthy_key key = false.
Proof.
  unfold truthy_key_of. destruct (truthy_key key) eqn:Hkey; [|done].
  split; [|done]. by destruct key.
Qed.

(** X8.  [updateSharedMutation] throws exactly when the options of the
    observer have a truthy [shareable] and no truthy [mutationKey]; what it
    throws then is the error that asks for a key, and the store is as it
    was. *)
Theorem updateSharedMutation_throws this w :
  let options := default MutationOptions.empty (MutationObserver.options (this_ this w)) in
  (completion (updateSharedMutation this) w = Thrown shareable_needs_key
   ↔ truthy_bool (MutationOptions.shareable options) = true
     ∧ truthy_key (MutationOptions.mutationKey options) = false)
  ∧ ∀ error,
      completion (updateSharedMutation this) w = Thrown error →
      error = shareable_needs_key ∧ exec (updateSharedMutation this) w = w.
Proof.
  intros options. unfold completion, exec.
  rewrite MutationObserver_updateSharedMutation_run. cbv zeta. fold options.
  pose proof (truthy_key_of_None (MutationOptions.mutationKey options)) as Hkey.
  destruct (truthy_bool (MutationOptions.shareable options)); simpl.
  - destruct (truthy_key_of (MutationOptions.mutationKey options)) as [key|].
    + assert (truthy_key (MutationOptions.mutationKey options) ≠ false) as Hne.
      { intros Hf. by apply Hkey in Hf. }
      case_bool_decide; simpl; (split; [split; [done|by intros [_ ?]]|done]).
    + split; [|by intros error [= <-]]. split; [|done]. intros _. split; [done|].
      by apply Hkey.
  - split; [|done]. split; [done|]. by intros [? _].
Qed.

Lemma bound_rebound this target w :
  is_Some (observers w !! this) → bound this (rebound this target w) = target.
Proof.
  intros [me Hme]. unfold bound, this_. rewrite observers_rebound.
  by rewrite list_lookup_alter_eq, Hme.
Qed.

(** X9.  [updateSharedMutation] is idempotent: called again at once, it
    completes as the first call did and leaves the store of the first call
    as it is. *)
Theorem updateSharedMutation_idempotent this w :
  updateSharedMutation this (exec (updateSharedMutation this) w)
    = (completion (updateSharedMutation this) w, exec (updateSharedMutation this) w).
Proof.
  unfold completion, exec.
  rewrite (MutationObserver_updateSharedMutation_run this w). cbv zeta.
  destruct (observers w !! this) as [me|] eqn:Hme.
  - set (options := default MutationOptions.empty (MutationObserver.options (this_ this w))).
    destruct (negb (truthy_bool (MutationOptions.shareable options))) eqn:Hshareable.
    { cbn [fst snd]. rewrite MutationObserver_updateSharedMutation_run. cbv zeta.
      fold options. by rewrite Hshareable. }
    destruct (truthy_key_of (MutationOptions.mutationKey options)) as [key|] eqn:Hkey.
    2:{ cbn [fst snd]. rewrite MutationObserver_updateSharedMutation_run. cbv zeta.
        fold options. by rewrite Hshareable, Hkey. }
    set (target := MutationCache_get (hashMutationKeyByOptions key options) w).
    case_bool_decide as Hsame.
    { cbn [fst snd]. rewrite MutationObserver_updateSharedMutation_run. cbv zeta.
      fold options. rewrite Hshareable, Hkey. fold target.
      by rewrite bool_decide_true. }
    cbn [fst snd].
    set (w' := set_observers _ (rebound this target w)).
    assert (this_ this w' =
              MutationObserver.set_currentResult
                (MutationObserverResult.of_state (observed_state this (rebound this target w)))
                (MutationObserver.set_currentMutation target me)) as Hme'.
    { subst w'. unfold this_.
      change (observers (set_observers ?f ?x)) with (f (observers x)).
      by rewrite observers_rebound, !list_lookup_alter_eq, Hme. }
    assert (cache w' = cache w) as Hcache.
    { subst w'. unfold rebound. by destruct (bound this w), target. }
    rewrite MutationObserver_updateSharedMutation_run. cbv zeta.
    unfold bound. rewrite Hme'. simpl.
    assert (MutationObserver.options me = MutationObserver.options (this_ this w)) as ->.
    { unfold this_. by rewrite Hme. }
    fold options. rewrite Hshareable, Hkey.
    unfold MutationCache_get. rewrite Hcache. fold (MutationCache_get
      (hashMutationKeyByOptions key options) w). fold target.
    by rewrite bool_decide_true.
  - assert (this_ this w = MutationObserver.blank) as Hblank
      by (unfold this_; by rewrite Hme).
    rewrite Hblank. simpl. rewrite MutationObserver_updateSharedMutation_run.
    cbv zeta. by rewrite Hblank.
Qed.

(** X10.  [setOptions] and [updateSharedMutation] move the binding in
    silence: whether they return or throw, and also when the result of the
    observer changes, they call no listener and no callback, flush
    nothing, and leave the cache, every Mutation but for its observer set,
    and every other observer as they were. *)
Theorem rebinding_is_silent this options w :
  let quiet w' :=
    journal w' = journal w
    ∧ cache w' = cache w
    ∧ notifyManager w' = notifyManager w
    ∧ (∀ mutation, Mutation_state mutation w' = Mutation_state mutation w
                   ∧ Mutation_mutationHash mutation w' = Mutation_mutationHash mutation w
                   ∧ mutationId_of mutation w' = mutationId_of mutation w)
    ∧ ∀ other, other ≠ this → this_ other w' = this_ other w in
  quiet (exec (updateSharedMutation this) w) ∧ quiet (exec (setOptions this options) w).
Proof.
  intros quiet.
  assert (∀ w0 w', rebinds this w0 w' →
            journal w' = journal w0
            ∧ cache w' = cache w0
            ∧ notifyManager w' = notifyManager w0
            ∧ (∀ mutation, Mutation_state mutation w' = Mutation_state mutation w0
                 ∧ Mutation_mutationHash mutation w' = Mutation_mutationHash mutation w0
                 ∧ mutationId_of mutation w' = mutationId_of mutation w0)
            ∧ ∀ other, other ≠ this → this_ other w' = this_ other w0) as Hquiet.
  { intros w0 w' (Hj & Hc & Hn & Hh & Ho & _). split_and!; [done..| |].
    - intros mutation. specialize (Hh mutation).
      unfold Mutation_state, Mutation_mutationHash, mutationId_of.
      destruct (heap w' !! mutation) as [[]|], (heap w0 !! mutation) as [[]|];
        by simplify_eq/=.
    - intros other Hne. unfold this_. by rewrite Ho. }
  split.
  - apply Hquiet, updateSharedMutation_rebinds.
  - destruct (MutationObserver_setOptions_effect this options w)
      as (c & w' & Hrun & [[-> ->]|Hshared]); unfold exec; rewrite Hrun; cbn [snd].
    + split_and!; [done..|]. intros other Hne. unfold this_.
      change (observers (set_observers ?f ?x)) with (f (observers x)).
      by rewrite list_lookup_alter_ne.
    + pose proof (updateSharedMutation_rebinds this
        (set_observers (alter (MutationObserver.set_options
           (Some (defaultMutationOptions options))) this) w)) as Hr.
      unfold exec in Hr. rewrite Hshared in Hr. cbn [snd] in Hr.
      destruct (Hquiet _ _ Hr) as (Hj & Hc & Hn & Hh & Ho).
      split_and!; [done..|]. intros other Hne. rewrite Ho by done.
      unfold this_. change (observers (set_observers ?f ?x)) with (f (observers x)).
      by rewrite list_lookup_alter_ne.
Qed.

Lemma bind_thrown {A B} (m : M A) (f : A → M B) w e w' :
  m w = (Thrown e, w') → (m ≫= f) w = (Thrown e, w').
Proof. intros H. unfold mbind, M_bind. by rewrite H. Qed.

Lemma MutationObserver_setOptions_first this options w :
  MutationObserver.options (this_ this w) = None →
  setOptions this options w =
    updateSharedMutation this
      (set_observers (alter (MutationObserver.set_options
         (Some (defaultMutationOptions options))) this) w).
Proof.
  intros Hprev. unfold MutationObserver_setOptions.
  step.
  step.
  by rewrite Hprev.
Qed.

(** X11.  The constructor: the new observer is the next one of the store;
    it holds the defaulted options.  With a truthy [shareable] and no
    truthy key the constructor throws the error that asks for a key, and
    it never throws the error of a changed flag.  Otherwise it returns
    the observer, bound to the Mutation that the index holds for its hash
    if it is shareable and to none if not, registered with that Mutation,
    its result the view of the state of that Mutation, or the idle view;
    no listener is called, no Mutation is built, and the observers that
    were there are as they were. *)
Theorem constructor_binding options w :
  let this := length (observers w) in
  let defaulted := defaultMutationOptions (Some options) in
  let target :=
    if truthy_bool (MutationOptions.shareable defaulted)
    then key ← truthy_key_of (MutationOptions.mutationKey defaulted) ;
         MutationCache_get (hashMutationKeyByOptions key defaulted) w
    else None in
  let w' := exec (new_observer options) w in
  if truthy_bool (MutationOptions.shareable defaulted)
     && negb (truthy_key (MutationOptions.mutationKey defaulted))
  then completion (new_observer options) w = Thrown shareable_needs_key
  else
    completion (new_observer options) w = Returned this
    ∧ observers w' !! this =
        Some {| MutationObserver.options := Some defaulted;
                MutationObserver.currentResult :=
                  MutationObserverResult.of_state
                    match target with
                    | Some mutation => Mutation_state mutation w
                    | None => getDefaultState
                    end;
                MutationObserver.currentMutation := target;
                MutationObserver.mutateOptions := None;
                MutationObserver.listeners := [] |}
    ∧ (∀ mutation, target = Some mutation → is_Some (heap w !! mutation) →
         this ∈ Mutation_observers mutation w')
    ∧ journal w' = journal w
    ∧ cache w' = cache w
    ∧ length (heap w') = length (heap w)
    ∧ ∀ other, (other < this)%nat → observers w' !! other = observers w !! other.
Proof.
  intros this defaulted target w'. subst w'.
  unfold completion, exec, MutationObserver_new.
  step.
  fold this.
  set (wa := set_observers (λ os, os ++ [MutationObserver.blank]) w).
  assert (observers wa !! this = Some MutationObserver.blank) as Hwa.
  { subst wa this. simpl. by rewrite list_lookup_middle. }
  set (w0 := set_observers (alter (MutationObserver.set_options (Some defaulted)) this) wa).
  assert (observers w0 !! this
          = Some (MutationObserver.set_options (Some defaulted) MutationObserver.blank))
    as Hw0.
  { subst w0. change (observers (set_observers ?f ?x)) with (f (observers x)).
    by rewrite list_lookup_alter_eq, Hwa. }
  assert (∀ other, (other < this)%nat → observers w0 !! other = observers w !! other)
    as Hothers.
  { intros other Hlt. subst w0 wa.
    change (observers (set_observers ?f ?x)) with (f (observers x)).
    rewrite list_lookup_alter_ne by lia. simpl. apply lookup_app_l. by subst this. }
  assert (setOptions this (Some options) wa = updateSharedMutation this w0) as Hset.
  { apply MutationObserver_setOptions_first. unfold this_. by rewrite Hwa. }
  assert (this_ this w0
          = MutationObserver.set_options (Some defaulted) MutationObserver.blank) as Hme0.
  { unfold this_. by rewrite Hw0. }
  assert (heap w0 = heap w) as Hheap0 by done.
  assert (cache w0 = cache w) as Hcache0 by done.
  assert (journal w0 = journal w) as Hjournal0 by done.
  assert (bound this w0 = None) as Hbound0 by (unfold bound; by rewrite Hme0).
  assert (observed_state this w0 = getDefaultState) as Hidle
    by (unfold observed_state; by rewrite Hbound0).
  pose proof (MutationObserver_updateSharedMutation_run this w0) as Hrun.
  cbv zeta in Hrun. rewrite Hbound0, Hme0 in Hrun.
  change (default MutationOptions.empty
            (MutationObserver.options
               (MutationObserver.set_options (Some defaulted) MutationObserver.blank)))
    with defaulted in Hrun.
  unfold MutationCache_get in Hrun. rewrite Hcache0 in Hrun.
  rewrite <- Hset in Hrun. clear Hset. clearbody w0.
  pose proof (truthy_key_of_None (MutationOptions.mutationKey defaulted)) as Hkey.
  subst target.
  destruct (truthy_bool (MutationOptions.shareable defaulted)); cbn [negb andb] in *.
  - destruct (truthy_key_of (MutationOptions.mutationKey defaulted)) as [key|].
    + assert (truthy_key (MutationOptions.mutationKey defaulted) = true) as ->.
      { destruct (truthy_key _); [done|]. by destruct Hkey as [_ ?%symmetry]. }
      cbn [negb mbind option_bind]. unfold MutationCache_get.
      destruct (MutationCache.mutationsMap (cache w) !! hashMutationKeyByOptions key defaulted)
        as [mutation|] eqn:Hget.
      * rewrite bool_decide_false in Hrun by done.
        erewrite bind_returned by exact Hrun.
        step_by MutationObserver_updateResult_run. unfold mret, M_ret. cbn [fst snd].
        set (w1 := rebound this (Some mutation) w0) in *.
        assert (observers w1 !! this =
                  Some (MutationObserver.set_currentMutation (Some mutation)
                          (MutationObserver.set_options (Some defaulted)
                             MutationObserver.blank))) as Hw1.
        { subst w1. by rewrite observers_rebound, list_lookup_alter_eq, Hw0. }
        assert (observed_state this w1 = Mutation_state mutation w) as Hstate.
        { unfold observed_state, bound, this_. rewrite Hw1. simpl.
          unfold Mutation_state.
          pose proof (heap_rebound this (Some mutation) w0 mutation) as Hh.
          fold w1 in Hh. rewrite Hheap0 in Hh.
          destruct (heap w1 !! mutation) as [[]|], (heap w !! mutation) as [[]|];
            by simplify_eq/=. }
        rewrite Hstate.
        set (w2 := set_observers (alter (MutationObserver.set_currentResult
                     (MutationObserverResult.of_state (Mutation_state mutation w))) this) w1).
        assert (observers w2 !! this =
                  Some (MutationObserver.set_currentResult
                          (MutationObserverResult.of_state (Mutation_state mutation w))
                          (MutationObserver.set_currentMutation (Some mutation)
                             (MutationObserver.set_options (Some defaulted)
                                MutationObserver.blank)))) as Hw2.
        { subst w2. change (observers (set_observers ?f ?x)) with (f (observers x)).
          by rewrite list_lookup_alter_eq, Hw1. }
        assert (observed_state this w2 = Mutation_state mutation w) as Hstate2.
        { unfold observed_state, bound, this_. rewrite Hw2. simpl.
          rewrite <- Hstate. unfold observed_state, bound, this_. by rewrite Hw1. }
        rewrite Hstate2.
        assert (heap w1 = alter (Mutation.set_observers
                  (λ os, if bool_decide (this ∈ os) then os else os ++ [this])) mutation
                  (heap w)) as Hheap1.
        { subst w1. unfold rebound. rewrite Hbound0. simpl. by rewrite Hheap0. }
        assert (journal w1 = journal w ∧ cache w1 = cache w) as [Hjournal1 Hcache1].
        { subst w1. unfold rebound. rewrite Hbound0. simpl. done. }
        change (observers (set_observers ?f ?x)) with (f (observers x)).
        change (heap (set_observers ?f w2)) with (heap w1).
        change (journal (set_observers ?f w2)) with (journal w1).
        change (cache (set_observers ?f w2)) with (cache w1).
        unfold Mutation_observers.
        change (heap (set_observers ?f w2)) with (heap w1).
        split_and!.
        -- done.
        -- by rewrite list_lookup_alter_eq, Hw2.
        -- intros ? [= <-] [object Hobject].
           rewrite Hheap1, list_lookup_alter_eq, Hobject. simpl.
           case_bool_decide; [done|]. apply elem_of_app. right. by left.
        -- done.
        -- done.
        -- by rewrite Hheap1, length_alter.
        -- intros other Hlt. rewrite list_lookup_alter_ne by lia.
           subst w2. change (observers (set_observers ?f ?x)) with (f (observers x)).
           rewrite list_lookup_alter_ne by lia.
           subst w1. rewrite observers_rebound, list_lookup_alter_ne by lia.
           by apply Hothers.
      * rewrite bool_decide_true in Hrun by done.
        erewrite bind_returned by exact Hrun.
        step_by MutationObserver_updateResult_run. unfold mret, M_ret. cbn [fst snd].
    rewrite Hidle.
        change (observers (set_observers ?f ?x)) with (f (observers x)).
        change (heap (set_observers ?f w0)) with (heap w0).
        change (journal (set_observers ?f w0)) with (journal w0).
        change (cache (set_observers ?f w0)) with (cache w0).
        split_and!; [done| |done|done|done|by rewrite Hheap0|].
        -- by rewrite list_lookup_alter_eq, Hw0.
        -- intros other Hlt. rewrite list_lookup_alter_ne by lia. by apply Hothers.
    + assert (truthy_key (MutationOptions.mutationKey defaulted) = false) as ->
        by by apply Hkey.
      cbn [negb]. erewrite bind_thrown by exact Hrun. done.
  - erewrite bind_returned by exact Hrun.
    step_by MutationObserver_updateResult_run. unfold mret, M_ret. cbn [fst snd].
    rewrite Hidle.
    change (observers (set_observers ?f ?x)) with (f (observers x)).
    change (heap (set_observers ?f w0)) with (heap w0).
    change (journal (set_observers ?f w0)) with (journal w0).
    change (cache (set_observers ?f w0)) with (cache w0).
    split_and!; [done| |done|done|done|by rewrite Hheap0|].
    + by rewrite list_lookup_alter_eq, Hw0.
    + intros other Hlt. rewrite list_lookup_alter_ne by lia. by apply Hothers.
Qed.

Lemma MutationObserver_updateSharedMutation_thrown this w error :
  completion (updateSharedMutation this) w = Thrown error →
  error = shareable_needs_key ∧ exec (updateSharedMutation this) w = w.
Proof.
  unfold completion, exec. rewrite MutationObserver_updateSharedMutation_run. cbv zeta.
  destruct (negb _); [done|].
  destruct (truthy_key_of _); [|by intros [= <-]].
  by case_bool_decide.
Qed.

Lemma shareable_errors_differ : shareable_changed ≠ shareable_needs_key.
Proof. intros H. vm_compute in H. discriminate H. Qed.

(** X12.  [setOptions] throws the error of a changed flag exactly when the
    observer already has options and their [shareable] is not the
    [shareable] of the options handed in, before defaults ([undefined]
    when none are handed in).  Whatever [setOptions] throws, it is that
    error or the one that asks for a key, and the store is then the one
    in which the new options have been stored and nothing else has
    changed. *)
Theorem setOptions_throws this options w :
  let stored :=
    set_observers (alter (MutationObserver.set_options
      (Some (defaultMutationOptions options))) this) w in
  (completion (setOptions this options) w = Thrown shareable_changed
   ↔ ∃ prev, MutationObserver.options (this_ this w) = Some prev
       ∧ MutationOptions.shareable prev ≠ options ≫= MutationOptions.shareable)
  ∧ ∀ error,
      completion (setOptions this options) w = Thrown error →
      (error = shareable_changed ∨ error = shareable_needs_key)
      ∧ exec (setOptions this options) w = stored.
Proof.
  intros stored. unfold completion, exec, MutationObserver_setOptions.
  step.
  step.
  fold stored.
  pose proof (MutationObserver_updateSharedMutation_thrown this stored) as Hthrown.
  unfold completion, exec in Hthrown.
  destruct (MutationObserver.options (this_ this w)) as [prev|].
  - case_bool_decide as Hchanged.
    + split; [split; [by exists prev|done]|]. intros error [= <-]. split; [by left|done].
    + split.
      * split.
        -- intros [Hneeds _]%Hthrown. by destruct shareable_errors_differ.
        -- intros (? & [= <-] & ?). done.
      * intros error [-> ?]%Hthrown. split; [by right|done].
  - split.
    + split.
      * intros [Hneeds _]%Hthrown. by destruct shareable_errors_differ.
      * by intros (? & ? & _).
    + intros error [-> ?]%Hthrown. split; [by right|done].
Qed.

(** ** The results of the observers *)

Lemma observers_flush_outermost w : observers (flush_outermost w) = observers w.
Proof. unfold flush_outermost. by destruct (depth w). Qed.

Lemma heap_flush_outermost w : heap (flush_outermost w) = heap w.
Proof. unfold flush_outermost. by destruct (depth w). Qed.

Lemma cache_flush_outermost w : cache (flush_outermost w) = cache w.
Proof. unfold flush_outermost. by destruct (depth w). Qed.

Lemma observed_state_frame this w w' :
  heap w' = heap w →
  MutationObserver.currentMutation <$> observers w' !! this
    = MutationObserver.currentMutation <$> observers w !! this →
  observed_state this w' = observed_state this w.
Proof.
  intros Hheap Hbound. unfold observed_state, bound, this_, Mutation_state.
  rewrite Hheap.
  destruct (observers w' !! this) as [o'|], (observers w !! this) as [o|];
    simpl in *; try done.
  destruct o, o'. simpl in *. by simplify_eq.
Qed.

Lemma forEach_onMutationUpdate_observers os action w :
  ∃ w', forEach os (λ observer, MutationObserver_onMutationUpdate observer action) w
          = (Returned tt, w')
    ∧ heap w' = heap w
    ∧ cache w' = cache w
    ∧ ∀ other,
        observers w' !! other =
          if bool_decide (other ∈ os)
          then MutationObserver.set_currentResult
                 (MutationObserverResult.of_state (observed_state other w))
                 <$> observers w !! other
          else observers w !! other.
Proof.
  revert w. induction os as [|o os IH]; intros w.
  - exists w. split_and!; [done..|]. intros other.
    rewrite bool_decide_false; [done|apply not_elem_of_nil].
  - simpl. unfold mbind at 1, M_bind at 1.
    rewrite MutationObserver_onMutationUpdate_run. cbv zeta.
    match goal with |- context [forEach os _ ?W] => set (w1 := W) end.
    assert (observers w1 = alter (MutationObserver.set_currentResult
              (MutationObserverResult.of_state (observed_state o w))) o (observers w))
      as Hobs1 by (subst w1; by rewrite observers_flush_outermost).
    assert (heap w1 = heap w) as Hheap1 by (subst w1; by rewrite heap_flush_outermost).
    assert (cache w1 = cache w) as Hcache1 by (subst w1; by rewrite cache_flush_outermost).
    assert (∀ other, observed_state other w1 = observed_state other w) as Hstate1.
    { intros other. apply observed_state_frame; [done|].
      rewrite Hobs1, list_lookup_alter. case_decide; [|done]. subst.
      by destruct (observers w !! other). }
    clearbody w1.
    destruct (IH w1) as (w' & Hrun & Hheap & Hcache & Hobs).
    exists w'. split_and!; [done|congruence|congruence|].
    intros other. rewrite Hobs, Hstate1, Hobs1, list_lookup_alter.
    destruct (decide (o = other)) as [->|Hne].
    + rewrite (bool_decide_true (other ∈ other :: os)) by by left.
      case_bool_decide; by destruct (observers w !! other).
    + case_bool_decide as Hin.
      * rewrite bool_decide_true by by right. done.
      * rewrite bool_decide_false; [done|]. by intros [?|?]%elem_of_cons.
Qed.

Lemma Mutation_dispatch_observers mutation action w :
  ∃ w', Mutation_dispatch mutation action w = (Returned tt, w')
    ∧ heap w' = alter (Mutation.set_state (λ s, reducer s action)) mutation (heap w)
    ∧ cache w' = cache w
    ∧ ∀ other,
        observers w' !! other =
          if bool_decide (other ∈ Mutation_observers mutation w)
          then MutationObserver.set_currentResult
                 (MutationObserverResult.of_state
                    (observed_state other
                       (set_heap (alter (Mutation.set_state (λ s, reducer s action)) mutation)
                          w)))
                 <$> observers w !! other
          else observers w !! other.
Proof.
  unfold Mutation_dispatch.
  step.
  step.
  set (w1 := set_heap (alter (Mutation.set_state (λ s, reducer s action)) mutation) w).
  assert (Mutation_observers mutation w1 = Mutation_observers mutation w) as ->.
  { unfold Mutation_observers. subst w1. simpl. rewrite list_lookup_alter.
    case_decide; [|done]. by destruct (heap w !! mutation). }
  destruct (forEach_onMutationUpdate_observers (Mutation_observers mutation w) action w1)
    as (w' & Hrun & Hheap & Hcache & Hobs).
  exists w'. by split_and!.
Qed.

(** ** [mutate], step by step *)

Lemma MutationCache_build_store options state w :
  build options state w = (Returned (length (heap w)), exec (build options state) w)
  ∧ observers (exec (build options state) w) = observers w
  ∧ heap (exec (build options state) w) =
      heap w ++ [ {| Mutation.mutationId := MutationCache.mutationId (cache w) + 1;
                     Mutation.mutationHash := build_hash options;
                     Mutation.options := defaultMutationOptions (Some options);
                     Mutation.defaultOptions :=
                       truthy_key_of (MutationOptions.mutationKey options)
                         ≫= getMutationDefaults;
                     Mutation.state := default getDefaultState state;
                     Mutation.observers := [] |} ].
Proof. unfold exec. by rewrite MutationCache_build_run. Qed.

Lemma MutationObserver_mutate_run this variables options w :
  let new := length (heap w) in
  let built := mutate_options this variables w in
  let w0 := set_observers (alter (MutationObserver.set_mutateOptions options) this) w in
  let w1 :=
    match bound this w with
    | Some current =>
        set_heap (alter (Mutation.set_observers (filter (λ x, x ≠ this))) current) w0
    | None => w0
    end in
  let w2 := exec (build built None) w1 in
  let w3 :=
    set_heap (alter (Mutation.set_observers
                (λ os, if bool_decide (this ∈ os) then os else os ++ [this])) new)
      (set_observers (alter (MutationObserver.set_currentMutation (Some new)) this) w2) in
  mutate this variables options w = Mutation_execute operation new w3.
Proof.
  intros new built w0 w1 w2 w3.
  unfold MutationObserver_mutate.
  step.
  step.
  fold w0.
  assert (MutationObserver.currentMutation (this_ this w0) = bound this w) as ->.
  { subst w0. rewrite this_alter, decide_True by done. unfold bound, this_.
    by destruct (observers w !! this). }
  step_by remove_current_run.
  fold w1.
  step.
  assert (default MutationOptions.empty (MutationObserver.options (this_ this w1))
          = default MutationOptions.empty (MutationObserver.options (this_ this w))) as ->.
  { assert (this_ this w1 = this_ this w0) as -> by (subst w1; by destruct (bound this w)).
    subst w0. rewrite this_alter, decide_True by done. unfold this_.
    by destruct (observers w !! this). }
  fold (mutate_options this variables w). fold built.
  assert (length (heap w1) = new) as Hlen1.
  { subst w1 new. destruct (bound this w); [|done].
    change (heap (set_heap ?g ?x)) with (g (heap x)). by rewrite length_alter. }
  destruct (MutationCache_build_store built None w1) as (Hbuild & _).
  rewrite Hlen1 in Hbuild. fold w2 in Hbuild.
  erewrite bind_returned by exact Hbuild.
  step.
  step.
  done.
Qed.

Lemma MutationObserver_mutate_observers this variables options w :
  let new := length (heap w) in
  ∃ w' state,
    mutate this variables options w = (Returned (Mutation_settle operation new), w')
    ∧ (∀ other, other ≠ this → observers w' !! other = observers w !! other)
    ∧ observers w' !! this =
        (λ me, MutationObserver.set_currentResult (MutationObserverResult.of_state state)
                 (MutationObserver.set_currentMutation (Some new)
                    (MutationObserver.set_mutateOptions options me)))
          <$> observers w !! this.
Proof.
  intros new. rewrite MutationObserver_mutate_run. cbv zeta. fold new.
  set (built := mutate_options this variables w).
  set (w0 := set_observers (alter (MutationObserver.set_mutateOptions options) this) w).
  set (w1 := match bound this w with Some _ => _ | None => _ end).
  assert (length (heap w1) = new) as Hlen1.
  { subst w1 new. destruct (bound this w); [|done].
    change (heap (set_heap ?g ?x)) with (g (heap x)). by rewrite length_alter. }
  assert (observers w1 = observers w0) as Hobs1 by (subst w1; by destruct (bound this w)).
  destruct (MutationCache_build_store built None w1) as (_ & Hobs2 & Hheap2).
  set (w2 := exec (build built None) w1) in *.
  match goal with |- context [Mutation_execute _ _ ?W] => set (w3 := W) end.
  assert (observers w3 = alter (MutationObserver.set_currentMutation (Some new)) this
                           (alter (MutationObserver.set_mutateOptions options) this
                              (observers w))) as Hobs3.
  { subst w3. simpl. by rewrite Hobs2, Hobs1. }
  assert (Mutation_observers new w3 = [this]) as Hset.
  { unfold Mutation_observers. subst w3. simpl.
    rewrite list_lookup_alter_eq, Hheap2, <- Hlen1, list_lookup_middle by done.
    done. }
  clearbody w3. unfold Mutation_execute.
  step.
  match goal with |- context [Mutation_dispatch new ?a] =>
    destruct (Mutation_dispatch_observers new a w3) as (w' & Hrun & _ & _ & Hobs) end.
  erewrite bind_returned by exact Hrun.
  rewrite Hset in Hobs.
  eexists w', _. split; [done|]. split.
  - intros other Hne. rewrite Hobs, bool_decide_false
      by (by intros ?%list_elem_of_singleton).
    by rewrite Hobs3, !list_lookup_alter_ne.
  - rewrite Hobs, bool_decide_true by apply list_elem_of_singleton, eq_refl.
    rewrite Hobs3, !list_lookup_alter_eq.
    destruct (observers w !! this); done.
Qed.

Lemma Mutation_state_rebound this target mutation w :
  Mutation_state mutation (rebound this target w) = Mutation_state mutation w.
Proof.
  pose proof (heap_rebound this target w mutation) as H. unfold Mutation_state.
  destruct (heap (rebound this target w) !! mutation) as [[]|],
    (heap w !! mutation) as [[]|]; by simplify_eq/=.
Qed.

(** X13.  A shareable observer follows the triggers of another one only
    when it looks: [mutate] on one observer leaves another observer, whose
    hash is the one of the build, as it was, bound to what it was bound
    to, while the index now holds the new Mutation; the next
    [updateSharedMutation] of that observer binds it to the new Mutation,
    registers it there after the observer that triggered, and gives it
    the view of the state of that Mutation.  The other observer may be
    registered with the Mutation it is bound to or not; its reference, if
    it has one, is to an object of the store. *)
Theorem passive_observer_follows this other variables options key w :
  other ≠ this →
  (this < length (observers w))%nat →
  allocated_reference other w →
  let watching := default MutationOptions.empty (MutationObserver.options (this_ other w)) in
  truthy_bool (MutationOptions.shareable watching) = true →
  truthy_key_of (MutationOptions.mutationKey watching) = Some key →
  truthy_hash_of (build_hash (mutate_options this variables w))
    = Some (hashMutationKeyByOptions key watching) →
  let new := length (heap w) in
  let w1 := exec (mutate this variables options) w in
  let w2 := exec (updateSharedMutation other) w1 in
  observers w1 !! other = observers w !! other
  ∧ MutationCache_get (hashMutationKeyByOptions key watching) w1 = Some new
  ∧ bound other w2 = Some new
  ∧ Mutation_observers new w2 = [this; other]
  ∧ MutationObserver_getCurrentResult other w2
      = MutationObserverResult.of_state (Mutation_state new w1).
Proof.
  intros Hne Hthis Hinv watching Hshareable Hkey Hhash new w1 w2.
  destruct (MutationObserver_mutate_effect this variables options w Hthis)
    as (w' & Hrun & Hb & Hother & Hopt & Hlen & Hheap & Hid & Hold & Hcid
        & Hall & Hmap & Hobs & Hrest).
  destruct (MutationObserver_mutate_observers this variables options w)
    as (w'' & state & Hrun' & Hothers & _).
  rewrite Hrun in Hrun'. injection Hrun' as <-.
  fold new in Hobs.
  assert (w1 = w') as Hw1 by (subst w1; unfold exec; by rewrite Hrun).
  clearbody w1. subst w1.
  specialize (Hothers other Hne).
  assert (this_ other w' = this_ other w) as Hsame by (unfold this_; by rewrite Hothers).
  assert (is_Some (observers w' !! other)) as [me Hme].
  { rewrite Hothers. subst watching. unfold this_ in Hshareable.
    destruct (observers w !! other); [by eexists|done]. }
  assert (MutationCache_get (hashMutationKeyByOptions key watching) w' = Some new) as Hget.
  { unfold MutationCache_get. rewrite Hmap, Hhash. apply lookup_insert_eq. }
  assert (bound other w' ≠ Some new) as Hfresh.
  { unfold bound. rewrite Hsame. intros Hbound.
    apply Hinv, lookup_lt_is_Some in Hbound. subst new. lia. }
  assert (is_Some (heap w' !! new)) as Hnew by (apply lookup_lt_is_Some; subst new; lia).
  subst w2. unfold exec at 1 2 3.
  rewrite MutationObserver_updateSharedMutation_run. cbv zeta.
  rewrite Hsame. fold watching. rewrite Hshareable, Hkey. cbn [negb].
  rewrite Hget, bool_decide_false by done. cbn [snd].
  set (w2 := rebound other (Some new) w').
  assert (observers w2 !! other
          = Some (MutationObserver.set_currentMutation (Some new) me)) as Hme2.
  { subst w2. by rewrite observers_rebound, list_lookup_alter_eq, Hme. }
  assert (observed_state other w2 = Mutation_state new w') as Hstate.
  { unfold observed_state, bound, this_. rewrite Hme2. simpl.
    apply Mutation_state_rebound. }
  rewrite Hstate.
  split_and!.
  - done.
  - done.
  - unfold bound, this_.
    change (observers (set_observers ?f ?x)) with (f (observers x)).
    by rewrite list_lookup_alter_eq, Hme2.
  - change (Mutation_observers new (set_observers ?f w2)) with (Mutation_observers new w2).
    subst w2. rewrite Mutation_observers_rebound by done.
    rewrite decide_True, decide_False, Hobs by done. simpl.
    rewrite bool_decide_false; [done|]. by intros ?%list_elem_of_singleton.
  - unfold MutationObserver_getCurrentResult, this_.
    change (observers (set_observers ?f ?x)) with (f (observers x)).
    by rewrite list_lookup_alter_eq, Hme2.
Qed.

Lemma Mutation_dispatch_unobserved mutation action w :
  Mutation_observers mutation w = [] →
  Mutation_dispatch mutation action w =
    (Returned tt,
     set_heap (alter (Mutation.set_state (λ s, reducer s action)) mutation) w).
Proof.
  intros Hnone. unfold Mutation_dispatch.
  step.
  step.
  assert (Mutation_observers mutation
            (set_heap (alter (Mutation.set_state (λ s, reducer s action)) mutation) w)
          = []) as ->; [|done].
  rewrite <- Hnone. unfold Mutation_observers. simpl. rewrite list_lookup_alter.
  case_decide; [|done]. by destruct (heap w !! mutation).
Qed.

(** X14.  An observer that triggers again stops hearing of the earlier
    Mutation: after a second [mutate] the Mutation of the first call has
    no observer left, and when it settles, its state becomes success or
    error but nothing is called: none of the callbacks of either call,
    and no listener. *)
Theorem mutate_again_orphans this variables1 options1 variables2 options2 w :
  (this < length (observers w))%nat →
  let first := length (heap w) in
  let w1 := exec (mutate this variables1 options1) w in
  let w2 := exec (mutate this variables2 options2) w1 in
  let w3 := exec (Mutation_settle operation first) w2 in
  Mutation_observers first w1 = [this]
  ∧ Mutation_observers first w2 = []
  ∧ bound this w2 = Some (S first)
  ∧ added (Mutation_settle operation first) w2 = []
  ∧ observers w3 = observers w2
  ∧ (MutationState.status (Mutation_state first w3) = Success
     ∨ MutationState.status (Mutation_state first w3) = Error).
Proof.
  intros Hthis first w1 w2 w3.
  destruct (MutationObserver_mutate_effect this variables1 options1 w Hthis)
    as (w1' & Hrun1 & Hb1 & _ & _ & Hlen1 & Hheap1 & _ & _ & _ & _ & _ & Hobs1 & _).
  assert (w1 = w1') as Hw1 by (subst w1; unfold exec; by rewrite Hrun1).
  clearbody w1. subst w1'.
  fold first in Hobs1.
  rewrite <- Hlen1 in Hthis.
  destruct (MutationObserver_mutate_effect this variables2 options2 w1 Hthis)
    as (w2' & Hrun2 & Hb2 & _ & _ & _ & Hheap2 & _ & _ & _ & _ & _ & _ & Hrest2).
  assert (w2 = w2') as Hw2 by (subst w2; unfold exec; by rewrite Hrun2).
  clearbody w2. subst w2'.
  assert (Mutation_observers first w2 = []) as Hnone.
  { rewrite Hrest2 by (subst first; lia). rewrite decide_True by done.
    rewrite Hobs1, filter_cons_False, filter_nil; [done|]. by intros []. }
  assert (is_Some (heap w2 !! first)) as [object Hobject].
  { apply lookup_lt_is_Some. subst first. lia. }
  assert (∃ action,
            (action = ActionSuccess (match operation object with inl d => d | inr e => e end)
             ∨ action = ActionError (match operation object with inl d => d | inr e => e end))
            ∧ w3 = set_heap (alter (Mutation.set_state (λ s, reducer s action)) first) w2)
    as (action & Haction & Hw3).
  { subst w3. unfold exec, Mutation_settle.
    step.
    rewrite Hobject. simpl. destruct (operation object) as [data|error].
    - erewrite bind_returned by by apply Mutation_dispatch_unobserved.
      eexists. split; [by left|done].
    - erewrite bind_returned by by apply Mutation_dispatch_unobserved.
      eexists. split; [by right|done]. }
  split_and!.
  - done.
  - done.
  - rewrite Hb2. by rewrite Hheap1.
  - unfold added. change (exec (Mutation_settle operation first) w2) with w3.
    rewrite Hw3. simpl. by rewrite drop_all.
  - by rewrite Hw3.
  - rewrite Hw3. unfold Mutation_state. simpl.
    rewrite list_lookup_alter_eq, Hobject. simpl.
    destruct Haction as [->| ->]; [by left|by right].
Qed.

(** ** The flags of a result *)

Lemma derived_lookup w w' :
  (∀ this,
     observers w' !! this = observers w !! this
     ∨ ∃ me state, observers w' !! this = Some me
         ∧ MutationObserver.currentResult me = MutationObserverResult.of_state state) →
  derived w → derived w'.
Proof.
  intros Hstep Hinv this. unfold MutationObserver_getCurrentResult, this_.
  destruct (Hstep this) as [->|(me & state & -> & Hme)]; [apply Hinv|].
  by exists state.
Qed.

Lemma derived_frame w w' : observers w' = observers w → derived w → derived w'.
Proof. intros Hobs. apply derived_lookup. intros this. left. by rewrite Hobs. Qed.

Lemma derived_alter f this w :
  (∀ me, MutationObserver.currentResult (f me) = MutationObserver.currentResult me
         ∨ ∃ state, MutationObserver.currentResult (f me)
                    = MutationObserverResult.of_state state) →
  derived w → derived (set_observers (alter f this) w).
Proof.
  intros Hf Hinv other. unfold MutationObserver_getCurrentResult.
  rewrite this_alter. case_decide; [|apply Hinv]. subst.
  specialize (Hinv other). unfold MutationObserver_getCurrentResult, this_ in Hinv.
  destruct (observers w !! other) as [me|]; [|done]. simpl.
  destruct (Hf me) as [->|[state ->]]; [done|by exists state].
Qed.

Lemma derived_set_currentResult state this w :
  derived w →
  derived (set_observers (alter (MutationObserver.set_currentResult
             (MutationObserverResult.of_state state)) this) w).
Proof. apply derived_alter. intros me. right. by exists state. Qed.

Lemma derived_rebound this target w : derived w → derived (rebound this target w).
Proof.
  intros Hinv.
  apply (derived_frame (set_observers
           (alter (MutationObserver.set_currentMutation target) this) w)).
  - by rewrite observers_rebound.
  - apply derived_alter; [|done]. intros me. by left.
Qed.

Lemma derived_updateSharedMutation this w :
  derived w → derived (exec (updateSharedMutation this) w).
Proof.
  intros Hinv. unfold exec. rewrite MutationObserver_updateSharedMutation_run. cbv zeta.
  destruct (negb _); [done|].
  destruct (truthy_key_of _); [|done].
  case_bool_decide; [done|]. cbn [snd].
  by apply derived_set_currentResult, derived_rebound.
Qed.

Lemma derived_setOptions this options w :
  derived w → derived (exec (setOptions this options) w).
Proof.
  intros Hinv.
  assert (derived (set_observers (alter (MutationObserver.set_options
            (Some (defaultMutationOptions options))) this) w)) as Hinv0.
  { apply derived_alter; [|done]. intros me. by left. }
  destruct (MutationObserver_setOptions_effect this options w)
    as (c & w' & Hrun & [[-> ->]|Hshared]); unfold exec; rewrite Hrun; cbn [snd]; [done|].
  apply (derived_updateSharedMutation this) in Hinv0. unfold exec in Hinv0.
  by rewrite Hshared in Hinv0.
Qed.

Lemma derived_notified this options state w :
  derived w →
  derived (flush_outermost (record_all (notified this options
    (set_observers (alter (MutationObserver.set_currentResult
       (MutationObserverResult.of_state state)) this) w))
    (set_observers (alter (MutationObserver.set_currentResult
       (MutationObserverResult.of_state state)) this) w))).
Proof.
  intros Hinv.
  eapply derived_frame; [|by apply (derived_set_currentResult state this)].
  by rewrite observers_flush_outermost.
Qed.

Lemma derived_dispatch mutation action w :
  derived w → derived (exec (Mutation_dispatch mutation action) w).
Proof.
  destruct (Mutation_dispatch_observers mutation action w) as (w' & Hrun & _ & _ & Hobs).
  unfold exec. rewrite Hrun. cbn [snd]. apply derived_lookup. intros this.
  rewrite Hobs. case_bool_decide; [|by left].
  destruct (observers w !! this); [|by left]. right. by eexists _, _.
Qed.

Lemma one_status_of_state state : one_status (MutationObserverResult.of_state state).
Proof.
  unfold one_status, MutationObserverResult.of_state, MutationObserverResult.status_is.
  simpl. by destruct (MutationState.status state).
Qed.

(** X15.  The flags of a result: if every result of the store is a view
    derived from a state, then so is every result after [setOptions],
    [updateSharedMutation], [mutate], [reset], [onMutationUpdate],
    [onUnsubscribe], the constructor, and an event or the settlement of a
    Mutation; and then [getCurrentResult] has exactly one of [isIdle],
    [isLoading], [isSuccess] and [isError] set, the one of the status that
    it holds. *)
Theorem results_stay_derived this w :
  derived w →
  (∀ options, derived (exec (setOptions this options) w))
  ∧ derived (exec (updateSharedMutation this) w)
  ∧ (∀ variables options, derived (exec (mutate this variables options) w))
  ∧ derived (exec (MutationObserver_reset this) w)
  ∧ (∀ action, derived (exec (MutationObserver_onMutationUpdate this action) w))
  ∧ derived (exec (MutationObserver_onUnsubscribe this) w)
  ∧ (∀ options, derived (exec (new_observer options) w))
  ∧ (∀ mutation action, derived (exec (Mutation_dispatch mutation action) w))
  ∧ (∀ mutation, derived (exec (Mutation_settle operation mutation) w))
  ∧ one_status (MutationObserver_getCurrentResult this w)
  ∧ (MutationObserverResult.isIdle (MutationObserver_getCurrentResult this w) = true
     ↔ MutationState.status
         (MutationObserverResult.state (MutationObserver_getCurrentResult this w)) = Idle)
  ∧ (MutationObserverResult.isLoading (MutationObserver_getCurrentResult this w) = true
     ↔ MutationState.status
         (MutationObserverResult.state (MutationObserver_getCurrentResult this w)) = Loading)
  ∧ (MutationObserverResult.isSuccess (MutationObserver_getCurrentResult this w) = true
     ↔ MutationState.status
         (MutationObserverResult.state (MutationObserver_getCurrentResult this w)) = Success)
  ∧ (MutationObserverResult.isError (MutationObserver_getCurrentResult this w) = true
     ↔ MutationState.status
         (MutationObserverResult.state (MutationObserver_getCurrentResult this w)) = Error).
Proof.
  intros Hinv.
  assert (∀ other f, derived
            (set_observers (alter (MutationObserver.set_currentMutation f) other) w))
    as Hmoved.
  { intros other f. apply derived_alter; [|done]. intros me. by left. }
  split_and!.
  - intros options. by apply derived_setOptions.
  - by apply derived_updateSharedMutation.
  - intros variables options.
    destruct (MutationObserver_mutate_observers this variables options w)
      as (w' & state & Hrun & Hothers & Hme).
    unfold exec. rewrite Hrun. cbn [snd]. revert Hinv. apply derived_lookup.
    intros other. destruct (decide (other = this)) as [->|Hne]; [|left; by apply Hothers].
    rewrite Hme. destruct (observers w !! this); [|by left].
    right. by eexists _, state.
  - unfold exec. rewrite MutationObserver_reset_run. cbv zeta. cbn [snd].
    apply derived_notified, Hmoved.
  - intros action. unfold exec. rewrite MutationObserver_onMutationUpdate_run.
    cbv zeta. cbn [snd]. by apply derived_notified.
  - unfold exec, MutationObserver_onUnsubscribe.
    step.
    case_bool_decide; [|done].
    step.
    by destruct (MutationObserver.currentMutation (this_ this w)).
  - intros options. unfold exec, MutationObserver_new.
    step.
    set (wa := set_observers (λ os, os ++ [MutationObserver.blank]) w).
    assert (derived wa) as Hwa.
    { revert Hinv. apply derived_lookup. intros other. subst wa. simpl.
      destruct (decide (other < length (observers w))%nat) as [Hlt|Hge].
      - left. by apply lookup_app_l.
      - destruct (decide (other = length (observers w))) as [->|Hne].
        + right. eexists _, _. by rewrite list_lookup_middle.
        + left. rewrite !lookup_ge_None_2; [done|lia|]. rewrite length_app. simpl. lia. }
    pose proof (derived_setOptions (length (observers w)) (Some options) wa Hwa) as Hset.
    unfold exec in Hset. unfold mbind, M_bind.
    destruct (setOptions (length (observers w)) (Some options) wa) as [[[]|error] w0];
      [|done].
    cbn [snd] in Hset. rewrite MutationObserver_updateResult_run.
    unfold mret, M_ret. cbn [snd]. by apply derived_set_currentResult.
  - intros mutation action. by apply derived_dispatch.
  - intros mutation. unfold exec, Mutation_settle.
    step.
    destruct (operation <$> heap w !! mutation) as [[data|error]|]; [| |done].
    + pose proof (derived_dispatch mutation (ActionSuccess data) w Hinv) as Hd.
      unfold exec in Hd. unfold mbind, M_bind.
      by destruct (Mutation_dispatch mutation (ActionSuccess data) w) as [[[]|] w'].
    + pose proof (derived_dispatch mutation (ActionError error) w Hinv) as Hd.
      unfold exec in Hd. unfold mbind, M_bind.
      by destruct (Mutation_dispatch mutation (ActionError error) w) as [[[]|] w'].
  - destruct (Hinv this) as [state ->]. apply one_status_of_state.
  - destruct (Hinv this) as [state ->]. simpl.
    unfold MutationObserverResult.status_is. by destruct (MutationState.status state).
  - destruct (Hinv this) as [state ->]. simpl.
    unfold MutationObserverResult.status_is. by destruct (MutationState.status state).
  - destruct (Hinv this) as [state ->]. simpl.
    unfold MutationObserverResult.status_is. by destruct (MutationState.status state).
  - destruct (Hinv this) as [state ->]. simpl.
    unfold MutationObserverResult.status_is. by destruct (MutationState.status state).
Qed.

(** ** The ids and the journal of [build] *)

(** X16.  [build] issues a fresh id: in a store where no Mutation has an id
    above the counter, it returns a new object whose id is the counter
    plus one, above the id of every Mutation that was there; the ids of
    those are as they were, and no id is above the new counter.  The new
    Mutation is appended to the collection, has no observer, and no
    observer is touched. *)
Theorem build_issues_a_fresh_id options state w :
  ids_issued w →
  let new := length (heap w) in
  let w' := exec (build options state) w in
  completion (build options state) w = Returned new
  ∧ ids_issued w'
  ∧ mutationId_of new w = None
  ∧ mutationId_of new w' = Some (MutationCache.mutationId (cache w) + 1)
  ∧ (∀ mutation id, mutationId_of mutation w = Some id →
       mutationId_of mutation w' = Some id ∧ id < MutationCache.mutationId (cache w) + 1)
  ∧ MutationCache_getAll w' = MutationCache_getAll w ++ [new]
  ∧ Mutation_observers new w' = []
  ∧ observers w' = observers w.
Proof.
  intros Hinv new w'. subst w'.
  unfold completion, exec. rewrite MutationCache_build_run. cbv zeta. cbn [fst snd].
  assert (∀ mutation id, mutationId_of mutation w = Some id → (mutation < new)%nat)
    as Halloc.
  { intros mutation id. unfold mutationId_of. intros H. apply lookup_lt_is_Some.
    destruct (heap w !! mutation); [by eexists|done]. }
  unfold ids_issued, mutationId_of, MutationCache_getAll, Mutation_observers in *.
  simpl. fold new. split_and!.
  - done.
  - intros mutation id.
    destruct (decide (mutation < new)%nat) as [Hlt|Hge].
    + rewrite lookup_app_l by done. intros ?%Hinv. lia.
    + destruct (decide (mutation = new)) as [->|Hne].
      * rewrite list_lookup_middle by done. simpl. intros [= <-]. lia.
      * rewrite lookup_ge_None_2; [done|]. rewrite length_app. simpl. subst new. lia.
  - by rewrite lookup_ge_None_2.
  - by rewrite list_lookup_middle.
  - intros mutation id Hid. pose proof (Halloc _ _ Hid) as Hlt.
    rewrite lookup_app_l by done. split; [done|]. apply Hinv in Hid. lia.
  - done.
  - by rewrite list_lookup_middle.
  - done.
Qed.

(** X17.  [build] tells the listeners of the cache of the new Mutation
    before it writes the index: with a truthy hash, it pushes the Mutation
    onto the collection, calls every listener of the cache once, in their
    order, with the new Mutation, flushes if no batch is open, and only
    then assigns the hash in the index. *)
Theorem build_notifies_before_indexing options state hash w :
  truthy_hash_of (build_hash options) = Some hash →
  let new := length (heap w) in
  added (build options state) w =
    [CollectionPushed new]
      ++ ((λ listener, CacheListenerCalled listener (Some new))
            <$> MutationCache.listeners (cache w))
      ++ (if depth w is O then [Flushed] else [])
      ++ [IndexAssigned hash new].
Proof.
  intros Hhash new. apply added_app.
  unfold exec. rewrite MutationCache_build_run. cbv zeta. cbn [snd].
  by rewrite Hhash.
Qed.

(** ** [reset] and [onUnsubscribe], in general *)


(** X19.  An observer that has lost its last listener stays detached.
    When the only listener unsubscribes, the observer leaves the observer
    set of its Mutation and keeps the reference and the result.  A new
    subscription does not register it again, and neither does
    [updateSharedMutation] while the index holds that Mutation for its
    hash; an event of the Mutation then leaves the result of the observer
    as it is. *)
Theorem unsubscribed_observer_stays_detached this listener again current w :
  MutationObserver.listeners (this_ this w) = [listener] →
  bound this w = Some current →
  let options := default MutationOptions.empty (MutationObserver.options (this_ this w)) in
  let w1 := exec (MutationObserver_unsubscribe this listener) w in
  let w2 := exec (MutationObserver_subscribe this again) w1 in
  Mutation_observers current w2 = filter (λ x, x ≠ this) (Mutation_observers current w)
  ∧ bound this w2 = Some current
  ∧ MutationObserver.listeners (this_ this w2) = [again]
  ∧ MutationObserver_getCurrentResult this w2 = MutationObserver_getCurrentResult this w
  ∧ ((∀ key, truthy_key_of (MutationOptions.mutationKey options) = Some key →
        MutationCache_get (hashMutationKeyByOptions key options) w = Some current) →
     exec (updateSharedMutation this) w2 = w2)
  ∧ ∀ action,
      MutationObserver_getCurrentResult this (exec (Mutation_dispatch current action) w2)
        = MutationObserver_getCurrentResult this w.
Proof.
  intros Hlisteners Hbound options w1 w2.
  assert (∃ me, observers w !! this = Some me) as [me Hme].
  { unfold this_ in Hlisteners. destruct (observers w !! this); [by eexists|done]. }
  assert (this_ this w = me) as Hthis by (unfold this_; by rewrite Hme).
  rewrite Hthis in Hlisteners. unfold bound in Hbound. rewrite Hthis in Hbound.
  set (quiet := MutationObserver.set_listeners [] me).
  assert (w1 = set_heap (alter (Mutation.set_observers (filter (λ x, x ≠ this))) current)
                 (set_observers (alter (λ o, MutationObserver.set_listeners
                    (filter (λ x, x ≠ listener) (MutationObserver.listeners o)) o) this) w))
    as Hw1.
  { subst w1. unfold exec, MutationObserver_unsubscribe.
    step.
    unfold MutationObserver_onUnsubscribe.
    step.
    rewrite this_alter, decide_True, Hme by done. simpl. rewrite Hlisteners.
    rewrite filter_cons_False, filter_nil by (by intros []). simpl.
    step.
    rewrite this_alter, decide_True, Hme by done. simpl. by rewrite Hbound. }
  assert (observers w2 !! this = Some (MutationObserver.set_listeners [again] me)) as Hme2.
  { subst w2. unfold exec, MutationObserver_subscribe, modify. cbn [snd]. rewrite Hw1.
    simpl. rewrite !list_lookup_alter_eq, Hme. simpl. rewrite Hlisteners.
    by rewrite filter_cons_False, filter_nil by (by intros []). }
  assert (heap w2 = alter (Mutation.set_observers (filter (λ x, x ≠ this))) current (heap w))
    as Hheap2 by (subst w2; by rewrite Hw1).
  assert (cache w2 = cache w) as Hcache2 by (subst w2; by rewrite Hw1).
  assert (this_ this w2 = MutationObserver.set_listeners [again] me) as Hthis2
    by (unfold this_; by rewrite Hme2).
  assert (Mutation_observers current w2
          = filter (λ x, x ≠ this) (Mutation_observers current w)) as Hset.
  { unfold Mutation_observers. rewrite Hheap2, list_lookup_alter_eq.
    by destruct (heap w !! current). }
  clearbody w2 w1.
  split_and!.
  - done.
  - unfold bound. by rewrite Hthis2.
  - by rewrite Hthis2.
  - unfold MutationObserver_getCurrentResult. by rewrite Hthis2, Hthis.
  - intros Hindex. unfold exec.
    rewrite MutationObserver_updateSharedMutation_run. cbv zeta.
    unfold bound. rewrite Hthis2. simpl. rewrite Hbound.
    subst options. rewrite Hthis in Hindex.
    destruct (negb _); [done|].
    destruct (truthy_key_of _) as [key|] eqn:Hkey; [|done].
    unfold MutationCache_get in *. rewrite Hcache2, (Hindex key eq_refl).
    by rewrite bool_decide_true.
  - intros action.
    destruct (Mutation_dispatch_observers current action w2) as (w' & Hrun & _ & _ & Hobs).
    unfold exec. rewrite Hrun. cbn [snd].
    unfold MutationObserver_getCurrentResult, this_ at 1.
    rewrite Hobs, Hset, bool_decide_false, Hme2, Hthis.
    + done.
    + rewrite list_elem_of_filter. tauto.
Qed.

(** ** The calls of [mutate] *)



(** ** The notification, with the user's functions run *)

Lemma bind_done (m : M unit) w : (m ;; mret tt) w = m w.
Proof. unfold mbind, M_bind. by destruct (m w) as [[[]|error] w']. Qed.

Lemma forEach_app {A} (xs ys : list A) (f : A → M unit) w :
  forEach (xs ++ ys) f w = (forEach xs f ;; forEach ys f) w.
Proof.
  revert w. induction xs as [|x xs IH]; intros w; [done|].
  simpl. unfold mbind, M_bind.
  destruct (f x w) as [[[]|error] w']; [|done]. by rewrite IH.
Qed.

Lemma batch_ext {A} (callback1 callback2 : M A) w :
  callback1 (set_transactions S w) = callback2 (set_transactions S w) →
  batch callback1 w = batch callback2 w.
Proof. intros H. unfold batch, mbind, M_bind, modify. by rewrite H. Qed.

Lemma call_run this e w :
  leaves user this →
  ∃ w', call user e w = (Returned tt, w') ∧ this_ this w' = this_ this w.
Proof.
  intros Hleaves. unfold call.
  step.
  destruct (Hleaves e (record e w)) as [Hreturns Hthis].
  unfold completion, exec in *.
  destruct (user e (record e w)) as [c w']. simpl in *. subst c.
  by exists w'.
Qed.

Lemma forEach_call_run this es w :
  leaves user this →
  ∃ w', forEach es (call user) w = (Returned tt, w') ∧ this_ this w' = this_ this w.
Proof.
  intros Hleaves. revert w. induction es as [|e es IH]; intros w; [by exists w|].
  destruct (call_run this e w Hleaves) as (w1 & Hrun1 & Hthis1).
  destruct (IH w1) as (w2 & Hrun2 & Hthis2).
  exists w2. simpl. erewrite bind_returned by exact Hrun1.
  split; [done|congruence].
Qed.

Lemma call_scoped_run this callback e bundle w :
  MutationObserver.mutateOptions (this_ this w) = Some bundle →
  call_scoped user this callback e w =
    forEach (option_list ((λ f, e f (MutationObserverResult.state
                                       (MutationObserver.currentResult (this_ this w))))
                            <$> callback bundle))
      (call user) w.
Proof.
  intros Hbundle. unfold call_scoped.
  step.
  rewrite Hbundle. destruct (callback bundle) as [f|]; [|done].
  step.
  simpl. by rewrite bind_done.
Qed.

Lemma forEach_listeners_run this listeners w :
  leaves user this →
  forEach listeners (λ listener,
    currentResult ← gets (λ w, MutationObserver.currentResult (this_ this w)) ;
    call user (ListenerCalled listener currentResult)) w =
  forEach ((λ listener, ListenerCalled listener
              (MutationObserver.currentResult (this_ this w))) <$> listeners)
    (call user) w.
Proof.
  intros Hleaves. revert w. induction listeners as [|listener listeners IH]; intros w; [done|].
  simpl.
  destruct (call_run this
    (ListenerCalled listener (MutationObserver.currentResult (this_ this w))) w Hleaves)
    as (w1 & Hrun1 & Hthis1).
  erewrite bind_returned by (erewrite bind_returned by reflexivity; exact Hrun1).
  erewrite (bind_returned (call user _)) by exact Hrun1.
  rewrite IH. by rewrite Hthis1.
Qed.

Lemma notified_one_of_two this options w :
  (length (filter (λ e, is_success_or_error e = true) (notified this options w)) ≤ 1)%nat.
Proof.
  unfold notified, callbacks. rewrite filter_app, length_app.
  assert (length (filter (λ e, is_success_or_error e = true)
            (if truthy_bool (NotifyOptions.listeners options)
             then (λ listener, ListenerCalled listener
                     (MutationObserver.currentResult (this_ this w)))
                    <$> MutationObserver.listeners (this_ this w)
             else [])) = 0%nat) as ->.
  { destruct (truthy_bool _); [|done]. rewrite filter_none; [done|].
    intros e [l [-> _]]%list_elem_of_fmap. done. }
  destruct (MutationObserver.mutateOptions (this_ this w)) as [bundle|]; [|simpl; lia].
  destruct (truthy_bool (NotifyOptions.onSuccess options));
    [|destruct (truthy_bool (NotifyOptions.onError options)); [|simpl; lia]];
    destruct (MutateOptions.onSuccess bundle), (MutateOptions.onError bundle),
      (MutateOptions.onSettled bundle); simpl; lia.
Qed.

(** What [notify] does when the functions of the user return and leave the
    observer as it is: it makes the calls of [notified], in their order,
    each function running at its call, inside one batch.  Of the
    call-scoped [onSuccess] and [onError] at most one is among them
    ([notified_one_of_two]). *)
Lemma MutationObserver_notify_calling_run this options w :
  leaves user this →
  MutationObserver_notify_calling user this options w =
    batch (forEach (notified this options w) (call user)) w.
Proof.
  intros Hleaves. unfold MutationObserver_notify_calling. apply batch_ext.
  set (w0 := set_transactions S w).
  assert (this_ this w0 = this_ this w) as Hthis0 by done.
  unfold notified. rewrite forEach_app. rewrite <- Hthis0. clearbody w0.
  step.
  assert (∃ w1,
    match MutationObserver.mutateOptions (this_ this w0) with
    | Some _ =>
        if truthy_bool (NotifyOptions.onSuccess options) then
          call_scoped user this MutateOptions.onSuccess (λ f currentResult,
            OnSuccessCalled f (MutationState.data currentResult)
              (MutationState.variables currentResult)
              (MutationState.context currentResult)) ;;
          call_scoped user this MutateOptions.onSettled (λ f currentResult,
            OnSettledCalled f (MutationState.data currentResult) VNull
              (MutationState.variables currentResult)
              (MutationState.context currentResult))
        else if truthy_bool (NotifyOptions.onError options) then
          call_scoped user this MutateOptions.onError (λ f currentResult,
            OnErrorCalled f (MutationState.error currentResult)
              (MutationState.variables currentResult)
              (MutationState.context currentResult)) ;;
          call_scoped user this MutateOptions.onSettled (λ f currentResult,
            OnSettledCalled f VUndefined (MutationState.error currentResult)
              (MutationState.variables currentResult)
              (MutationState.context currentResult))
        else mret tt
    | None => mret tt
    end w0 = (Returned tt, w1)
    ∧ forEach (callbacks (MutationObserver.mutateOptions (this_ this w0)) options
                 (MutationObserverResult.state
                    (MutationObserver.currentResult (this_ this w0))))
        (call user) w0 = (Returned tt, w1)
    ∧ this_ this w1 = this_ this w0) as (w1 & Hrun & Hrun' & Hthis1).
  { unfold callbacks.
    destruct (MutationObserver.mutateOptions (this_ this w0)) as [bundle|] eqn:Hbundle;
      [|by exists w0].
    assert (∀ callback1 e1 callback2 e2, ∃ w1,
      (call_scoped user this callback1 e1 ;; call_scoped user this callback2 e2) w0
        = (Returned tt, w1)
      ∧ forEach
          (option_list ((λ f, e1 f (MutationObserverResult.state
                                     (MutationObserver.currentResult (this_ this w0))))
                          <$> callback1 bundle)
           ++ option_list ((λ f, e2 f (MutationObserverResult.state
                                        (MutationObserver.currentResult (this_ this w0))))
                             <$> callback2 bundle))
          (call user) w0 = (Returned tt, w1)
      ∧ this_ this w1 = this_ this w0) as Htwo.
    { intros callback1 e1 callback2 e2.
      destruct (forEach_call_run this
        (option_list ((λ f, e1 f (MutationObserverResult.state
                                   (MutationObserver.currentResult (this_ this w0))))
                        <$> callback1 bundle)) w0 Hleaves) as (w1 & Hrun1 & Hthis1).
      destruct (forEach_call_run this
        (option_list ((λ f, e2 f (MutationObserverResult.state
                                   (MutationObserver.currentResult (this_ this w0))))
                        <$> callback2 bundle)) w1 Hleaves) as (w2 & Hrun2 & Hthis2).
      exists w2. split_and!.
      - erewrite bind_returned
          by (rewrite (call_scoped_run this callback1 e1 bundle w0 Hbundle); exact Hrun1).
        rewrite (call_scoped_run this callback2 e2 bundle w1) by by rewrite Hthis1.
        by rewrite Hthis1.
      - rewrite forEach_app. by erewrite bind_returned by exact Hrun1.
      - congruence. }
    destruct (truthy_bool (NotifyOptions.onSuccess options)); [apply Htwo|].
    destruct (truthy_bool (NotifyOptions.onError options)); [apply Htwo|].
    by exists w0. }
  erewrite bind_returned by exact Hrun.
  erewrite bind_returned by exact Hrun'.
  destruct (truthy_bool (NotifyOptions.listeners options)); [|done].
  step.
  rewrite forEach_listeners_run by done. by rewrite Hthis1.
Qed.


(** ** The references of the observers *)

Lemma allocated_step w w' :
  (length (heap w) ≤ length (heap w'))%nat →
  (∀ other mutation, bound other w' = Some mutation →
     bound other w = Some mutation ∨ is_Some (heap w' !! mutation)) →
  (∀ hash mutation, MutationCache_get hash w' = Some mutation →
     MutationCache_get hash w = Some mutation ∨ is_Some (heap w' !! mutation)) →
  allocated w → allocated w'.
Proof.
  intros Hlen Hbound Hindex [Hinv1 Hinv2].
  assert (∀ mutation, is_Some (heap w !! mutation) → is_Some (heap w' !! mutation))
    as Hheap.
  { intros mutation H%lookup_lt_is_Some. apply lookup_lt_is_Some. lia. }
  split.
  - intros hash mutation Hget.
    destruct (Hindex hash mutation Hget) as [Hold|Hnew]; [|done].
    eapply Hheap, Hinv1, Hold.
  - intros other mutation Hb.
    destruct (Hbound other mutation Hb) as [Hold|Hnew]; [|done].
    by eapply Hheap, Hinv2.
Qed.

Lemma allocated_notifies w w' :
  notifies w w' →
  allocated w → allocated w'.
Proof.
  intros Hn. apply allocated_step.
  - by rewrite (notifies_heap _ _ Hn).
  - intros other mutation. rewrite (notifies_bound _ _ _ Hn). by left.
  - intros hash mutation. unfold MutationCache_get. rewrite (notifies_cache _ _ Hn).
    by left.
Qed.

Lemma allocated_rebound this target w :
  (∀ mutation, target = Some mutation → is_Some (heap w !! mutation)) →
  allocated w → allocated (rebound this target w).
Proof.
  intros Htarget.
  assert (length (heap (rebound this target w)) = length (heap w)) as Hlen.
  { unfold rebound. destruct (bound this w), target; cbn [heap set_heap set_observers];
      by rewrite ?length_alter. }
  apply allocated_step.
  - lia.
  - intros other mutation. unfold bound, this_.
    rewrite observers_rebound, list_lookup_alter.
    case_decide; [|by left]. subst.
    destruct (observers w !! other) as [me|]; [|by left]. simpl.
    intros ->. right. apply lookup_lt_is_Some. rewrite Hlen.
    by apply lookup_lt_is_Some, Htarget.
  - intros hash mutation Hget. left. revert Hget.
    unfold rebound. by destruct (bound this w), target.
Qed.

Lemma allocated_updateSharedMutation this w :
  allocated w → allocated (exec (updateSharedMutation this) w).
Proof.
  intros Hinv.
  destruct (MutationObserver_updateSharedMutation_effect this w)
    as (c & w' & Hrun & [->|(hash & Hne & -> & Hn)]);
    unfold exec; rewrite Hrun; cbn [snd]; [done|].
  eapply allocated_notifies; [exact Hn|].
  apply allocated_rebound; [|done]. intros mutation. apply Hinv.
Qed.

Lemma allocated_alter f this w :
  (∀ me, MutationObserver.currentMutation (f me) = MutationObserver.currentMutation me
         ∨ MutationObserver.currentMutation (f me) = None) →
  allocated w → allocated (set_observers (alter f this) w).
Proof.
  intros Hf. apply allocated_step; [done| |by left].
  intros other mutation. unfold bound. rewrite this_alter.
  case_decide; [|by left]. subst. unfold this_.
  destruct (observers w !! other) as [me|]; [|by left]. simpl.
  destruct (Hf me) as [->| ->]; [by left|done].
Qed.

(** The references of the observers and the entries of the index name
    objects of the store, and the methods keep it so.  *)
Lemma references_stay_allocated this w :
  (this < length (observers w))%nat →
  allocated w →
  (∀ options, allocated (exec (setOptions this options) w))
  ∧ allocated (exec (updateSharedMutation this) w)
  ∧ (∀ variables options, allocated (exec (mutate this variables options) w))
  ∧ allocated (exec (MutationObserver_reset this) w)
  ∧ allocated (exec (MutationObserver_onUnsubscribe this) w)
  ∧ (∀ options state, allocated (exec (build options state) w))
  ∧ (∀ mutation, allocated (exec (MutationCache_remove mutation) w)).
Proof.
  intros Hthis Hinv. split_and!.
  - intros options.
    assert (allocated (set_observers (alter (MutationObserver.set_options
              (Some (defaultMutationOptions options))) this) w)) as Hinv0.
    { apply allocated_alter; [|done]. intros me. by left. }
    destruct (MutationObserver_setOptions_effect this options w)
      as (c & w' & Hrun & [[-> ->]|Hshared]); unfold exec; rewrite Hrun; cbn [snd]; [done|].
    apply (allocated_updateSharedMutation this) in Hinv0. unfold exec in Hinv0.
    by rewrite Hshared in Hinv0.
  - by apply allocated_updateSharedMutation.
  - intros variables options.
    destruct (MutationObserver_mutate_effect this variables options w Hthis)
      as (w' & Hrun & Hb & Hother & _ & _ & Hheap & _ & _ & _ & _ & Hmap & _ & _).
    unfold exec. rewrite Hrun. cbn [snd]. revert Hinv. apply allocated_step.
    + lia.
    + intros other mutation Hbound. destruct (decide (other = this)) as [->|Hne].
      * right. rewrite Hb in Hbound. simplify_eq. apply lookup_lt_is_Some. lia.
      * left. by rewrite <- Hother.
    + intros hash mutation. unfold MutationCache_get. rewrite Hmap.
      destruct (truthy_hash_of _) as [built|]; [|by left].
      intros [[_ <-]|[_ Hold]]%lookup_insert_Some; [right|by left].
      apply lookup_lt_is_Some. lia.
  - eapply allocated_notifies; [apply MutationObserver_reset_notifies|].
    apply allocated_alter; [|done]. intros me. by right.
  - unfold exec, MutationObserver_onUnsubscribe.
    step.
    case_bool_decide; [|done].
    step.
    destruct (MutationObserver.currentMutation (this_ this w)) as [current|]; [|done].
    cbn [snd]. revert Hinv. apply allocated_step.
    + unfold Mutation_removeObserver, modify. cbn [snd heap set_heap].
      by rewrite length_alter.
    + intros other mutation. by left.
    + intros hash mutation. by left.
  - intros options state. unfold exec. rewrite MutationCache_build_run. cbv zeta.
    cbn [snd]. revert Hinv. apply allocated_step.
    + simpl. rewrite length_app. lia.
    + intros other mutation. by left.
    + intros hash mutation. unfold MutationCache_get. simpl.
      destruct (truthy_hash_of _) as [built|]; [|by left].
      intros [[_ <-]|[_ Hold]]%lookup_insert_Some; [right|by left].
      apply lookup_lt_is_Some. rewrite length_app. simpl. lia.
  - intros mutation. unfold exec. rewrite MutationCache_remove_run. cbv zeta.
    cbn [snd]. revert Hinv. apply allocated_step.
    + simpl. by rewrite length_alter.
    + intros other other_mutation. by left.
    + intros hash other_mutation. unfold MutationCache_get. simpl.
      destruct (truthy_hash_of _) as [removed|]; [|by left].
      intros [_ Hold]%lookup_delete_Some. by left.
Qed.

End Properties.

(** * The two notifications *)

Lemma forEach_call_inert es w :
  forEach es (call (λ _, mret tt)) w = (Returned tt, record_all es w).
Proof.
  revert w. induction es as [|e es IH]; intros w; simpl.
  - by rewrite record_all_nil.
  - unfold call, mbind, M_bind, modify, mret, M_ret. rewrite IH. unfold record.
    by rewrite record_all_app.
Qed.

(** [notify] as the rest of the development has it is [notify] at functions
    that do nothing. *)
Lemma MutationObserver_notify_inert this options w :
  MutationObserver_notify_calling (λ _, mret tt) this options w
    = MutationObserver_notify this options w.
Proof.
  rewrite MutationObserver_notify_run.
  rewrite MutationObserver_notify_calling_run by done.
  by rewrite batch_run, forEach_call_inert.
Qed.

(** * The properties on the examples *)

(** C1, on an example: with [{shareable: true}] and no key, [build] returns
    a Mutation and the collection holds it; nothing is thrown. *)
Lemma build_shareable_without_key_returns :
  ¬ (∃ e, completion (Example.build Example.shareable_without_key None) initial = Thrown e
          ∧ MutationCache_getAll (exec (Example.build Example.shareable_without_key None) initial)
              = MutationCache_getAll initial).
Proof. intros (e & He & _). vm_compute in He. discriminate He. Qed.

Lemma build_shareable_without_key_witness :
  MutationOptions.shareable Example.shareable_without_key = Some true
  ∧ MutationOptions.mutationKey Example.shareable_without_key = None
  ∧ completion (Example.build Example.shareable_without_key None) initial = Returned 0%nat
  ∧ MutationCache_getAll (exec (Example.build Example.shareable_without_key None) initial)
      = [0%nat].
Proof.
  split; [reflexivity|]. split; [reflexivity|].
  pose proof (build_shareable_without_key Example.defaultMutationOptions
    Example.getMutationDefaults Example.hashMutationKeyByOptions
    Example.shareable_without_key None initial eq_refl eq_refl) as H.
  split; [apply H|apply H].
Defined.

(** C4, on an example: when [remove] calls [cancel()], the Mutation has left
    the collection and the hash index; [cancel()] comes before neither. *)
Lemma remove_cancels_after_detaching :
  0%nat ∈ MutationCache_getAll Example.one_shared
  ∧ MutationCache_get "k" Example.one_shared = Some 0%nat
  ∧ added (MutationCache_remove 0%nat) Example.one_shared
      = [CollectionAssigned []; IndexDeleted "k"; CancelCalled 0%nat;
         CacheListenerCalled 9%nat (Some 0%nat); Flushed]
  ∧ ¬ precedes is_cancel is_collection_assigned
        (added (MutationCache_remove 0%nat) Example.one_shared)
  ∧ ¬ precedes is_cancel is_index_deleted
        (added (MutationCache_remove 0%nat) Example.one_shared).
Proof.
  split_and!.
  - vm_compute. left.
  - reflexivity.
  - reflexivity.
  - vm_compute. lia.
  - vm_compute. lia.
Qed.

(** C9, on an example: three Mutations, one flush. *)
Example clear_three_mutations :
  MutationCache_getAll Example.three_mutations = [0; 1; 2]%nat
  ∧ MutationCache_getAll (exec MutationCache_clear Example.three_mutations) = []
  ∧ count_flushes (added MutationCache_clear Example.three_mutations) = 1%nat
  ∧ length (filter (λ e, is_cancel e = true)
              (added MutationCache_clear Example.three_mutations)) = 3%nat.
Proof. vm_compute. done. Qed.

Lemma remove_unindexes_the_hash_witness :
  build_mutationHash Example.hashMutationKeyByOptions Example.shared_k = Some "k"
  ∧ truthy_string "k" = true
  ∧ let w2 := exec (Example.build Example.shared_k None ;; Example.build Example.shared_k None)
                initial in
    MutationCache_get "k" w2 = Some 1%nat
    ∧ MutationCache_get "k" (exec (MutationCache_remove 0%nat) w2) = None
    ∧ 1%nat ∈ MutationCache_getAll (exec (MutationCache_remove 0%nat) w2).
Proof.
  split; [reflexivity|]. split; [reflexivity|].
  pose proof (remove_unindexes_the_hash Example.defaultMutationOptions
    Example.getMutationDefaults Example.hashMutationKeyByOptions
    Example.shared_k None Example.shared_k None "k" initial eq_refl eq_refl eq_refl) as H.
  cbv zeta in H. destruct H as (_ & _ & _ & H4 & H5 & H6).
  split_and!; [exact H4|exact H5|exact H6].
Defined.

Example observed_store :
  bound 0%nat Example.observed = Some 0%nat
  ∧ Mutation_observers 0%nat Example.observed = [0%nat]
  ∧ MutationCache_get "k" Example.observed = Some 0%nat
  ∧ mutationId_of 0%nat Example.observed = Some 1
  ∧ MutationState.status (Mutation_state 0%nat Example.observed) = Loading.
Proof. vm_compute. done. Qed.

Lemma ids_issued_observed : ids_issued Example.observed.
Proof.
  intros [|mutation] id; vm_compute; [|discriminate].
  intros [= <-] H. discriminate H.
Qed.

Lemma index_allocated_observed : index_allocated Example.observed.
Proof.
  intros hash mutation. unfold MutationCache_get.
  assert (MutationCache.mutationsMap (cache Example.observed) = <["k" := 0%nat]> ∅) as ->
    by (vm_compute; reflexivity).
  rewrite lookup_insert_Some, lookup_empty. intros [[_ <-]|[_ [=]]].
  vm_compute. eauto.
Qed.

Lemma bound_is_registered_observed : bound_is_registered Example.observed.
Proof.
  intros [|this] mutation; vm_compute; [|discriminate].
  intros [= <-]. left.
Qed.

Lemma mutate_builds_a_new_Mutation_witness :
  (0 < length (observers Example.observed))%nat
  ∧ ids_issued Example.observed
  ∧ ∃ promise1 w1 promise2 w2 m1 m2 id1 id2,
      Example.mutate 0%nat (VNum 6) None Example.observed = (Returned promise1, w1)
      ∧ Example.mutate 0%nat (VNum 7) None w1 = (Returned promise2, w2)
      ∧ bound 0%nat w1 = Some m1 ∧ bound 0%nat w2 = Some m2
      ∧ mutationId_of m1 w2 = Some id1 ∧ mutationId_of m2 w2 = Some id2
      ∧ id1 < id2
      ∧ MutationCache_get "k" w2 = Some m2.
Proof.
  split; [vm_compute; lia|]. split; [exact ids_issued_observed|].
  destruct (mutate_builds_a_new_Mutation Example.defaultMutationOptions
    Example.getMutationDefaults Example.hashMutationKeyByOptions Example.operation
    0%nat (VNum 6) None (VNum 7) None Example.observed)
    as (promise1 & w1 & promise2 & w2 & m1 & m2 & id1 & id2 & H);
    [vm_compute; lia|exact ids_issued_observed|].
  destruct H as (H1 & H2 & _ & _ & H5 & H6 & _ & H8 & H9 & H10 & _ & _ & _ & _ & _ & _ & H17).
  exists promise1, w1, promise2, w2, m1, m2, id1, id2.
  split_and!; try done. by apply (H17 "k").
Defined.

(** C3, where the code departs from it.  The Mutation of [observed]
    succeeds with 5; the observer has the bundle and one generic listener.
    With functions that do nothing, the calls are the ones that C3 states:
    [onSuccess], [onSettled] on [(5, null, 5, undefined)], the listener on
    the view of the success.  When [onSuccess] calls [mutate()] on the
    observer, [notify] throws a [TypeError] where it reads
    [this.mutateOptions.onSettled]: [onSettled] is not called, and the
    listener is not called with the view of the success.  When
    [onSuccess] calls [reset()], [onSettled] is called on
    [(undefined, null, undefined, undefined)] and the listener on the
    idle view. *)
Lemma notify_reads_the_observer_again :
  let succeeds user :=
    Mutation_dispatch_calling user 0%nat (ActionSuccess (VNum 5)) in
  let success :=
    MutationObserverResult.of_state
      (reducer (Mutation_state 0%nat Example.observed) (ActionSuccess (VNum 5))) in
  let loading :=
    MutationObserverResult.of_state (reducer getDefaultState (ActionStarted VUndefined)) in
  let idle := MutationObserverResult.of_state getDefaultState in
  MutationObserver.mutateOptions (this_ 0%nat Example.observed) = Some Example.bundle
  ∧ MutationObserver.listeners (this_ 0%nat Example.observed) = [7%nat]
  ∧ completion (succeeds Example.inert) Example.observed = Returned tt
  ∧ added (succeeds Example.inert) Example.observed
      = [OnSuccessCalled 1%nat (VNum 5) (VNum 5) VUndefined;
         OnSettledCalled 3%nat (VNum 5) VNull (VNum 5) VUndefined;
         ListenerCalled 7%nat success;
         Flushed]
  ∧ completion (succeeds Example.onSuccess_mutates) Example.observed
      = Thrown (VError "TypeError")
  ∧ added (succeeds Example.onSuccess_mutates) Example.observed
      = [OnSuccessCalled 1%nat (VNum 5) (VNum 5) VUndefined;
         CollectionPushed 1%nat;
         IndexAssigned "k" 1%nat;
         ListenerCalled 7%nat loading]
  ∧ completion (succeeds Example.onSuccess_resets) Example.observed = Returned tt
  ∧ added (succeeds Example.onSuccess_resets) Example.observed
      = [OnSuccessCalled 1%nat (VNum 5) (VNum 5) VUndefined;
         ListenerCalled 7%nat idle;
         OnSettledCalled 3%nat VUndefined VNull VUndefined VUndefined;
         ListenerCalled 7%nat idle;
         Flushed].
Proof. vm_compute. done. Qed.

(** C5, where the code departs from it: [reset] drops the reference of the
    observer and leaves the observer in the observer set of the Mutation.
    When that Mutation later succeeds, the observer is still notified: its
    call-scoped [onSuccess] and [onSettled] run, on the data of the idle
    view. *)
Lemma reset_leaves_the_observer_registered :
  let w := exec (MutationObserver_reset 0%nat) Example.observed in
  bound 0%nat Example.observed = Some 0%nat
  ∧ Mutation_observers 0%nat Example.observed = [0%nat]
  ∧ bound 0%nat w = None
  ∧ MutationObserver.currentResult (this_ 0%nat w)
      = MutationObserverResult.of_state getDefaultState
  ∧ added (MutationObserver_reset 0%nat) Example.observed
      = [ListenerCalled 7%nat (MutationObserverResult.of_state getDefaultState); Flushed]
  ∧ Mutation_observers 0%nat w = [0%nat]
  ∧ added (Mutation_settle Example.operation 0%nat) w
      = [OnSuccessCalled 1%nat VUndefined VUndefined VUndefined;
         OnSettledCalled 3%nat VUndefined VNull VUndefined VUndefined;
         ListenerCalled 7%nat (MutationObserverResult.of_state getDefaultState);
         Flushed].
Proof. vm_compute. done. Qed.

(** C6, on an example: the observer of [observed] is bound and registered;
    when its only listener unsubscribes, the hook [onUnsubscribe] takes it
    out of the observer set and it still holds the reference. *)
Lemma onUnsubscribe_breaks_the_invariant :
  bound_is_registered Example.observed
  ∧ let w := exec (MutationObserver_unsubscribe 0%nat 7%nat) Example.observed in
    MutationObserver.listeners (this_ 0%nat w) = []
    ∧ bound 0%nat w = Some 0%nat
    ∧ Mutation_observers 0%nat w = []
    ∧ ¬ bound_is_registered w
    ∧ ¬ bound_is_registered (exec (MutationObserver_onUnsubscribe 0%nat) w).
Proof.
  split; [exact bound_is_registered_observed|].
  split_and!; [reflexivity|reflexivity|reflexivity| |].
  - intros H. specialize (H 0%nat 0%nat eq_refl). vm_compute in H.
    by apply elem_of_nil in H.
  - intros H. specialize (H 0%nat 0%nat eq_refl). vm_compute in H.
    by apply elem_of_nil in H.
Qed.

Lemma binding_invariant_witness :
  (0 < length (observers Example.observed))%nat
  ∧ index_allocated Example.observed
  ∧ bound_is_registered Example.observed
  ∧ bound_is_registered (exec (Example.mutate 0%nat (VNum 6) None) Example.observed)
  ∧ bound_is_registered (exec (MutationObserver_reset 0%nat) Example.observed)
  ∧ bound_is_registered (exec (Example.setOptions 0%nat (Some Example.unshared))
                           Example.observed).
Proof.
  assert (0 < length (observers Example.observed))%nat as Hthis by (vm_compute; lia).
  pose proof (binding_invariant Example.defaultMutationOptions
    Example.getMutationDefaults Example.hashMutationKeyByOptions Example.operation
    0%nat Example.observed Hthis index_allocated_observed bound_is_registered_observed)
    as (Hset & _ & Hmutate & Hreset & _).
  split_and!; [exact Hthis|exact index_allocated_observed|exact bound_is_registered_observed
              |apply Hmutate|apply Hreset|apply Hset].
Defined.

(** C7, where the code departs from it: [setOptions] stores the new options
    before it compares the flags.  The call that changes [shareable]
    throws, and the observer has the new flag; the same call, made again,
    returns. *)
Lemma setOptions_changes_the_flag :
  let w := exec (Example.setOptions 0%nat (Some Example.unshared)) Example.constructed in
  (MutationOptions.shareable <$> MutationObserver.options (this_ 0%nat Example.constructed))
    = Some (Some true)
  ∧ completion (Example.setOptions 0%nat (Some Example.unshared)) Example.constructed
      = Thrown shareable_changed
  ∧ (MutationOptions.shareable <$> MutationObserver.options (this_ 0%nat w))
      = Some (Some false)
  ∧ completion (Example.setOptions 0%nat (Some Example.unshared)) w = Returned tt.
Proof. vm_compute. done. Qed.

(** C8, on an example: the first of two paused Mutations rejects, the second
    is continued after it, and the chain is fulfilled. *)
Example resume_after_a_rejection :
  ∃ chain w,
    Example.resumePausedMutations Example.two_paused = (Returned chain, w)
    ∧ completion chain w = Returned tt
    ∧ added chain w =
        [ContinueCalled 0%nat; ContinueSettled 0%nat false;
         ContinueCalled 1%nat; ContinueSettled 1%nat true]
    ∧ MutationState.status (Mutation_state 0%nat (exec chain w)) = Error
    ∧ MutationState.status (Mutation_state 1%nat (exec chain w)) = Success.
Proof. eexists _, _. split; [reflexivity|]. vm_compute. done. Qed.

(** C8, what its statement excludes: a resume that calls [continue()] on
    both paused Mutations at once continues the second before the
    awaitable of the first has settled, and its journal is not the one of
    a sequential resumption. *)
Example resume_at_once_is_not_sequential :
  ∃ chain w,
    Example.resume_at_once [0; 1]%nat Example.two_paused = (Returned chain, w)
    ∧ continues (drop (length (journal Example.two_paused)) (journal (exec chain w)))
        = [ContinueCalled 0%nat; ContinueCalled 1%nat;
           ContinueSettled 0%nat false; ContinueSettled 1%nat true]
    ∧ ¬ resumed [0; 1]%nat
          (continues (drop (length (journal Example.two_paused)) (journal (exec chain w)))).
Proof.
  eexists _, _. split; [reflexivity|].
  assert (continues (drop (length (journal Example.two_paused))
            (journal (exec _ _)))
          = [ContinueCalled 0%nat; ContinueCalled 1%nat;
             ContinueSettled 0%nat false; ContinueSettled 1%nat true]) as ->
    by (vm_compute; reflexivity).
  split; [done|]. intros H. inversion H.
Qed.

(** ** More on the examples *)

Lemma index_tracks_collection_three : index_tracks_collection Example.three_mutations.
Proof.
  intros hash mutation. unfold MutationCache_get.
  assert (MutationCache.mutationsMap (cache Example.three_mutations) = <["k" := 2%nat]> ∅)
    as -> by (vm_compute; reflexivity).
  rewrite lookup_insert_Some, lookup_empty. intros [[<- <-]|[_ [=]]].
  split_and!; [|reflexivity|reflexivity].
  vm_compute. right. right. left.
Qed.

Lemma index_tracks_collection_kept_witness :
  index_tracks_collection Example.three_mutations
  ∧ index_tracks_collection (exec (Example.build Example.shared_k None) Example.three_mutations)
  ∧ index_tracks_collection (exec (MutationCache_remove 0%nat) Example.three_mutations)
  ∧ index_tracks_collection (exec MutationCache_clear Example.three_mutations).
Proof.
  pose proof (index_tracks_collection_kept Example.defaultMutationOptions
    Example.getMutationDefaults Example.hashMutationKeyByOptions
    Example.three_mutations index_tracks_collection_three) as (Hbuild & _ & Hremove & Hclear).
  split_and!; [exact index_tracks_collection_three|apply Hbuild|apply Hremove|exact Hclear].
Defined.

Lemma clear_empties_both_witness :
  index_tracks_collection Example.three_mutations
  ∧ MutationCache_getAll Example.three_mutations = [0; 1; 2]%nat
  ∧ MutationCache_get "k" Example.three_mutations = Some 2%nat
  ∧ MutationCache_getAll (exec MutationCache_clear Example.three_mutations) = []
  ∧ MutationCache.mutationsMap (cache (exec MutationCache_clear Example.three_mutations))
    = ∅
  ∧ ("k" ∉ Object_prototype)
  ∧ MutationCache_get "k" (exec MutationCache_clear Example.three_mutations) = None.
Proof.
  pose proof (clear_empties_both Example.three_mutations index_tracks_collection_three)
    as (Hall & Hindex & Hget).
  assert ("k" ∉ Object_prototype) as Hk.
  { unfold Object_prototype. rewrite !not_elem_of_cons. split_and!; try done.
    apply not_elem_of_nil. }
  split_and!; [exact index_tracks_collection_three|reflexivity|reflexivity|exact Hall
              |exact Hindex|exact Hk|exact (Hget "k" Hk)].
Defined.

Lemma allocated_reference_unsubscribed : allocated_reference 1%nat Example.unsubscribed.
Proof. intros mutation. vm_compute. intros [= <-]. by eexists. Qed.

Lemma passive_observer_follows_witness :
  (1 ≠ 0)%nat
  ∧ (0 < length (observers Example.unsubscribed))%nat
  ∧ allocated_reference 1%nat Example.unsubscribed
  ∧ bound 1%nat Example.unsubscribed = Some 0%nat
  ∧ Mutation_observers 0%nat Example.unsubscribed = [0%nat]
  ∧ ¬ bound_is_registered Example.unsubscribed
  ∧ let w1 := exec (Example.mutate 0%nat (VNum 6) None) Example.unsubscribed in
    let w2 := exec (MutationObserver_updateSharedMutation Example.hashMutationKeyByOptions
                      1%nat) w1 in
    bound 1%nat w1 = Some 0%nat
    ∧ MutationCache_get "k" w1 = Some 1%nat
    ∧ bound 1%nat w2 = Some 1%nat
    ∧ Mutation_observers 1%nat w2 = [0; 1]%nat.
Proof.
  assert (1 ≠ 0)%nat as Hne by lia.
  assert (0 < length (observers Example.unsubscribed))%nat as Hthis by (vm_compute; lia).
  pose proof (passive_observer_follows Example.defaultMutationOptions
    Example.getMutationDefaults Example.hashMutationKeyByOptions Example.operation
    0%nat 1%nat (VNum 6) None (KeyString "k") Example.unsubscribed
    Hne Hthis allocated_reference_unsubscribed eq_refl eq_refl eq_refl)
    as (Hsame & Hget & Hbound & Hset & _).
  assert (length (heap Example.unsubscribed) = 1%nat) as Hnew by reflexivity.
  rewrite Hnew in Hget, Hbound, Hset.
  cbv zeta.
  split_and!; [exact Hne|exact Hthis|exact allocated_reference_unsubscribed
              |reflexivity|reflexivity| | |exact Hget|exact Hbound|exact Hset].
  - intros Hinv. specialize (Hinv 1%nat 0%nat eq_refl). vm_compute in Hinv.
    apply list_elem_of_singleton in Hinv. discriminate Hinv.
  - unfold bound, this_. unfold Example.mutate. rewrite Hsame. reflexivity.
Defined.

Lemma mutate_again_orphans_witness :
  (0 < length (observers Example.observed))%nat
  ∧ let w1 := exec (Example.mutate 0%nat (VNum 6) (Some Example.bundle)) Example.observed in
    let w2 := exec (Example.mutate 0%nat (VNum 7) None) w1 in
    Mutation_observers 1%nat w1 = [0%nat]
    ∧ Mutation_observers 1%nat w2 = []
    ∧ added (Mutation_settle Example.operation 1%nat) w2 = [].
Proof.
  assert (0 < length (observers Example.observed))%nat as Hthis by (vm_compute; lia).
  pose proof (mutate_again_orphans Example.defaultMutationOptions
    Example.getMutationDefaults Example.hashMutationKeyByOptions Example.operation
    0%nat (VNum 6) (Some Example.bundle) (VNum 7) None Example.observed Hthis)
    as (Hfirst & Hnone & _ & Hadded & _).
  cbv zeta. split_and!; [exact Hthis|exact Hfirst|exact Hnone|exact Hadded].
Defined.

Lemma derived_observed : derived Example.observed.
Proof.
  intros [|this].
  - exists (MutationObserverResult.state
              (MutationObserver_getCurrentResult 0%nat Example.observed)).
    vm_compute. reflexivity.
  - exists getDefaultState. vm_compute. reflexivity.
Qed.

Lemma results_stay_derived_witness :
  derived Example.observed
  ∧ derived (exec (Example.mutate 0%nat (VNum 6) None) Example.observed)
  ∧ derived (exec (MutationObserver_reset 0%nat) Example.observed)
  ∧ derived (exec (Mutation_settle Example.operation 0%nat) Example.observed)
  ∧ one_status (MutationObserver_getCurrentResult 0%nat Example.observed)
  ∧ MutationObserverResult.isLoading (MutationObserver_getCurrentResult 0%nat Example.observed)
    = true.
Proof.
  pose proof (results_stay_derived Example.defaultMutationOptions
    Example.getMutationDefaults Example.hashMutationKeyByOptions Example.operation
    0%nat Example.observed derived_observed)
    as (_ & _ & Hmutate & Hreset & _ & _ & _ & _ & Hsettle & Hone & _ & Hloading & _).
  split_and!; [exact derived_observed|apply Hmutate|exact Hreset|apply Hsettle|exact Hone|].
  apply Hloading. reflexivity.
Defined.

Lemma ids_issued_one_shared : ids_issued Example.one_shared.
Proof.
  intros [|mutation] id; vm_compute; [|discriminate].
  intros [= <-] H. discriminate H.
Qed.

Lemma build_issues_a_fresh_id_witness :
  ids_issued Example.one_shared
  ∧ let w := exec (Example.build (Example.plain (VNum 1)) None) Example.one_shared in
    ids_issued w
    ∧ mutationId_of 0%nat w = Some 1
    ∧ mutationId_of 1%nat w = Some 2
    ∧ MutationCache_getAll w = [0; 1]%nat.
Proof.
  pose proof (build_issues_a_fresh_id Example.defaultMutationOptions
    Example.getMutationDefaults Example.hashMutationKeyByOptions
    (Example.plain (VNum 1)) None Example.one_shared ids_issued_one_shared)
    as (_ & Hids & _ & Hnew & Hold & Hall & _).
  cbv zeta.
  split_and!; [exact ids_issued_one_shared|exact Hids| |exact Hnew|exact Hall].
  apply (Hold 0%nat 1). reflexivity.
Defined.

Lemma build_notifies_before_indexing_witness :
  truthy_hash_of (build_mutationHash Example.hashMutationKeyByOptions Example.shared_k)
    = Some "k"
  ∧ added (Example.build Example.shared_k None) Example.one_shared
    = [CollectionPushed 1%nat; CacheListenerCalled 9%nat (Some 1%nat); Flushed;
       IndexAssigned "k" 1%nat].
Proof.
  split; [reflexivity|].
  exact (build_notifies_before_indexing Example.defaultMutationOptions
    Example.getMutationDefaults Example.hashMutationKeyByOptions
    Example.shared_k None "k" Example.one_shared eq_refl).
Defined.

Lemma unsubscribed_observer_stays_detached_witness :
  MutationObserver.listeners (this_ 0%nat Example.observed) = [7%nat]
  ∧ bound 0%nat Example.observed = Some 0%nat
  ∧ MutationCache_get "k" Example.observed = Some 0%nat
  ∧ let w1 := exec (MutationObserver_unsubscribe 0%nat 7%nat) Example.observed in
    let w2 := exec (MutationObserver_subscribe 0%nat 8%nat) w1 in
    Mutation_observers 0%nat w2 = []
    ∧ bound 0%nat w2 = Some 0%nat
    ∧ MutationObserver.listeners (this_ 0%nat w2) = [8%nat]
    ∧ exec (MutationObserver_updateSharedMutation Example.hashMutationKeyByOptions 0%nat) w2
      = w2
    ∧ MutationObserverResult.isLoading
        (MutationObserver_getCurrentResult 0%nat
           (exec (Mutation_dispatch 0%nat (ActionSuccess (VNum 5))) w2)) = true.
Proof.
  pose proof (unsubscribed_observer_stays_detached Example.hashMutationKeyByOptions
    0%nat 7%nat 8%nat 0%nat Example.observed eq_refl eq_refl)
    as (Hset & Hbound & Hlisteners & _ & Hshared & Hstale).
  cbv zeta.
  split_and!; [reflexivity|reflexivity|reflexivity|exact Hset|exact Hbound|exact Hlisteners
              | |].
  - apply Hshared. intros key [= <-]. reflexivity.
  - rewrite Hstale. reflexivity.
Defined.

